(** * SharpLearn: session orchestration core

    A shallow embedding of the parts of the SharpLearn study companion that
    carry its state-machine logic:

    - [src/hooks/useSpeechRecognition.ts]: [createBlob] (PCM encoding) and
      the [useSpeechRecognition] hook ([startListening], [stopListening],
      the [onmessage] transcript handler);
    - [components/FocusTracker] ([analyzeFrame], the low-focus streak);
    - [src/services/geminiService.ts] (the input short circuits and the
      credential check of every call);
    - [src/App.tsx] ([startSession], [endSession], [handleApiError],
      [handleAddClass], [handleDeleteClass], [handleSaveSession]).

    Conventions.  A JavaScript string is a [string]: each [ascii] stands for
    one UTF-16 code unit in the range U+0000 .. U+00FF.  A React state cell
    is a record field; an event handler is a function from the state before
    the event to the state after it, paired with the list of outside actions
    it performs.  A [useRef] cell is a field of its own, because it changes
    at other moments than the state it mirrors. *)

From Stdlib Require Import ZArith QArith Qabs Qround List String Ascii Bool Lia Arith.
From Stdlib Require Import DecimalString.
From Stdlib Require DecimalPos DecimalZ.
Import ListNotations.

Set Implicit Arguments.

(* ===================================================================== *)
(** ** JavaScript strings *)
(* ===================================================================== *)

Module JsString.

Open Scope string_scope.

(** [WhiteSpace] and [LineTerminator] code units below U+0100: TAB, LF,
    VT, FF, CR, SPACE and NO-BREAK SPACE. *)
Definition is_ws (c : ascii) : bool :=
  let n := nat_of_ascii c in
  ((9 <=? n) && (n <=? 13) || (n =? 32) || (n =? 160))%nat.

(** [String.prototype.trimStart]. *)
Fixpoint trimStart (s : string) : string :=
  match s with
  | EmptyString => EmptyString
  | String c r => if is_ws c then trimStart r else s
  end.

(** [String.prototype.trimEnd]. *)
Fixpoint trimEnd (s : string) : string :=
  match s with
  | EmptyString => EmptyString
  | String c r =>
      match trimEnd r with
      | EmptyString => if is_ws c then EmptyString else String c EmptyString
      | t => String c t
      end
  end.

(** [String.prototype.trim]. *)
Definition trim (s : string) : string := trimEnd (trimStart s).

(** A string is truthy when it is not empty. *)
Definition truthy (s : string) : bool :=
  match s with EmptyString => false | _ => true end.

(** [a || b] on strings. *)
Definition or_else (a b : string) : string := if truthy a then a else b.

(** Every code unit of the string is white space. *)
Fixpoint blank (s : string) : bool :=
  match s with
  | EmptyString => true
  | String c r => is_ws c && blank r
  end.

(** The leading white space of a string. *)
Fixpoint leadingWs (s : string) : string :=
  match s with
  | EmptyString => EmptyString
  | String c r => if is_ws c then String c (leadingWs r) else EmptyString
  end.

(** [String.prototype.toLowerCase] on code units below U+0100: the letters
    A..Z and the Latin-1 capitals U+00C0..U+00DE (U+00D7, the multiplication
    sign, apart) move up by 32. *)
Definition lower_char (c : ascii) : ascii :=
  let n := nat_of_ascii c in
  if ((65 <=? n) && (n <=? 90)
      || (192 <=? n) && (n <=? 222) && negb (n =? 215))%nat
  then ascii_of_nat (n + 32) else c.

Fixpoint toLowerCase (s : string) : string :=
  match s with
  | EmptyString => EmptyString
  | String c r => String (lower_char c) (toLowerCase r)
  end.

(** [hay.startsWith(needle)]. *)
Fixpoint startsWith (needle hay : string) : bool :=
  match needle, hay with
  | EmptyString, _ => true
  | String a n, String b h => Ascii.eqb a b && startsWith n h
  | String _ _, EmptyString => false
  end.

(** [hay.includes(needle)]. *)
Fixpoint includes (needle hay : string) : bool :=
  startsWith needle hay ||
  match hay with
  | EmptyString => false
  | String _ h => includes needle h
  end.

(** The pieces of a text, put end to end. *)
Definition join (pieces : list string) : string :=
  fold_right append EmptyString pieces.

(** [n.toString()] for an integer. *)
Definition toString (n : Z) : string := NilZero.string_of_int (Z.to_int n).

End JsString.

(* ===================================================================== *)
(** ** AudioFrameEncoder: [createBlob] of useSpeechRecognition.ts *)
(* ===================================================================== *)

Module Audio.

Open Scope Z_scope.

(** An element of the [Float32Array] handed to [createBlob].  Every finite
    float32 is a rational number, and the product [data[i] * 32768] is
    exact in binary64 (a multiplication by 2^15), so the arithmetic of the
    loop is arithmetic on [Q]. *)
Definition sample : Type := Q.

(** [truncate(x)]: the integral part, rounding towards zero. *)
Definition truncate (x : Q) : Z := Z.quot (Qnum x) (Zpos (Qden x)).

(** [ToInt16], the conversion a store into an [Int16Array] applies:
    truncate, reduce modulo 2^16, and read the result as two's
    complement. *)
Definition ToInt16 (x : Q) : Z :=
  let int16bit := truncate x mod 65536 in
  if 32768 <=? int16bit then int16bit - 65536 else int16bit.

(** The loop [for (i = 0; i < l; i++) int16[i] = data[i] * 32768]. *)
Definition int16_of_sample (x : sample) : Z := ToInt16 (x * 32768)%Q.

Definition int16_buffer (data : list sample) : list Z :=
  map int16_of_sample data.

(** The two bytes of an int16 in the buffer, low byte first (typed arrays
    use the byte order of the platform, little endian on every platform a
    browser runs on). *)
Definition bytes_of_int16 (v : Z) : list Z :=
  [Z.land v 255; Z.land (Z.shiftr v 8) 255].

(** [new Uint8Array(int16.buffer)]. *)
Definition Uint8Array_of_buffer (buf : list Z) : list Z :=
  flat_map bytes_of_int16 buf.

(** The bytes [createBlob] hands to [encode]. *)
Definition pcm_bytes (data : list sample) : list Z :=
  Uint8Array_of_buffer (int16_buffer data).

(** The loop of [encode]: [binary += String.fromCharCode(bytes[i])]. *)
Definition binary_of_bytes (bytes : list Z) : string :=
  fold_right (fun b acc => String (ascii_of_nat (Z.to_nat b)) acc) EmptyString bytes.

Definition base64_alphabet : string :=
  "ABCDEFGHIJKLMNOPQRSTUVWXYZabcdefghijklmnopqrstuvwxyz0123456789+/".

Definition base64_digit (n : Z) : ascii :=
  match String.get (Z.to_nat n) base64_alphabet with
  | Some c => c
  | None => "="%char
  end.

Definition code (c : ascii) : Z := Z.of_nat (nat_of_ascii c).

(** [btoa]: three code units become four base64 digits; one or two
    trailing code units are padded with [=]. *)
Fixpoint btoa (binary : string) : string :=
  match binary with
  | EmptyString => EmptyString
  | String a EmptyString =>
      String (base64_digit (code a / 4))
        (String (base64_digit (code a mod 4 * 16)) "=="%string)
  | String a (String b EmptyString) =>
      String (base64_digit (code a / 4))
        (String (base64_digit (code a mod 4 * 16 + code b / 16))
           (String (base64_digit (code b mod 16 * 4)) "="%string))
  | String a (String b (String c rest)) =>
      String (base64_digit (code a / 4))
        (String (base64_digit (code a mod 4 * 16 + code b / 16))
           (String (base64_digit (code b mod 16 * 4 + code c / 64))
              (String (base64_digit (code c mod 64)) (btoa rest))))
  end.

Definition encode (bytes : list Z) : string := btoa (binary_of_bytes bytes).

Record Blob := { data : string; mimeType : string }.

Definition createBlob (samples : list sample) : Blob :=
  {| data := encode (pcm_bytes samples);
     mimeType := "audio/pcm;rate=16000" |}.

(** *** The decoder of the round-trip property

    Not part of the source: the reader of 16-bit signed little-endian PCM
    that the round-trip property decodes with. *)

Definition int16_of_bytes (lo hi : Z) : Z :=
  let u := lo + 256 * hi in
  if 32768 <=? u then u - 65536 else u.

Fixpoint decode_int16s (bytes : list Z) : list Z :=
  match bytes with
  | lo :: hi :: rest => int16_of_bytes lo hi :: decode_int16s rest
  | _ => []
  end.

Definition float_of_int16 (v : Z) : Q := v # 32768.

Definition decode_pcm (bytes : list Z) : list Q :=
  map float_of_int16 (decode_int16s bytes).

(** The samples the amended round trip covers: -1 <= x < 1. *)
Definition in_range (x : sample) : Prop := (-1 <= x /\ x < 1)%Q.

(** The quantization step of 16-bit PCM. *)
Definition quantum : Q := 1 # 32768.

(** *** The quantizer in the words of the specification

    [int16 = round(float * 32768)], clamped to the int16 range; [round] is
    rounding to the nearest integer (halves upwards, as [Math.round]). *)

Definition spec_round (x : Q) : Z := Qfloor (x + (1 # 2))%Q.

Definition spec_clamp (n : Z) : Z := Z.max (-32768) (Z.min 32767 n).

Definition spec_quantize (x : sample) : Z := spec_clamp (spec_round (x * 32768)%Q).

(** *** The reader of the payload

    Not part of the source: [atob], the inverse of [btoa], and the bytes of
    a binary string, with which the payload of a [Blob] is read back. *)

Fixpoint index_of (c : ascii) (alphabet : string) : option nat :=
  match alphabet with
  | EmptyString => None
  | String a rest =>
      if Ascii.eqb a c then Some O else option_map S (index_of c rest)
  end.

Definition base64_value (c : ascii) : option Z :=
  option_map Z.of_nat (index_of c base64_alphabet).

Definition char_of_code (n : Z) : ascii := ascii_of_nat (Z.to_nat n).

Definition is_pad (c : ascii) : bool := Ascii.eqb c "="%char.

(** Four digits give three code units; [=] in the last one or two places
    marks a group of two or one, which must be the last group. *)
Fixpoint atob (payload : string) : option string :=
  match payload with
  | EmptyString => Some EmptyString
  | String c1 (String c2 (String c3 (String c4 rest))) =>
      match base64_value c1, base64_value c2 with
      | Some d1, Some d2 =>
          let a := char_of_code (d1 * 4 + d2 / 16) in
          if is_pad c3 && is_pad c4 then
            match rest with
            | EmptyString => Some (String a EmptyString)
            | _ => None
            end
          else
            match base64_value c3 with
            | Some d3 =>
                let b := char_of_code (d2 mod 16 * 16 + d3 / 4) in
                if is_pad c4 then
                  match rest with
                  | EmptyString => Some (String a (String b EmptyString))
                  | _ => None
                  end
                else
                  match base64_value c4, atob rest with
                  | Some d4, Some tail =>
                      Some (String a (String b
                              (String (char_of_code (d3 mod 4 * 64 + d4)) tail)))
                  | _, _ => None
                  end
            | None => None
            end
      | _, _ => None
      end
  | _ => None
  end.

Fixpoint bytes_of_binary (binary : string) : list Z :=
  match binary with
  | EmptyString => []
  | String c rest => code c :: bytes_of_binary rest
  end.

(** The bytes a receiver reads from the payload of a [Blob]. *)
Definition payload_bytes (b : Blob) : option (list Z) :=
  option_map bytes_of_binary (atob (data b)).

End Audio.

(* ===================================================================== *)
(** ** The world outside the program *)
(* ===================================================================== *)

Module World.

(** A thrown value, by the message of its [Error]. *)
Definition Error : Type := string.

(** The outcome of a call that may throw (of a promise that may reject). *)
Inductive Result (A : Type) : Type :=
| Ok (a : A)
| Throw (e : Error).
Arguments Ok {A} a.
Arguments Throw {A} e.

Definition bind {A B : Type} (m : Result A) (k : A -> Result B) : Result B :=
  match m with
  | Ok a => k a
  | Throw e => Throw e
  end.

(** The answer to a [generateContent] call whose text is parsed as JSON:
    the call or [JSON.parse] throws, the text is empty after trimming, or
    the field the caller reads has a value. *)
Inductive Reply (A : Type) : Type :=
| Rejected (e : Error)
| EmptyText
| Parsed (field : A).
Arguments Rejected {A} e.
Arguments EmptyText {A}.
Arguments Parsed {A} field.

(** A handle on a [MediaStream]. *)
Definition MediaStream : Type := Z.

(** What the program does to the world, in the order it does it.  The
    requests of [geminiService] to the generative model are not listed:
    what they return is read from the environment below. *)
Inductive Action : Type :=
| getUserMedia                       (* camera and microphone are requested *)
| stopTracks (stream : MediaStream)  (* every track of the stream is stopped *)
| newGoogleGenAI                     (* a client is built from the key *)
| newAudioContext
| closeAudioContext
| disconnectAudio
| liveConnect                        (* the transcription channel is opened *)
| closeSession                       (* the transcription channel is closed *)
| sendRealtimeInput (data : string)
| postWebhook (className : string)   (* the teacher notification *)
| alert (message : string)
| consoleError (message : string)
| setTimeout (ms : Z).

(** The actions that go over the network. *)
Definition is_network (a : Action) : bool :=
  match a with
  | liveConnect | sendRealtimeInput _ | postWebhook _ => true
  | _ => false
  end.

(** The actions that acquire a media device. *)
Definition acquires_media (a : Action) : bool :=
  match a with
  | getUserMedia => true
  | _ => false
  end.

(** The environment of one run: the credential and what the collaborators
    answer. *)
Record Env : Type := {
  API_KEY : option string;                           (* process.env.API_KEY *)
  mediaDevices : Result MediaStream;                 (* getUserMedia *)
  audioContext : Result unit;                        (* new AudioContext *)
  connect : Result unit;                             (* ai.live.connect *)
  notes_reply : string -> Result (option string);             (* response.text *)
  summary_reply : string -> string -> Result (option string); (* response.text *)
  subject_reply : string -> Reply string;
  className_reply : string -> Reply string
}.

(** [!process.env.API_KEY] is false: the key is set and not empty. *)
Definition has_key (env : Env) : bool :=
  match API_KEY env with
  | Some k => JsString.truthy k
  | None => false
  end.

End World.

Declare Scope result_scope.
Delimit Scope result_scope with result.
Notation "x <- m ;; k" := (World.bind m (fun x => k))
  (at level 61, m at next level, right associativity) : result_scope.

(* ===================================================================== *)
(** ** GenerativeTextClient: geminiService.ts *)
(* ===================================================================== *)

Module Gemini.

Import World JsString.
Open Scope string_scope.
Open Scope result_scope.

Definition getAiClient (env : Env) : Result unit :=
  if negb (has_key env)
  then Throw "API_KEY environment variable not set. Please select an API key in the application."
  else Ok tt.

(** [structureNotes] and [generateFinalSummary] return [response.text] as
    it is: [None] is the [undefined] of a reply that carries no text. *)
Definition structureNotes (env : Env) (text : string) : Result (option string) :=
  if negb (truthy (trim text)) then Ok (Some "")
  else _ <- getAiClient env ;; notes_reply env text.

Definition generateFinalSummary (env : Env) (fullTranscript subject : string)
  : Result (option string) :=
  if negb (truthy (trim fullTranscript)) then Ok (Some "No content to summarize.")
  else _ <- getAiClient env ;; summary_reply env fullTranscript subject.

(** The tail shared by the structured calls: [result.field || fallback]
    when the text is not empty, [fallback] when it is. *)
Definition field_or (fallback : string) (r : Reply string) : Result string :=
  match r with
  | Rejected e => Throw e
  | EmptyText => Ok fallback
  | Parsed v => Ok (or_else v fallback)
  end.

Definition identifySubject (env : Env) (text : string) : Result string :=
  if negb (truthy (trim text)) then Ok "Unknown"
  else _ <- getAiClient env ;; field_or "Unknown" (subject_reply env text).

Definition generateClassNameFromTranscript (env : Env) (transcript : string)
  : Result string :=
  if negb (truthy (trim transcript)) then Ok "Untitled Recording"
  else _ <- getAiClient env ;;
       field_or "Untitled Recording" (className_reply env transcript).

Record FocusResult : Type := { score : Q; reason : string }.

(** [analyzeFocus]: the reply of the model to this frame is an argument. *)
Definition analyzeFocus (env : Env) (reply : Reply FocusResult)
  : Result FocusResult :=
  _ <- getAiClient env ;;
  match reply with
  | Rejected e => Throw e
  | EmptyText => Ok {| score := 0; reason := "Could not analyze image." |}
  | Parsed r => Ok r
  end.

Record QuizQuestion : Type := {
  question : string;
  options : list string;
  correctAnswer : string;
  explanation : string
}.

(** [generateQuiz]: the reply of the model is an argument.  The parsed
    array is returned as it is, an empty text gives no question. *)
Definition generateQuiz (env : Env) (reply : Reply (list QuizQuestion))
    (courseContent : string) : Result (list QuizQuestion) :=
  if negb (truthy (trim courseContent)) then Ok []
  else _ <- getAiClient env ;;
       match reply with
       | Rejected e => Throw e
       | EmptyText => Ok []
       | Parsed result => Ok result
       end.

(** What [getAiClient] throws. *)
Definition no_key_error : Error :=
  "API_KEY environment variable not set. Please select an API key in the application.".

End Gemini.

(* ===================================================================== *)
(** ** VisionSampler: components/FocusTracker *)
(* ===================================================================== *)

Module Focus.

Import World JsString.
Open Scope string_scope.

Record FocusDataPoint : Type := { timestamp : Z; score : Q }.

Inductive Status : Type := idle | analyzing | error.

(** The state cells and refs of the component. *)
Record Tracker : Type := {
  focusScore : Q;
  status : Status;
  errorMessage : string;
  lowFocusCounter : nat;
  teacherAlertSent : bool
}.

Definition mount : Tracker :=
  {| focusScore := 100; status := idle; errorMessage := "";
     lowFocusCounter := 0; teacherAlertSent := false |}.

(** What [analyzeFrame] calls: its props and the teacher notification. *)
Inductive Call : Type :=
| onFocusUpdate (dataPoint : FocusDataPoint)
| onLowFocus (timestamp : Z) (score : Q)
| sendFocusAlertToTeacher (className : string)
| onApiError (err : Error).

(** One firing of the sampling interval. *)
Record Tick : Type := {
  ready : bool;       (* video and canvas are there and readyState >= 2 *)
  context2d : bool;   (* canvas.getContext('2d') is not null *)
  now : Z;            (* Date.now() when the classification arrives *)
  classified : Result Gemini.FocusResult   (* await geminiService.analyzeFocus *)
}.

(** [score < 60] and [score === 0] on numbers. *)
Definition below (x y : Q) : bool := negb (Qle_bool y x).
Definition is_zero (x : Q) : bool := Qeq_bool x 0.

Definition analyzeFrame (className : string) (t : Tracker) (k : Tick)
  : Tracker * list Call :=
  if negb (ready k) then (t, [])
  else if negb (context2d k) then
    ({| focusScore := focusScore t; status := analyzing;
        errorMessage := errorMessage t;
        lowFocusCounter := lowFocusCounter t;
        teacherAlertSent := teacherAlertSent t |}, [])
  else
    match classified k with
    | Ok result =>
        let s := Gemini.score result in
        let dataPoint := {| timestamp := now k; score := s |} in
        if below s 60 then
          let counter := S (lowFocusCounter t) in
          let alert := is_zero s && negb (teacherAlertSent t) in
          ({| focusScore := s; status := idle; errorMessage := "";
              lowFocusCounter := counter;
              teacherAlertSent := if alert then true else teacherAlertSent t |},
           ([onFocusUpdate dataPoint]
              ++ (if Nat.eqb counter 1 then [onLowFocus (now k) s] else [])
              ++ (if alert then [sendFocusAlertToTeacher className] else []))%list)
        else
          ({| focusScore := s; status := idle; errorMessage := "";
              lowFocusCounter := 0;
              teacherAlertSent := false |},
           [onFocusUpdate dataPoint])
    | Throw err =>
        ({| focusScore := 0; status := error; errorMessage := err;
            lowFocusCounter := lowFocusCounter t;
            teacherAlertSent := teacherAlertSent t |},
         [onApiError err])
    end.

(** The interval at work: the ticks one after the other, each with the
    calls it makes. *)
Fixpoint run_ticks (className : string) (t : Tracker) (ticks : list Tick)
  : Tracker * list (list Call) :=
  match ticks with
  | [] => (t, [])
  | k :: rest =>
      let (t1, calls) := analyzeFrame className t k in
      let (t2, later) := run_ticks className t1 rest in
      (t2, calls :: later)
  end.

(** A tick on which the classification succeeds with the given score. *)
Definition scored (at_time : Z) (s : Q) : Tick :=
  {| ready := true; context2d := true; now := at_time;
     classified := Ok {| Gemini.score := s; Gemini.reason := "" |} |}.

(** A tick on which the classification fails. *)
Definition failed (at_time : Z) (err : Error) : Tick :=
  {| ready := true; context2d := true; now := at_time; classified := Throw err |}.

(** The tick the interval makes of a frame, given what the model answers
    to it. *)
Definition tick_of (env : Env) (at_time : Z) (reply : Reply Gemini.FocusResult) : Tick :=
  {| ready := true; context2d := true; now := at_time;
     classified := Gemini.analyzeFocus env reply |}.



Definition is_focusUpdate (c : Call) : bool :=
  match c with onFocusUpdate _ => true | _ => false end.




(** *** The notifications in the words of the specification *)



Definition is_apiError (c : Call) : bool :=
  match c with onApiError _ => true | _ => false end.

(** A tick that gets through both early returns and whose classification
    resolves. *)
Definition completes (k : Tick) : bool :=
  ready k && context2d k
  && match classified k with Ok _ => true | Throw _ => false end.

(** The calls of a run in their order, the error reports left out. *)
Definition notifications (run : list (list Call)) : list Call :=
  filter (fun c => negb (is_apiError c)) (List.concat run).

End Focus.

(* ===================================================================== *)
(** ** TranscriptionChannel: the useSpeechRecognition hook *)
(* ===================================================================== *)

Module Speech.

Import World JsString.
Open Scope string_scope.

(** A message of the live session, as far as [onmessage] reads it. *)
Record Transcription : Type := { text : option string }.
Record ServerContent : Type := {
  inputTranscription : option Transcription;
  turnComplete : bool               (* absent reads as false *)
}.
Record Message : Type := { serverContent : option ServerContent }.

(** The state cells and refs of the hook, and the variable
    [currentTurnTranscription] that the callbacks of one [startListening]
    share.  Every call of [startListening] has a variable of its own,
    empty at first; the record holds the one of the latest call, and
    [onmessage] below is the callback of that call's connection. *)
Record Hook : Type := {
  isListening : bool;
  error : option string;
  sessionRef : bool;
  audioContextRef : bool;
  scriptProcessorRef : bool;
  mediaStreamSourceRef : bool;
  currentTurnTranscription : string
}.

Definition fresh : Hook :=
  {| isListening := false; error := None; sessionRef := false;
     audioContextRef := false; scriptProcessorRef := false;
     mediaStreamSourceRef := false; currentTurnTranscription := "" |}.

(** What the hook does: it calls the two callbacks it was given, defers a
    call, or acts on the world. *)
Inductive Effect : Type :=
| onTranscriptChunk (chunk : string)
| onInterimTranscriptChange (transcript : string)
| clearInterimLater     (* setTimeout(() => onInterimTranscriptChange(''), 100) *)
| world (a : Action).

(** [s += x] where [x] may be [undefined]. *)
Definition concat_text (s : string) (x : option string) : string :=
  s ++ match x with Some t => t | None => "undefined" end.

Definition set_turn (h : Hook) (cur : string) : Hook :=
  {| isListening := isListening h; error := error h;
     sessionRef := sessionRef h; audioContextRef := audioContextRef h;
     scriptProcessorRef := scriptProcessorRef h;
     mediaStreamSourceRef := mediaStreamSourceRef h;
     currentTurnTranscription := cur |}.

Definition set_error (h : Hook) (e : option string) : Hook :=
  {| isListening := isListening h; error := e;
     sessionRef := sessionRef h; audioContextRef := audioContextRef h;
     scriptProcessorRef := scriptProcessorRef h;
     mediaStreamSourceRef := mediaStreamSourceRef h;
     currentTurnTranscription := currentTurnTranscription h |}.

Definition onmessage (h : Hook) (message : Message) : Hook * list Effect :=
  match serverContent message with
  | Some content =>
      match inputTranscription content with
      | Some transcription =>
          let current := concat_text (currentTurnTranscription h) (text transcription) in
          if turnComplete content then
            (set_turn h "",
             [onInterimTranscriptChange current]
               ++ (if truthy (trim current)
                   then [onTranscriptChunk (trim current ++ " ")] else [])
               ++ [clearInterimLater])%list
          else (set_turn h current, [onInterimTranscriptChange current])
      | None => (h, [])
      end
  | None => (h, [])
  end.

Definition onopen (h : Hook) : Hook :=
  {| isListening := isListening h; error := error h;
     sessionRef := sessionRef h; audioContextRef := audioContextRef h;
     scriptProcessorRef := true; mediaStreamSourceRef := true;
     currentTurnTranscription := currentTurnTranscription h |}.

Definition onaudioprocess (inputData : list Audio.sample) : list Effect :=
  [world (sendRealtimeInput (Audio.data (Audio.createBlob inputData)))].

Definition stopListening (h : Hook) : Hook * list Effect :=
  if negb (isListening h) then (h, [])
  else
    ({| isListening := false; error := error h; sessionRef := false;
        audioContextRef := false; scriptProcessorRef := false;
        mediaStreamSourceRef := false;
        currentTurnTranscription := currentTurnTranscription h |},
     (if scriptProcessorRef h then [world disconnectAudio] else [])
       ++ (if mediaStreamSourceRef h then [world disconnectAudio] else [])
       ++ (if audioContextRef h then [world closeAudioContext] else [])
       ++ (if sessionRef h then [world closeSession] else [])
       ++ [onInterimTranscriptChange ""])%list.

Definition not_started (message : Error) : option string :=
  Some ("Could not start transcription service: " ++ message).

(** [startListening].  The [stopListening] that its [catch] calls belongs
    to the same render as [startListening] itself, where [isListening] is
    false, so it returns at once: the [catch] only records the error. *)
Definition startListening (env : Env) (h : Hook) : Hook * list Effect :=
  if isListening h then (h, [])
  else if negb (has_key env) then
    (set_error h
       (not_started "API_KEY environment variable not set. Please select an API key."),
     [world (consoleError "Failed to start listening:")])
  else
    let started :=
      {| isListening := true; error := None; sessionRef := sessionRef h;
         audioContextRef := audioContextRef h;
         scriptProcessorRef := scriptProcessorRef h;
         mediaStreamSourceRef := mediaStreamSourceRef h;
         currentTurnTranscription := "" |} in
    match audioContext env with
    | Throw e =>
        (set_error started (not_started e),
         [world newGoogleGenAI; world (consoleError "Failed to start listening:")])
    | Ok _ =>
        let with_context :=
          {| isListening := true; error := None; sessionRef := sessionRef h;
             audioContextRef := true;
             scriptProcessorRef := scriptProcessorRef h;
             mediaStreamSourceRef := mediaStreamSourceRef h;
             currentTurnTranscription := "" |} in
        match connect env with
        | Throw e =>
            (set_error with_context (not_started e),
             [world newGoogleGenAI; world newAudioContext; world liveConnect;
              world (consoleError "Failed to start listening:")])
        | Ok _ =>
            ({| isListening := true; error := None; sessionRef := true;
                audioContextRef := true;
                scriptProcessorRef := scriptProcessorRef h;
                mediaStreamSourceRef := mediaStreamSourceRef h;
                currentTurnTranscription := "" |},
             [world newGoogleGenAI; world newAudioContext; world liveConnect])
        end
    end.

(** A message that carries a piece of transcription. *)
Definition transcript_message (piece : string) (complete : bool) : Message :=
  {| serverContent :=
       Some {| inputTranscription := Some {| text := Some piece |};
               turnComplete := complete |} |}.

(** A message that only says the turn is complete. *)
Definition bare_turn_complete : Message :=
  {| serverContent := Some {| inputTranscription := None; turnComplete := true |} |}.

(** [onerror] of the live session.  The [stopListening] it calls is the
    one [startListening] was made with, as in the [catch]: it returns at
    once, and the error is only recorded. *)
Definition onerror (h : Hook) : Hook * list Effect :=
  (set_error h (Some "A transcription error occurred. The connection was closed."),
   [world (consoleError "Gemini Live session error:")]).

(** [startListening] in two halves.  [connecting] is the hook when the
    call reaches its [await]: marked as listening, with the audio context,
    the connection not made yet.  [connected] is the assignment
    [sessionRef.current = await sessionPromise], which runs when the
    promise resolves, whatever was called in between; so does [onopen],
    a callback of the connection. *)
Definition connecting (h : Hook) : Hook :=
  {| isListening := true; error := None; sessionRef := sessionRef h;
     audioContextRef := true;
     scriptProcessorRef := scriptProcessorRef h;
     mediaStreamSourceRef := mediaStreamSourceRef h;
     currentTurnTranscription := "" |}.

Definition connected (h : Hook) : Hook :=
  {| isListening := isListening h; error := error h; sessionRef := true;
     audioContextRef := audioContextRef h;
     scriptProcessorRef := scriptProcessorRef h;
     mediaStreamSourceRef := mediaStreamSourceRef h;
     currentTurnTranscription := currentTurnTranscription h |}.

(** No resource is held: no session, no audio context, no audio nodes. *)
Definition holds_nothing (h : Hook) : bool :=
  negb (sessionRef h || audioContextRef h || scriptProcessorRef h
        || mediaStreamSourceRef h).

Definition is_close (e : Effect) : bool :=
  match e with
  | world closeSession => true
  | _ => false
  end.

Definition is_connect (e : Effect) : bool :=
  match e with
  | world liveConnect => true
  | _ => false
  end.

End Speech.

(* ===================================================================== *)
(** ** The data model: types.ts *)
(* ===================================================================== *)

(** A [Partial<Session>]: every field may be missing.  [sessionData] holds
    one, and a saved [Session] is one whose fields are all there. *)
Module Session.

Record session : Type := {
  id : option string;
  className : option string;
  subject : option string;
  startTime : option Z;
  endTime : option Z;
  notes : option string;
  summary : option string;
  focusHistory : option (list Focus.FocusDataPoint);
  lowFocusTimestamps : option (list Z);
  fullTranscript : option string
}.

(** The object [{}]. *)
Definition empty : session :=
  {| id := None; className := None; subject := None; startTime := None;
     endTime := None; notes := None; summary := None; focusHistory := None;
     lowFocusTimestamps := None; fullTranscript := None |}.

(** [{ ...s, className: c }]. *)
Definition with_className (s : session) (c : string) : session :=
  {| id := id s; className := Some c; subject := subject s;
     startTime := startTime s; endTime := endTime s; notes := notes s;
     summary := summary s; focusHistory := focusHistory s;
     lowFocusTimestamps := lowFocusTimestamps s;
     fullTranscript := fullTranscript s |}.

(** [s.subject = x]. *)
Definition with_subject (s : session) (x : string) : session :=
  {| id := id s; className := className s; subject := Some x;
     startTime := startTime s; endTime := endTime s; notes := notes s;
     summary := summary s; focusHistory := focusHistory s;
     lowFocusTimestamps := lowFocusTimestamps s;
     fullTranscript := fullTranscript s |}.

(** [{ ...s, notes: n, summary: m }], where [n] and [m] may be
    [undefined]. *)
Definition with_notes_summary (s : session) (n m : option string) : session :=
  {| id := id s; className := className s; subject := subject s;
     startTime := startTime s; endTime := endTime s; notes := n;
     summary := m; focusHistory := focusHistory s;
     lowFocusTimestamps := lowFocusTimestamps s;
     fullTranscript := fullTranscript s |}.

End Session.

Module RegisteredClass.

Record registered : Type := {
  id : string;
  name : string;
  sessions : list Session.session
}.

End RegisteredClass.

(** The five cells that [sessionStateRef] mirrors; also the shape of
    [sessionStateRef.current]. *)
Module Live.

Record cells : Type := {
  fullTranscript : string;
  interimTranscript : string;
  subject : string;
  focusHistory : list Focus.FocusDataPoint;
  lowFocusTimestamps : list Z
}.

Definition cleared : cells :=
  {| fullTranscript := ""; interimTranscript := ""; subject := "";
     focusHistory := []; lowFocusTimestamps := [] |}.

Definition with_fullTranscript (l : cells) (x : string) : cells :=
  {| fullTranscript := x; interimTranscript := interimTranscript l;
     subject := subject l; focusHistory := focusHistory l;
     lowFocusTimestamps := lowFocusTimestamps l |}.

Definition with_interimTranscript (l : cells) (x : string) : cells :=
  {| fullTranscript := fullTranscript l; interimTranscript := x;
     subject := subject l; focusHistory := focusHistory l;
     lowFocusTimestamps := lowFocusTimestamps l |}.

Definition with_focusHistory (l : cells) (x : list Focus.FocusDataPoint) : cells :=
  {| fullTranscript := fullTranscript l;
     interimTranscript := interimTranscript l;
     subject := subject l; focusHistory := x;
     lowFocusTimestamps := lowFocusTimestamps l |}.

Definition with_lowFocusTimestamps (l : cells) (x : list Z) : cells :=
  {| fullTranscript := fullTranscript l;
     interimTranscript := interimTranscript l;
     subject := subject l; focusHistory := focusHistory l;
     lowFocusTimestamps := x |}.

End Live.

(* ===================================================================== *)
(** ** ClassLibrary: the class handlers of App.tsx *)
(* ===================================================================== *)

Module Library.

Import JsString.
Open Scope string_scope.

(** The cells of the class library and the item it keeps in local
    storage under ['sharplearn-classes']. *)
Record library : Type := {
  registeredClasses : list RegisteredClass.registered;
  newClassName : string;
  viewingClassId : option string;
  stored : option (list RegisteredClass.registered)
}.

Definition no_classes : library :=
  {| registeredClasses := []; newClassName := ""; viewingClassId := None;
     stored := None |}.

(** What a handler reports besides the new library. *)
Inductive Outcome : Type :=
| refused (alert : string)    (* nothing written, the user is told why *)
| written.                    (* the collection is replaced and stored *)

Definition handleAddClass (now : Z) (lib : library) : library * Outcome :=
  if negb (truthy (trim (newClassName lib))) then
    (lib, refused "Please provide a name for the class.")
  else
    let newClass :=
      {| RegisteredClass.id := toString now;
         RegisteredClass.name := trim (newClassName lib);
         RegisteredClass.sessions := [] |} in
    let updatedClasses := (registeredClasses lib ++ [newClass])%list in
    ({| registeredClasses := updatedClasses; newClassName := "";
        viewingClassId := viewingClassId lib;
        stored := Some updatedClasses |}, written).

Definition same_id (a : option string) (b : string) : bool :=
  match a with Some x => String.eqb x b | None => false end.

Definition handleDeleteClass (id : string) (lib : library) : library * Outcome :=
  let updatedClasses :=
    filter (fun c => negb (String.eqb (RegisteredClass.id c) id))
      (registeredClasses lib) in
  ({| registeredClasses := updatedClasses; newClassName := newClassName lib;
      viewingClassId :=
        if same_id (viewingClassId lib) id then None else viewingClassId lib;
      stored := Some updatedClasses |}, written).

(** [c.name.toLowerCase() === targetClassName.toLowerCase()]. *)
Definition name_matches (targetClassName : string) (c : RegisteredClass.registered) : bool :=
  String.eqb (toLowerCase (RegisteredClass.name c)) (toLowerCase targetClassName).

(** [{ ...cls, sessions: [...cls.sessions, { ...sessionToSave, className: cls.name }] }]. *)
Definition add_session (sessionToSave : Session.session) (cls : RegisteredClass.registered)
  : RegisteredClass.registered :=
  {| RegisteredClass.id := RegisteredClass.id cls;
     RegisteredClass.name := RegisteredClass.name cls;
     RegisteredClass.sessions :=
       (RegisteredClass.sessions cls
          ++ [Session.with_className sessionToSave (RegisteredClass.name cls)])%list |}.

(** The collection [handleSaveSession] computes for a class name that is
    there and not empty. *)
Definition save_into (now : Z) (sessionToSave : Session.session) (targetClassName : string)
    (classes : list RegisteredClass.registered) : list RegisteredClass.registered :=
  match find (name_matches targetClassName) classes with
  | Some targetClass =>
      map (fun cls =>
             if String.eqb (RegisteredClass.id cls) (RegisteredClass.id targetClass)
             then add_session sessionToSave cls
             else cls)
          classes
  | None =>
      let newClass :=
        {| RegisteredClass.id := toString now;
           RegisteredClass.name := targetClassName;
           RegisteredClass.sessions :=
             [Session.with_className sessionToSave targetClassName] |} in
      (classes ++ [newClass])%list
  end.

(** [handleSaveSession]; in both outcomes the caller goes back to the
    setup screen. *)
Definition handleSaveSession (now : Z) (sessionToSave : Session.session) (lib : library)
  : library * Outcome :=
  match Session.className sessionToSave with
  | None => (lib, refused "Cannot save session: Class name is missing.")
  | Some targetClassName =>
      if negb (truthy targetClassName) then
        (lib, refused "Cannot save session: Class name is missing.")
      else
        let updatedClasses :=
          save_into now sessionToSave targetClassName (registeredClasses lib) in
        ({| registeredClasses := updatedClasses;
            newClassName := newClassName lib;
            viewingClassId := None;
            stored := Some updatedClasses |}, written)
  end.

(** The operations of the library, with what each one reads from outside
    the library. *)
Inductive Op : Type :=
| AddClass (typed : string) (now : Z)     (* the name field, then the button *)
| DeleteClass (id : string)
| SaveSession (now : Z) (session : Session.session).

Definition type_name (typed : string) (lib : library) : library :=
  {| registeredClasses := registeredClasses lib; newClassName := typed;
     viewingClassId := viewingClassId lib; stored := stored lib |}.

Definition apply (op : Op) (lib : library) : library :=
  match op with
  | AddClass typed now => fst (handleAddClass now (type_name typed lib))
  | DeleteClass id => fst (handleDeleteClass id lib)
  | SaveSession now session => fst (handleSaveSession now session lib)
  end.

Definition run (ops : list Op) (lib : library) : library :=
  fold_left (fun l op => apply op l) ops lib.

(** Every session kept in a class carries the name of that class. *)
Definition names_agree (classes : list RegisteredClass.registered) : Prop :=
  forall c s, In c classes -> In s (RegisteredClass.sessions c) ->
              Session.className s = Some (RegisteredClass.name c).

(** The times at which an operation may create a class. *)
Definition creation_time (op : Op) : list Z :=
  match op with
  | AddClass _ now => [now]
  | DeleteClass _ => []
  | SaveSession now _ => [now]
  end.

Definition creation_times (ops : list Op) : list Z := flat_map creation_time ops.

(** The operation does not delete the class of this id. *)
Definition spares (op : Op) (id : string) : Prop :=
  match op with
  | DeleteClass deleted => deleted <> id
  | _ => True
  end.

(** The class has a name. *)
Definition named (c : RegisteredClass.registered) : Prop :=
  RegisteredClass.name c <> "".

(** The ids of a collection. *)
Definition ids (classes : list RegisteredClass.registered) : list string :=
  map RegisteredClass.id classes.

(** The ids are distinct and each is the print of a time seen so far. *)
Definition ids_from (seen : list Z) (classes : list RegisteredClass.registered) : Prop :=
  NoDup (ids classes)
  /\ forall c, In c classes -> exists t, In t seen /\ RegisteredClass.id c = toString t.

End Library.

(* ===================================================================== *)
(** ** SessionOrchestrator: the App component *)
(* ===================================================================== *)

Module App.

Import World JsString.
Open Scope string_scope.
Open Scope result_scope.

Inductive AppState : Type := SETUP | ACTIVE | SUMMARY | LOADING.

Record FocusAlert : Type := { show : bool; message : string; title : string }.

Record State : Type := {
  appState : AppState;
  sessionData : Session.session;
  library : Library.library;
  live : Live.cells;                     (* subject, transcripts, focus cells *)
  isSubjectLoading : bool;
  isViewingSavedSummary : bool;
  focusAlert : FocusAlert;
  isApiKeySelected : option bool;
  mediaStreamRef : option MediaStream;
  sessionStateRef : Live.cells;
  speech : Speech.Hook;
  tracker : Focus.Tracker            (* the mounted FocusTracker *)
}.

Definition initial : State :=
  {| appState := SETUP; sessionData := Session.empty;
     library := Library.no_classes; live := Live.cleared;
     isSubjectLoading := false; isViewingSavedSummary := false;
     focusAlert := {| show := false; message := ""; title := "" |};
     isApiKeySelected := None; mediaStreamRef := None;
     sessionStateRef := Live.cleared; speech := Speech.fresh;
     tracker := Focus.mount |}.

Definition with_appState (s : State) (x : AppState) : State :=
  {| appState := x; sessionData := sessionData s; library := library s;
     live := live s; isSubjectLoading := isSubjectLoading s;
     isViewingSavedSummary := isViewingSavedSummary s;
     focusAlert := focusAlert s; isApiKeySelected := isApiKeySelected s;
     mediaStreamRef := mediaStreamRef s;
     sessionStateRef := sessionStateRef s; speech := speech s;
     tracker := tracker s |}.

Definition with_sessionData (s : State) (x : Session.session) : State :=
  {| appState := appState s; sessionData := x; library := library s;
     live := live s; isSubjectLoading := isSubjectLoading s;
     isViewingSavedSummary := isViewingSavedSummary s;
     focusAlert := focusAlert s; isApiKeySelected := isApiKeySelected s;
     mediaStreamRef := mediaStreamRef s;
     sessionStateRef := sessionStateRef s; speech := speech s;
     tracker := tracker s |}.

Definition with_library (s : State) (x : Library.library) : State :=
  {| appState := appState s; sessionData := sessionData s; library := x;
     live := live s; isSubjectLoading := isSubjectLoading s;
     isViewingSavedSummary := isViewingSavedSummary s;
     focusAlert := focusAlert s; isApiKeySelected := isApiKeySelected s;
     mediaStreamRef := mediaStreamRef s;
     sessionStateRef := sessionStateRef s; speech := speech s;
     tracker := tracker s |}.

Definition with_live (s : State) (x : Live.cells) : State :=
  {| appState := appState s; sessionData := sessionData s;
     library := library s; live := x;
     isSubjectLoading := isSubjectLoading s;
     isViewingSavedSummary := isViewingSavedSummary s;
     focusAlert := focusAlert s; isApiKeySelected := isApiKeySelected s;
     mediaStreamRef := mediaStreamRef s;
     sessionStateRef := sessionStateRef s; speech := speech s;
     tracker := tracker s |}.

Definition with_focusAlert (s : State) (x : FocusAlert) : State :=
  {| appState := appState s; sessionData := sessionData s;
     library := library s; live := live s;
     isSubjectLoading := isSubjectLoading s;
     isViewingSavedSummary := isViewingSavedSummary s;
     focusAlert := x; isApiKeySelected := isApiKeySelected s;
     mediaStreamRef := mediaStreamRef s;
     sessionStateRef := sessionStateRef s; speech := speech s;
     tracker := tracker s |}.

Definition with_isApiKeySelected (s : State) (x : option bool) : State :=
  {| appState := appState s; sessionData := sessionData s;
     library := library s; live := live s;
     isSubjectLoading := isSubjectLoading s;
     isViewingSavedSummary := isViewingSavedSummary s;
     focusAlert := focusAlert s; isApiKeySelected := x;
     mediaStreamRef := mediaStreamRef s;
     sessionStateRef := sessionStateRef s; speech := speech s;
     tracker := tracker s |}.

Definition with_mediaStreamRef (s : State) (x : option MediaStream) : State :=
  {| appState := appState s; sessionData := sessionData s;
     library := library s; live := live s;
     isSubjectLoading := isSubjectLoading s;
     isViewingSavedSummary := isViewingSavedSummary s;
     focusAlert := focusAlert s; isApiKeySelected := isApiKeySelected s;
     mediaStreamRef := x;
     sessionStateRef := sessionStateRef s; speech := speech s;
     tracker := tracker s |}.

Definition with_speech (s : State) (x : Speech.Hook) : State :=
  {| appState := appState s; sessionData := sessionData s;
     library := library s; live := live s;
     isSubjectLoading := isSubjectLoading s;
     isViewingSavedSummary := isViewingSavedSummary s;
     focusAlert := focusAlert s; isApiKeySelected := isApiKeySelected s;
     mediaStreamRef := mediaStreamRef s;
     sessionStateRef := sessionStateRef s; speech := x;
     tracker := tracker s |}.

Definition with_tracker (s : State) (x : Focus.Tracker) : State :=
  {| appState := appState s; sessionData := sessionData s;
     library := library s; live := live s;
     isSubjectLoading := isSubjectLoading s;
     isViewingSavedSummary := isViewingSavedSummary s;
     focusAlert := focusAlert s; isApiKeySelected := isApiKeySelected s;
     mediaStreamRef := mediaStreamRef s;
     sessionStateRef := sessionStateRef s; speech := speech s;
     tracker := x |}.

(** The effect that copies the five cells into [sessionStateRef] after a
    render in which one of them changed. *)
Definition mirror (s : State) : State :=
  {| appState := appState s; sessionData := sessionData s;
     library := library s; live := live s;
     isSubjectLoading := isSubjectLoading s;
     isViewingSavedSummary := isViewingSavedSummary s;
     focusAlert := focusAlert s; isApiKeySelected := isApiKeySelected s;
     mediaStreamRef := mediaStreamRef s;
     sessionStateRef := live s; speech := speech s;
     tracker := tracker s |}.

(** [handleTranscriptChunk]: [setFullTranscript(prev => prev + chunk)]. *)
Definition handleTranscriptChunk (chunk : string) (s : State) : State :=
  with_live s (Live.with_fullTranscript (live s) (Live.fullTranscript (live s) ++ chunk)).

Definition setInterimTranscript (transcript : string) (s : State) : State :=
  with_live s (Live.with_interimTranscript (live s) transcript).

(** The effects of the hook, as the component receives them. *)
Definition receive (e : Speech.Effect) (s : State) : State * list Action :=
  match e with
  | Speech.onTranscriptChunk chunk => (handleTranscriptChunk chunk s, [])
  | Speech.onInterimTranscriptChange transcript =>
      (setInterimTranscript transcript s, [])
  | Speech.clearInterimLater => (s, [setTimeout 100])
  | Speech.world a => (s, [a])
  end.

Fixpoint receive_all (es : list Speech.Effect) (s : State) : State * list Action :=
  match es with
  | [] => (s, [])
  | e :: rest =>
      let (s1, a1) := receive e s in
      let (s2, a2) := receive_all rest s1 in
      (s2, (a1 ++ a2)%list)
  end.

(** A message of the live session arrives: [onmessage] of the hook runs
    and the component receives its effects. *)
Definition receive_message (message : Speech.Message) (s : State) : State * list Action :=
  let (h, effects) := Speech.onmessage (speech s) message in
  receive_all effects (with_speech s h).

(** The deferred [onInterimTranscriptChange('')] fires. *)
Definition interimClearTimer (s : State) : State := setInterimTranscript "" s.

(** [stopListening] as a closure sees it: the guard reads the
    [isListening] of the render the closure was made in. *)
Definition stopListening_of (closure_isListening : bool) (s : State)
  : State * list Action :=
  if negb closure_isListening then (s, [])
  else
    let (h, effects) :=
      Speech.stopListening
        {| Speech.isListening := true; Speech.error := Speech.error (speech s);
           Speech.sessionRef := Speech.sessionRef (speech s);
           Speech.audioContextRef := Speech.audioContextRef (speech s);
           Speech.scriptProcessorRef := Speech.scriptProcessorRef (speech s);
           Speech.mediaStreamSourceRef := Speech.mediaStreamSourceRef (speech s);
           Speech.currentTurnTranscription :=
             Speech.currentTurnTranscription (speech s) |} in
    receive_all effects (with_speech s h).

(** [stopListening] of the current render, called by [endSession]. *)
Definition stopListening_now (s : State) : State * list Action :=
  stopListening_of (Speech.isListening (speech s)) s.

(** The tracks of the held stream are stopped and the ref is cleared. *)
Definition releaseMedia (s : State) : State * list Action :=
  match mediaStreamRef s with
  | Some stream => (with_mediaStreamRef s None, [stopTracks stream])
  | None => (s, [])
  end.

Definition is_active (a : AppState) : bool :=
  match a with ACTIVE => true | _ => false end.

(** The two messages [handleApiError] takes for a bad credential. *)
Definition is_auth_error (message : Error) : bool :=
  includes "Requested entity was not found" message
  || includes "API key not valid" message.

(** [handleApiError]; [closure_appState] and [closure_isListening] are the
    values the callback and the [stopListening] it holds were made with. *)
Definition handleApiError (closure_appState : AppState) (closure_isListening : bool)
    (err : Error) (s : State) : State * list Action :=
  if is_auth_error err then
    let s1 := with_isApiKeySelected s (Some false) in
    let said :=
      [alert "The selected API key appears to be invalid. Please select another key to continue."] in
    if is_active closure_appState then
      let (s2, a2) := stopListening_of closure_isListening s1 in
      let (s3, a3) := releaseMedia s2 in
      (with_appState s3 SETUP, (said ++ a2 ++ a3)%list)
    else (s1, said)
  else (s, []).

(** [checkApiKey]: the answer of [window.aistudio.hasSelectedApiKey()],
    [true] where there is no [window.aistudio], [false] when asking
    throws. *)
Definition checkApiKey (aistudio : option (Result bool)) (s : State) : State :=
  with_isApiKeySelected s
    (Some match aistudio with
          | None => true
          | Some (Ok hasKey) => hasKey
          | Some (Throw _) => false
          end).

(** The screens with the start buttons are rendered only once the key is
    taken as selected. *)
Definition setup_screen_shown (s : State) : bool :=
  match isApiKeySelected s, appState s with
  | Some true, SETUP => true
  | _, _ => false
  end.

(** The session record both start handlers write. *)
Definition fresh_session (now_id now_start : Z) (className : string) : Session.session :=
  {| Session.id := Some (toString now_id);
     Session.className := Some className;
     Session.subject := Some "";
     Session.startTime := Some now_start;
     Session.endTime := None; Session.notes := None; Session.summary := None;
     Session.focusHistory := None; Session.lowFocusTimestamps := None;
     Session.fullTranscript := None |}.

(** The body [startSession] and [startQuickSession] share: the devices
    first, then the cells, then [startListening]. *)
Definition start_with (env : Env) (now_id now_start : Z) (className : string)
    (s : State) : State * list Action :=
  match mediaDevices env with
  | Throw e =>
      (s, [getUserMedia;
           alert ("Could not start session. Please ensure camera and microphone access are allowed. Error: " ++ e)])
  | Ok stream =>
      let s1 :=
        {| appState := ACTIVE;
           sessionData := fresh_session now_id now_start className;
           library := library s; live := Live.cleared;
           isSubjectLoading := isSubjectLoading s;
           isViewingSavedSummary := false;
           focusAlert := focusAlert s;
           isApiKeySelected := isApiKeySelected s;
           mediaStreamRef := Some stream;
           sessionStateRef := sessionStateRef s;
           speech := speech s;
           tracker := Focus.mount |} in
      let (h, effects) := Speech.startListening env (speech s1) in
      let (s2, actions) := receive_all effects (with_speech s1 h) in
      (s2, getUserMedia :: actions)
  end.

Definition startSession (env : Env) (now_id now_start : Z) (cls : RegisteredClass.registered)
    (s : State) : State * list Action :=
  start_with env now_id now_start (RegisteredClass.name cls) s.

Definition startQuickSession (env : Env) (now_id now_start : Z) (s : State)
  : State * list Action :=
  start_with env now_id now_start "Quick Record" s.

(** The effect on the [error] of the hook: a non-empty message goes to
    [handleApiError]. *)
Definition errorEffect (closure_appState : AppState) (closure_isListening : bool)
    (s : State) : State * list Action :=
  match Speech.error (speech s) with
  | Some message =>
      if truthy message
      then handleApiError closure_appState closure_isListening message s
      else (s, [])
  | None => (s, [])
  end.

(** [(finalTranscriptChunks + ' ' + lastInterimChunk).trim()]. *)
Definition finalTranscript_of (ref : Live.cells) : string :=
  trim (Live.fullTranscript ref ++ " " ++ Live.interimTranscript ref).

Definition is_quick_record (d : Session.session) : bool :=
  match Session.className d with
  | Some c => String.eqb c "Quick Record"
  | None => false
  end.

(** [!finalSubject || finalSubject === "Unknown" || finalSubject === "Not detected"]. *)
Definition subject_missing (finalSubject : string) : bool :=
  negb (truthy finalSubject) || String.eqb finalSubject "Unknown"
  || String.eqb finalSubject "Not detected".

Definition subject_text (d : Session.session) : string :=
  match Session.subject d with Some x => x | None => "" end.

(** The object [finalSessionData] before the [try]. *)
Definition sealed (sessionData : Session.session) (now : Z) (ref : Live.cells) : Session.session :=
  {| Session.id := Session.id sessionData;
     Session.className := Session.className sessionData;
     Session.subject := Some (or_else (Live.subject ref) "Not detected");
     Session.startTime := Session.startTime sessionData;
     Session.endTime := Some now;
     Session.notes := Session.notes sessionData;
     Session.summary := Session.summary sessionData;
     Session.focusHistory := Some (Live.focusHistory ref);
     Session.lowFocusTimestamps := Some (Live.lowFocusTimestamps ref);
     Session.fullTranscript := Some (finalTranscript_of ref) |}.

(** The first step of the [try]: class name and subject of a quick
    recording. *)
Definition name_and_subject (env : Env) (sessionData finalSessionData : Session.session)
    (finalTranscript finalSubject : string) : Result Session.session :=
  if is_quick_record sessionData && (50 <? String.length (trim finalTranscript))%nat
  then
    generatedClassName <- Gemini.generateClassNameFromTranscript env finalTranscript ;;
    let named := Session.with_className finalSessionData generatedClassName in
    if subject_missing finalSubject
    then identified <- Gemini.identifySubject env finalTranscript ;;
         Ok (Session.with_subject named identified)
    else Ok named
  else Ok finalSessionData.

(** The body of the [try] of [endSession]: the value handed to
    [setSessionData], or what was thrown on the way. *)
Definition finalize (env : Env) (sessionData finalSessionData : Session.session)
    (finalTranscript finalSubject : string) : Result Session.session :=
  resolved <- name_and_subject env sessionData finalSessionData
                finalTranscript finalSubject ;;
  finalNotes <- Gemini.structureNotes env finalTranscript ;;
  finalSummary <- Gemini.generateFinalSummary env finalTranscript
                    (subject_text resolved) ;;
  Ok (Session.with_notes_summary resolved finalNotes finalSummary).

(** [endSession].  The ref is read after [stopListening] was called, but
    before any render: it still holds what it held when the handler
    started.  [closure_isListening] is what the [stopListening] inside
    [handleApiError] was made with. *)
Definition endSession (env : Env) (now : Z) (closure_isListening : bool) (s : State)
  : State * list Action :=
  let (s1, a1) := stopListening_now s in
  let (s2, a2) := releaseMedia s1 in
  let s3 := with_appState s2 LOADING in
  let ref := sessionStateRef s in
  let finalTranscript := finalTranscript_of ref in
  let finalSubject := Live.subject ref in
  let finalSessionData := sealed (sessionData s) now ref in
  match finalize env (sessionData s) finalSessionData finalTranscript finalSubject with
  | Ok populated =>
      (with_appState (with_sessionData s3 populated) SUMMARY, (a1 ++ a2)%list)
  | Throw err =>
      let (s4, a4) := handleApiError (appState s) closure_isListening err s3 in
      (with_appState s4 SETUP, (a1 ++ a2 ++ a4)%list)
  end.

Definition handleLowFocus (timestamp : Z) (score : Q) (s : State)
  : State * list Action :=
  let shown :=
    if Focus.is_zero score
    then {| show := true; title := "Are you there?";
            message := "You seem to be out of the camera frame." |}
    else {| show := true; title := "Losing focus?";
            message := "Take a moment. You can review this part later." |} in
  let s1 := with_focusAlert s shown in
  (with_live s1
     (Live.with_lowFocusTimestamps (live s1)
        (Live.lowFocusTimestamps (live s1) ++ [timestamp])%list),
   [setTimeout 5000]).

(** The calls of the tracker, as the component receives them. *)
Definition tracker_call (closure_isListening : bool) (c : Focus.Call) (s : State)
  : State * list Action :=
  match c with
  | Focus.onFocusUpdate dataPoint =>
      (with_live s
         (Live.with_focusHistory (live s)
            (Live.focusHistory (live s) ++ [dataPoint])%list), [])
  | Focus.onLowFocus timestamp score => handleLowFocus timestamp score s
  | Focus.sendFocusAlertToTeacher className => (s, [postWebhook className])
  | Focus.onApiError err => handleApiError ACTIVE closure_isListening err s
  end.

Fixpoint tracker_calls (closure_isListening : bool) (cs : list Focus.Call) (s : State)
  : State * list Action :=
  match cs with
  | [] => (s, [])
  | c :: rest =>
      let (s1, a1) := tracker_call closure_isListening c s in
      let (s2, a2) := tracker_calls closure_isListening rest s1 in
      (s2, (a1 ++ a2)%list)
  end.

(** [sessionData.className || 'Unknown Class'], the prop of the tracker. *)
Definition tracker_className (s : State) : string :=
  match Session.className (sessionData s) with
  | Some c => or_else c "Unknown Class"
  | None => "Unknown Class"
  end.

(** The sampling interval fires.  The tracker is mounted, with a stream,
    only on the screen of an active session. *)
Definition focusTick (closure_isListening : bool) (k : Focus.Tick)
    (s : State) : State * list Action :=
  match appState s, mediaStreamRef s with
  | ACTIVE, Some _ =>
      let (t, calls) := Focus.analyzeFrame (tracker_className s) (tracker s) k in
      tracker_calls closure_isListening calls (with_tracker s t)
  | _, _ => (s, [])
  end.

(** The messages of the live session, delivered in order. *)
Definition deliver (messages : list Speech.Message) (s : State) : State :=
  fold_left (fun st m => fst (receive_message m st)) messages s.

(** The messages of one turn: its pieces, the last one flagged as
    completing the turn. *)
Definition turn (pieces : list string) (last : string) : list Speech.Message :=
  (map (fun p => Speech.transcript_message p false) pieces
     ++ [Speech.transcript_message last true])%list.


Definition handleDiscardSession (s : State) : State :=
  with_library (with_appState s SETUP)
    {| Library.registeredClasses := Library.registeredClasses (library s);
       Library.newClassName := Library.newClassName (library s);
       Library.viewingClassId := None;
       Library.stored := Library.stored (library s) |}.

Definition with_isViewingSavedSummary (s : State) (x : bool) : State :=
  {| appState := appState s; sessionData := sessionData s;
     library := library s; live := live s;
     isSubjectLoading := isSubjectLoading s;
     isViewingSavedSummary := x;
     focusAlert := focusAlert s; isApiKeySelected := isApiKeySelected s;
     mediaStreamRef := mediaStreamRef s;
     sessionStateRef := sessionStateRef s; speech := speech s;
     tracker := tracker s |}.

Definition with_isSubjectLoading (s : State) (x : bool) : State :=
  {| appState := appState s; sessionData := sessionData s;
     library := library s; live := live s;
     isSubjectLoading := x;
     isViewingSavedSummary := isViewingSavedSummary s;
     focusAlert := focusAlert s; isApiKeySelected := isApiKeySelected s;
     mediaStreamRef := mediaStreamRef s;
     sessionStateRef := sessionStateRef s; speech := speech s;
     tracker := tracker s |}.

Definition viewSavedSession (session : Session.session) (s : State) : State :=
  with_appState (with_isViewingSavedSummary (with_sessionData s session) true) SUMMARY.

Definition setSubject (subject : string) (s : State) : State :=
  with_live s
    {| Live.fullTranscript := Live.fullTranscript (live s);
       Live.interimTranscript := Live.interimTranscript (live s);
       Live.subject := subject;
       Live.focusHistory := Live.focusHistory (live s);
       Live.lowFocusTimestamps := Live.lowFocusTimestamps (live s) |}.

(** The guard of [processTranscriptPeriodically]: no subject in the ref,
    no detection in flight, more than 200 code units committed in the
    ref. *)
Definition detection_due (s : State) : bool :=
  negb (truthy (Live.subject (sessionStateRef s)))
  && negb (isSubjectLoading s)
  && (200 <? String.length (Live.fullTranscript (sessionStateRef s)))%nat.

(** [processTranscriptPeriodically] up to its [await]: the transcript it
    sends, if the guard lets it, and the state with the detection marked
    as in flight. *)
Definition detection_begin (s : State) : option string * State :=
  if detection_due s
  then (Some (Live.fullTranscript (sessionStateRef s)), with_isSubjectLoading s true)
  else (None, s).

(** [processTranscriptPeriodically] from its [await] on: the subject is
    set or the error handled, and the detection is no longer in flight. *)
Definition detection_end (closure_appState : AppState) (closure_isListening : bool)
    (identified : Result string) (s : State) : State * list Action :=
  match identified with
  | Ok identifiedSubject =>
      (with_isSubjectLoading (setSubject identifiedSubject s) false, [])
  | Throw err =>
      let (s1, a1) := handleApiError closure_appState closure_isListening err s in
      (with_isSubjectLoading s1 false, (consoleError "Error identifying subject:" :: a1))
  end.

(** [processTranscriptPeriodically] with nothing happening during its
    [await]. *)
Definition processTranscriptPeriodically (env : Env) (closure_isListening : bool)
    (s : State) : State * list Action :=
  match detection_begin s with
  | (Some transcript, s1) =>
      detection_end (appState s) closure_isListening
        (Gemini.identifySubject env transcript) s1
  | (None, _) => (s, [])
  end.

(** The live session reports an error: [onerror] of the hook, then the
    effect on the [error] of the hook. *)
Definition channelError (closure_isListening : bool) (s : State)
  : State * list Action :=
  let (h, effects) := Speech.onerror (speech s) in
  let (s1, a1) := receive_all effects (with_speech s h) in
  let (s2, a2) := errorEffect (appState s) closure_isListening s1 in
  (s2, (a1 ++ a2)%list).

(** What happens during a session, between its start and its end.  The
    subject timer runs while the hook is listening. *)
Inductive Event : Type :=
| Message (message : Speech.Message)
| InterimTimer
| FocusTick (closure_isListening : bool) (k : Focus.Tick)
| SubjectTimer (closure_isListening : bool)
| ChannelError (closure_isListening : bool)
| Render.

Definition step (env : Env) (e : Event) (s : State) : State * list Action :=
  match e with
  | Message message => receive_message message s
  | InterimTimer => (interimClearTimer s, [])
  | FocusTick c k => focusTick c k s
  | SubjectTimer c =>
      if Speech.isListening (speech s)
      then processTranscriptPeriodically env c s
      else (s, [])
  | ChannelError c => channelError c s
  | Render => (mirror s, [])
  end.

Fixpoint run (env : Env) (es : list Event) (s : State) : State * list Action :=
  match es with
  | [] => (s, [])
  | e :: rest =>
      let (s1, a1) := step env e s in
      let (s2, a2) := run env rest s1 in
      (s2, (a1 ++ a2)%list)
  end.

(** A committed transcript as the turns build it: empty, or with
    something else than white space in front. *)
Definition solid (text : string) : bool :=
  match text with
  | EmptyString => true
  | String c _ => negb (is_ws c)
  end.

Definition is_stopTracks (a : Action) : bool :=
  match a with
  | stopTracks _ => true
  | _ => false
  end.

(** Every low-focus mark is the time of a recorded sample below 60. *)
Definition marks_recorded (l : Live.cells) : Prop :=
  forall t, In t (Live.lowFocusTimestamps l) ->
            exists p, In p (Live.focusHistory l)
                      /\ Focus.timestamp p = t
                      /\ Focus.below (Focus.score p) 60 = true.

(** The three accumulators of a session have only been added to. *)
Definition grows (l l' : Live.cells) : Prop :=
  exists t h m,
    Live.fullTranscript l' = Live.fullTranscript l ++ t
    /\ Live.focusHistory l' = (Live.focusHistory l ++ h)%list
    /\ Live.lowFocusTimestamps l' = (Live.lowFocusTimestamps l ++ m)%list.

(** The ways the five cells change during a session: the interim text is
    replaced, a finished turn is committed, a sample is recorded, a
    recorded low sample is marked, the subject is set. *)
Inductive change : Live.cells -> Live.cells -> Prop :=
| change_none l : change l l
| change_interim l x : change l (Live.with_interimTranscript l x)
| change_commit l x :
    truthy (trim x) = true ->
    change l (Live.with_fullTranscript l (Live.fullTranscript l ++ trim x ++ " "))
| change_sample l p :
    change l (Live.with_focusHistory l (Live.focusHistory l ++ [p])%list)
| change_mark l p :
    In p (Live.focusHistory l) ->
    Focus.below (Focus.score p) 60 = true ->
    change l (Live.with_lowFocusTimestamps l
                (Live.lowFocusTimestamps l ++ [Focus.timestamp p])%list)
| change_subject l x :
    change l {| Live.fullTranscript := Live.fullTranscript l;
                Live.interimTranscript := Live.interimTranscript l;
                Live.subject := x;
                Live.focusHistory := Live.focusHistory l;
                Live.lowFocusTimestamps := Live.lowFocusTimestamps l |}
| change_then l1 l2 l3 : change l1 l2 -> change l2 l3 -> change l1 l3.

(** A chunk as [onmessage] commits it. *)
Definition committed_chunk (e : Speech.Effect) : Prop :=
  match e with
  | Speech.onTranscriptChunk chunk =>
      exists x, chunk = trim x ++ " " /\ truthy (trim x) = true
  | _ => True
  end.


End App.

(* ===================================================================== *)
(** ** The quiz: components/Quiz and SessionSummary.handleGenerateQuiz *)
(* ===================================================================== *)

Module Quiz.

Import Gemini.
Open Scope string_scope.

(** The four [useState] cells of the component. *)
Record State : Type := {
  currentQuestionIndex : nat;
  selectedAnswer : option string;
  score : nat;
  showResults : bool
}.

Definition mount : State :=
  {| currentQuestionIndex := 0; selectedAnswer := None; score := 0;
     showResults := false |}.

(** [questions[currentQuestionIndex]]: [None] is [undefined]. *)
Definition currentQuestion (questions : list QuizQuestion) (s : State)
  : option QuizQuestion :=
  nth_error questions (currentQuestionIndex s).

Definition isAnswered (s : State) : bool :=
  match selectedAnswer s with Some _ => true | None => false end.

(** [handleAnswerSelect].  [None]: reading [correctAnswer] of an undefined
    question throws.  [picked] is the handler's [option]. *)
Definition handleAnswerSelect (questions : list QuizQuestion)
    (picked : string) (s : State) : option State :=
  if isAnswered s then Some s
  else match currentQuestion questions s with
       | None => None
       | Some q =>
           Some {| currentQuestionIndex := currentQuestionIndex s;
                   selectedAnswer := Some picked;
                   score := if String.eqb picked (correctAnswer q)
                            then score s + 1 else score s;
                   showResults := showResults s |}
       end.

(** [handleNextQuestion]: the comparison is with [questions.length - 1],
    which is [-1] for an empty array. *)
Definition handleNextQuestion (questions : list QuizQuestion) (s : State)
  : State :=
  if (Z.of_nat (currentQuestionIndex s)
      <? Z.of_nat (List.length questions) - 1)%Z
  then {| currentQuestionIndex := currentQuestionIndex s + 1;
          selectedAnswer := None;
          score := score s;
          showResults := showResults s |}
  else {| currentQuestionIndex := currentQuestionIndex s;
          selectedAnswer := selectedAnswer s;
          score := score s;
          showResults := true |}.

Definition handleRestart (_ : State) : State :=
  {| currentQuestionIndex := 0; selectedAnswer := None; score := 0;
     showResults := false |}.

(** The body of the component up to its [return]: [isCorrect] reads the
    current question when an answer is selected, the question view reads
    it always, the results view does not. *)
Definition renders (questions : list QuizQuestion) (s : State) : bool :=
  match currentQuestion questions s with
  | Some _ => true
  | None => negb (isAnswered s) && showResults s
  end.

(** The handlers the buttons call. *)
Inductive Click : Type :=
  | Answer (picked : string)
  | Next
  | TryAgain.

Definition click (questions : list QuizQuestion) (c : Click) (s : State)
  : option State :=
  match c with
  | Answer picked => handleAnswerSelect questions picked s
  | Next => Some (handleNextQuestion questions s)
  | TryAgain => Some (handleRestart s)
  end.

Fixpoint clicks (questions : list QuizQuestion) (cs : list Click) (s : State)
  : option State :=
  match cs with
  | [] => Some s
  | c :: rest =>
      match click questions c s with
      | Some s' => clicks questions rest s'
      | None => None
      end
  end.

(** One question of a sitting: the option clicked first, the options
    clicked after it, then the button under the explanation. *)
Definition sitting (turn : string * list string) : list Click :=
  Answer (fst turn) :: map Answer (snd turn) ++ [Next].

Definition play (turns : list (string * list string)) : list Click :=
  flat_map sitting turns.

(** How many first clicks hit the correct answer of their question. *)
Fixpoint marks (questions : list QuizQuestion)
    (turns : list (string * list string)) : nat :=
  match questions, turns with
  | q :: questions', t :: turns' =>
      (if String.eqb (fst t) (correctAnswer q) then 1 else 0)
      + marks questions' turns'
  | _, _ => 0
  end.

(** What every handler keeps: the index is one of the array, and the score
    counts at most the questions answered so far. *)
Definition in_bounds (questions : list QuizQuestion) (s : State) : Prop :=
  (currentQuestionIndex s < List.length questions)%nat
  /\ (score s <= currentQuestionIndex s + (if isAnswered s then 1 else 0))%nat.

End Quiz.

Module Summary.

Import World JsString Gemini.
Open Scope string_scope.

(** The quiz cells of SessionSummary. *)
Record State : Type := {
  isGeneratingQuiz : bool;
  quizQuestions : option (list QuizQuestion);
  showQuiz : bool
}.

Definition mount : State :=
  {| isGeneratingQuiz := false; quizQuestions := None; showQuiz := false |}.

(** [handleGenerateQuiz], with the [alert]s it raises. *)
Definition handleGenerateQuiz (env : Env) (reply : Reply (list QuizQuestion))
    (summary : string) (s : State) : State * list string :=
  match generateQuiz env reply summary with
  | Ok questions =>
      if (0 <? List.length questions)%nat
      then ({| isGeneratingQuiz := false; quizQuestions := Some questions;
               showQuiz := true |}, [])
      else ({| isGeneratingQuiz := false; quizQuestions := None;
               showQuiz := showQuiz s |},
            ["Could not generate a quiz for this session. The content might be too short."])
  | Throw _ =>
      ({| isGeneratingQuiz := false; quizQuestions := None;
          showQuiz := showQuiz s |},
       ["An error occurred while generating the quiz. Please try again."])
  end.

(** [onClose] of the quiz. *)
Definition closeQuiz (s : State) : State :=
  {| isGeneratingQuiz := isGeneratingQuiz s; quizQuestions := quizQuestions s;
     showQuiz := false |}.

(** [{showQuiz && quizQuestions && <Quiz questions={quizQuestions} />}]:
    the questions the quiz is mounted with; an array is truthy even when
    it is empty. *)
Definition quiz_mounted (s : State) : option (list QuizQuestion) :=
  if showQuiz s then quizQuestions s else None.

End Summary.

(* ===================================================================== *)
(** ** Scenarios *)
(* ===================================================================== *)

(** Concrete environments and states, reached through the handlers. *)
Module Scenario.

Import World.
Open Scope string_scope.

(** A credential is configured and every collaborator answers. *)
Definition configured : Env :=
  {| API_KEY := Some "key"; mediaDevices := Ok 1%Z;
     audioContext := Ok tt; connect := Ok tt;
     notes_reply := fun _ => Ok (Some "<h2>Notes</h2>");
     summary_reply := fun _ _ => Ok (Some "<h1>Summary</h1>");
     subject_reply := fun _ => Parsed "Mathematics";
     className_reply := fun _ => Parsed "Linear Algebra" |}.

(** No credential is configured; the devices are there. *)
Definition unconfigured : Env :=
  {| API_KEY := None; mediaDevices := Ok 1%Z;
     audioContext := Ok tt; connect := Ok tt;
     notes_reply := fun _ => Ok (Some "<h2>Notes</h2>");
     summary_reply := fun _ _ => Ok (Some "<h1>Summary</h1>");
     subject_reply := fun _ => Parsed "Mathematics";
     className_reply := fun _ => Parsed "Linear Algebra" |}.


Definition math : RegisteredClass.registered :=
  {| RegisteredClass.id := "1"; RegisteredClass.name := "Math";
     RegisteredClass.sessions := [] |}.

(** The setup screen, where there is no [window.aistudio] to ask for the
    key. *)
Definition setup : App.State := App.checkApiKey None App.initial.

(** A session of the class [math] has just started. *)
Definition started : App.State :=
  App.mirror (fst (App.startSession configured 1000 1000 math setup)).

(** One turn, "hello", was completed and its display cleared; the next
    turn has got as far as "wor". *)
Definition mid_turn : App.State :=
  App.mirror
    (App.deliver [Speech.transcript_message "wor" false]
       (App.mirror
          (App.interimClearTimer
             (App.deliver (App.turn [] "hello") started)))).

(** One turn, "hello", was completed, and the next turn got as far as
    "wor" before the display of the first was cleared: the timer of the
    first turn then cleared the display of the second. *)
Definition overtaken : App.State :=
  App.mirror
    (App.interimClearTimer
       (App.mirror
          (App.deliver [Speech.transcript_message "wor" false]
             (App.mirror (App.deliver (App.turn [] "hello") started))))).

(** Every collaborator answers, the notes request with a reply that
    carries no text. *)
Definition textless : Env :=
  {| API_KEY := Some "key"; mediaDevices := Ok 1%Z;
     audioContext := Ok tt; connect := Ok tt;
     notes_reply := fun _ => Ok None;
     summary_reply := fun _ _ => Ok (Some "<h1>Summary</h1>");
     subject_reply := fun _ => Parsed "Mathematics";
     className_reply := fun _ => Parsed "Linear Algebra" |}.

(** A finalized session whose class name is spelled in capitals. *)
Definition shouted : Session.session :=
  {| Session.id := Some "2000"; Session.className := Some "MATH";
     Session.subject := Some "Mathematics";
     Session.startTime := Some 2000%Z; Session.endTime := Some 3000%Z;
     Session.notes := Some "<h2>Notes</h2>";
     Session.summary := Some "<h1>Summary</h1>";
     Session.focusHistory := Some []; Session.lowFocusTimestamps := Some [];
     Session.fullTranscript := Some "hello" |}.

(** The same session with an empty class name. *)
Definition nameless : Session.session := Session.with_className shouted "".

(** Three hundred code units of lecture. *)
Definition long_text : string := JsString.join (repeat "photosynthesis " 20).

(** A session in which one long turn was completed and its display
    cleared. *)
Definition lecture : App.State :=
  App.mirror (App.interimClearTimer (App.deliver (App.turn [] long_text) started)).

End Scenario.

(* ===================================================================== *)
(** * Properties *)
(* ===================================================================== *)

(** ** JavaScript strings: trimming *)

Module JsStringFacts.

Import JsString.
Open Scope string_scope.

Lemma trimEnd_blank s : blank s = true -> trimEnd s = "".
Proof.
  induction s as [|c r IH]; simpl; auto.
  intros H. apply andb_prop in H. destruct H as [Hc Hr].
  rewrite (IH Hr), Hc. reflexivity.
Qed.

Lemma trimEnd_empty_blank s : trimEnd s = "" -> blank s = true.
Proof.
  induction s as [|c r IH]; simpl; auto.
  destruct (trimEnd r) eqn:E.
  - destruct (is_ws c); [intros _; simpl; auto | discriminate].
  - discriminate.
Qed.

Lemma trimStart_blank s : blank s = true -> trimStart s = "".
Proof.
  induction s as [|c r IH]; simpl; auto.
  intros H. apply andb_prop in H. destruct H as [Hc Hr].
  rewrite Hc. auto.
Qed.

Lemma blank_app a b : blank (a ++ b) = blank a && blank b.
Proof.
  induction a as [|c r IH]; simpl; auto.
  rewrite IH. apply andb_assoc.
Qed.

Lemma trim_blank s : blank s = true -> trim s = "".
Proof. intros H. unfold trim. rewrite (trimStart_blank _ H). reflexivity. Qed.

(** A string splits into its leading white space and the rest. *)
Lemma leadingWs_trimStart s : s = leadingWs s ++ trimStart s.
Proof.
  induction s as [|c r IH]; simpl; auto.
  destruct (is_ws c); simpl; congruence.
Qed.

Lemma blank_leadingWs s : blank (leadingWs s) = true.
Proof.
  induction s as [|c r IH]; simpl; auto.
  destruct (is_ws c) eqn:E; simpl; auto. rewrite E. auto.
Qed.

Lemma blank_trimStart s : blank (trimStart s) = blank s.
Proof.
  induction s as [|c r IH]; simpl; auto.
  destruct (is_ws c) eqn:E; simpl; rewrite ?E; auto.
Qed.

(** Trailing white space is dropped from the right operand only, as soon
    as the right operand has something else in it. *)
Lemma trimEnd_app a b : blank b = false -> trimEnd (a ++ b) = a ++ trimEnd b.
Proof.
  intros Hb. induction a as [|c r IH]; simpl; auto.
  rewrite IH. destruct (r ++ trimEnd b) eqn:E; auto.
  exfalso. destruct r; simpl in E; try discriminate.
  apply trimEnd_empty_blank in E. congruence.
Qed.

(** Leading white space on the left goes; a left operand that starts
    with something else stays whole. *)
Lemma trimStart_app_blank a b : blank a = true -> trimStart (a ++ b) = trimStart b.
Proof.
  induction a as [|c r IH]; simpl; auto.
  intros H. apply andb_prop in H. destruct H as [Hc Hr]. rewrite Hc. auto.
Qed.

Lemma trimStart_app a b : blank a = false -> trimStart (a ++ b) = trimStart a ++ b.
Proof.
  induction a as [|c r IH]; simpl; [discriminate|].
  destruct (is_ws c) eqn:E; simpl; auto.
Qed.

Lemma trimStart_fixed c r : is_ws c = false -> trimStart (String c r) = String c r.
Proof. simpl. intros ->. reflexivity. Qed.

Lemma append_assoc (a b c : string) : (a ++ b) ++ c = a ++ (b ++ c).
Proof. induction a; simpl; congruence. Qed.

Lemma append_empty_r (a : string) : a ++ "" = a.
Proof. induction a; simpl; congruence. Qed.

Lemma trimStart_idem s : trimStart (trimStart s) = trimStart s.
Proof.
  induction s as [|c r IH]; simpl; auto.
  destruct (is_ws c) eqn:E; auto. simpl. rewrite E. reflexivity.
Qed.

(** Leading white space of the whole goes, whatever the left operand. *)
Lemma trimStart_app_trimmed a b :
  trimStart (a ++ trimStart b) = trimStart a ++ trimStart b.
Proof.
  destruct (blank a) eqn:E.
  - rewrite trimStart_app_blank, trimStart_idem, (@trimStart_blank a E) by exact E.
    reflexivity.
  - apply trimStart_app. exact E.
Qed.

(** White space at the end of a string is its leading white space when
    the string has nothing else. *)
Lemma trimEnd_leading s :
  blank s = false -> trimEnd s = leadingWs s ++ trim s.
Proof.
  intros H. rewrite (leadingWs_trimStart s) at 1.
  apply trimEnd_app. rewrite blank_trimStart. exact H.
Qed.

(** The trim of [a + ' ' + b] for a [b] that is not blank. *)
Lemma trim_joined a b :
  blank b = false ->
  trim (a ++ " " ++ b) = trimStart (a ++ " " ++ leadingWs b) ++ trim b.
Proof.
  intros H. unfold trim at 1.
  rewrite (leadingWs_trimStart b) at 1.
  replace (a ++ " " ++ leadingWs b ++ trimStart b)
    with ((a ++ " " ++ leadingWs b) ++ trimStart b)
    by (rewrite !append_assoc; reflexivity).
  rewrite trimStart_app_trimmed, trimEnd_app; [reflexivity|].
  rewrite blank_trimStart. exact H.
Qed.

Lemma trim_joined_empty b : blank b = false -> trim ("" ++ " " ++ b) = trim b.
Proof.
  intros H. rewrite (@trim_joined "" b H).
  rewrite trimStart_blank; [reflexivity|].
  simpl. apply blank_leadingWs.
Qed.

Lemma trim_joined_solid c r b :
  is_ws c = false -> blank b = false ->
  trim (String c r ++ " " ++ b) = String c r ++ " " ++ trimEnd b.
Proof.
  intros Hc H. rewrite (@trim_joined (String c r) b H).
  change (String c r ++ " " ++ leadingWs b)
    with (String c (r ++ " " ++ leadingWs b)).
  rewrite trimStart_fixed by exact Hc.
  rewrite (@trimEnd_leading b H).
  change (String c (r ++ " " ++ leadingWs b))
    with (String c r ++ " " ++ leadingWs b).
  rewrite !append_assoc. reflexivity.
Qed.

(** A blank right operand adds nothing to a trim. *)
Lemma trimEnd_app_blank a b : blank b = true -> trimEnd (a ++ b) = trimEnd a.
Proof.
  intros H. induction a as [|c r IH]; simpl.
  - apply trimEnd_blank. exact H.
  - rewrite IH. reflexivity.
Qed.

Lemma trim_joined_blank a b : blank b = true -> trim (a ++ " " ++ b) = trim a.
Proof.
  intros H. unfold trim.
  assert (Hb : blank (" " ++ b) = true) by (simpl; exact H).
  destruct (blank a) eqn:E.
  - rewrite !trimStart_blank; auto. rewrite blank_app, E. exact Hb.
  - rewrite trimStart_app by exact E. apply trimEnd_app_blank. exact Hb.
Qed.

Lemma join_app a b : join (a ++ b)%list = join a ++ join b.
Proof.
  induction a as [|x r IH]; simpl; [reflexivity|].
  rewrite IH, append_assoc. reflexivity.
Qed.

End JsStringFacts.

(** ** AudioFrameEncoder *)

Module AudioFacts.

Import Audio.

Section Quantization.

Open Scope Z_scope.

(** An integer of the int16 range survives the reduction modulo 2^16
    and the reading as two's complement. *)
Lemma wrap_int16 t :
  -32768 <= t <= 32767 ->
  (if 32768 <=? t mod 65536 then t mod 65536 - 65536 else t mod 65536) = t.
Proof.
  intros Ht. destruct (Z.leb_spec 32768 (t mod 65536));
    Z.div_mod_to_equations; lia.
Qed.

Lemma bytes_range v :
  Forall (fun b => 0 <= b < 256) (bytes_of_int16 v).
Proof.
  unfold bytes_of_int16. change 255 with (Z.ones 8).
  rewrite !Z.land_ones by lia.
  repeat constructor; apply Z.mod_pos_bound; reflexivity.
Qed.

(** The two bytes of an int16 read back as that int16. *)
Lemma int16_of_bytes_of_int16 t :
  -32768 <= t <= 32767 ->
  int16_of_bytes (Z.land t 255) (Z.land (Z.shiftr t 8) 255) = t.
Proof.
  intros Ht. unfold int16_of_bytes. change 255 with (Z.ones 8).
  rewrite !Z.land_ones, Z.shiftr_div_pow2 by lia.
  change (2 ^ 8) with 256.
  destruct (Z.leb_spec 32768 (t mod 256 + 256 * (t / 256 mod 256)));
    Z.div_mod_to_equations; lia.
Qed.

(** Truncation of a quotient with a positive denominator stays between
    the bounds of the quotient. *)
Lemma quot_bounds n d lo hi :
  0 < d -> lo <= 0 -> 0 <= hi -> lo * d <= n -> n < (hi + 1) * d ->
  lo <= Z.quot n d <= hi.
Proof.
  intros Hd Hlo Hhi H1 H2.
  pose proof (Z.quot_rem' n d) as E.
  destruct (Z_le_gt_dec 0 n) as [Hn|Hn].
  - pose proof (Z.rem_bound_pos n d Hn Hd). nia.
  - assert (Hr : - d < Z.rem n d <= 0).
    { pose proof (Z.rem_bound_pos (- n) d ltac:(lia) Hd) as B.
      rewrite Z.rem_opp_l in B by lia. lia. }
    nia.
Qed.

Lemma rem_small n d : 0 < d -> - d < Z.rem n d < d.
Proof.
  intros Hd. destruct (Z_le_gt_dec 0 n) as [Hn|Hn].
  - pose proof (Z.rem_bound_pos n d Hn Hd). lia.
  - pose proof (Z.rem_bound_pos (- n) d ltac:(lia) Hd) as B.
    rewrite Z.rem_opp_l in B by lia. lia.
Qed.

End Quantization.

Open Scope Q_scope.

(** A sample of [-1, 1) is quantized by truncation, without wrap-around. *)
Lemma int16_of_sample_in_range x :
  -1 <= x -> x < 1 ->
  int16_of_sample x = truncate (x * 32768)
  /\ (-32768 <= int16_of_sample x <= 32767)%Z.
Proof.
  intros Hlo Hhi.
  assert (B : (-32768 <= truncate (x * 32768) <= 32767)%Z).
  { destruct x as [p q]. unfold Qle, Qlt in *. simpl in *.
    unfold truncate. simpl. apply quot_bounds; try lia. }
  split; [|unfold int16_of_sample, ToInt16; rewrite wrap_int16; assumption].
  unfold int16_of_sample, ToInt16. apply wrap_int16. exact B.
Qed.

(** Truncation loses less than one quantization step. *)
Lemma truncation_error x :
  Qabs (x - float_of_int16 (truncate (x * 32768))) < quantum.
Proof.
  apply Qabs_Qlt_condition.
  destruct x as [p q]. unfold truncate, float_of_int16, quantum. simpl.
  pose proof (Z.quot_rem' (p * 32768) (Z.pos (q * 1))) as E.
  pose proof (@rem_small (p * 32768) (Z.pos (q * 1)) ltac:(lia)) as B.
  set (t := Z.quot (p * 32768) (Z.pos (q * 1))) in *.
  set (r := Z.rem (p * 32768) (Z.pos (q * 1))) in *.
  rewrite Pos.mul_1_r in *.
  unfold Qlt, Qminus, Qplus, Qopp. simpl.
  rewrite !Pos2Z.inj_mul. split; nia.
Qed.

Lemma pcm_bytes_length data :
  List.length (pcm_bytes data) = (2 * List.length data)%nat.
Proof.
  unfold pcm_bytes, Uint8Array_of_buffer, int16_buffer.
  induction data as [|x rest IH]; simpl; [reflexivity|]. rewrite IH. lia.
Qed.

Lemma pcm_bytes_range data :
  Forall (fun b => (0 <= b < 256)%Z) (pcm_bytes data).
Proof.
  unfold pcm_bytes, Uint8Array_of_buffer, int16_buffer.
  induction data as [|x rest IH]; simpl; [constructor|].
  pose proof (bytes_range (int16_of_sample x)) as B.
  unfold bytes_of_int16 in B. inversion B as [|? ? B1 B2]; subst.
  inversion B2; subst. repeat (constructor; trivial).
Qed.

Lemma decode_int16s_pcm_bytes data :
  Forall in_range data ->
  decode_int16s (pcm_bytes data) = map (fun x => truncate (x * 32768)) data.
Proof.
  unfold pcm_bytes, Uint8Array_of_buffer, int16_buffer.
  induction 1 as [|x rest [Hlo Hhi] _ IH]; simpl; [reflexivity|].
  destruct (int16_of_sample_in_range Hlo Hhi) as [E B].
  rewrite IH, int16_of_bytes_of_int16 by exact B. now rewrite E.
Qed.

(** C4, as the code has it: for every block of N samples of [-1, 1) the
    encoder hands exactly 2N bytes to the base64 wrapper, each a value of
    0..255; read as 16-bit signed little-endian PCM they are the samples
    times 32768 with the fraction cut off (towards zero, not rounded), and
    every decoded value is less than one quantization step (1/32768) away
    from its original. *)
Theorem C4_pcm_round_trip (data : list sample) :
  Forall in_range data ->
  List.length (pcm_bytes data) = (2 * List.length data)%nat
  /\ Forall (fun b => (0 <= b < 256)%Z) (pcm_bytes data)
  /\ decode_int16s (pcm_bytes data) = map (fun x => truncate (x * 32768)) data
  /\ Forall2 (fun x y => Qabs (x - y) < quantum) data (decode_pcm (pcm_bytes data)).
Proof.
  intros H. split; [apply pcm_bytes_length|].
  split; [apply pcm_bytes_range|].
  split; [apply decode_int16s_pcm_bytes; exact H|].
  unfold decode_pcm. rewrite (decode_int16s_pcm_bytes H).
  clear H. induction data as [|x rest IH]; simpl; constructor.
  - apply truncation_error.
  - exact IH.
Qed.

Lemma C4_pcm_round_trip_witness :
  let data := [1 # 2; - (1 # 2); (-1) # 32768; 3 # 131072; -1] in
  Forall in_range data
  /\ List.length (pcm_bytes data) = 10%nat
  /\ decode_int16s (pcm_bytes data) = [16384; -16384; -1; 0; -32768]%Z.
Proof.
  assert (H : Forall in_range [1 # 2; - (1 # 2); (-1) # 32768; 3 # 131072; -1]).
  { repeat constructor; unfold Qle, Qlt; simpl; lia. }
  split; [exact H|].
  destruct (C4_pcm_round_trip H) as (L & _ & D & _).
  split; [exact L | exact D].
Defined.

(** C4 as stated fails twice.  The sample 3/131072 (0.75 of a step) is
    stored as 0, where rounding gives 1; and the sample 1 is stored as
    -32768, where clamping gives 32767, so that it decodes to -1, two
    units away from the original. *)
Lemma C4_quantizer_truncates_and_wraps :
  in_range (3 # 131072)
  /\ int16_of_sample (3 # 131072) = 0%Z
  /\ spec_quantize (3 # 131072) = 1%Z
  /\ -1 <= 1 <= 1
  /\ int16_of_sample 1 = (-32768)%Z
  /\ spec_quantize 1 = 32767%Z
  /\ decode_pcm (pcm_bytes [1]) = [(-32768) # 32768]
  /\ ~ Qabs (1 - ((-32768) # 32768)) <= quantum.
Proof.
  repeat split; try reflexivity; unfold Qle, Qlt; simpl; lia.
Qed.

End AudioFacts.

(** ** VisionSampler: the streak *)

Module FocusFacts.

Import World Focus.
Open Scope Q_scope.

Lemma below_lt s x : below s x = true <-> s < x.
Proof.
  unfold below. rewrite negb_true_iff, <- not_true_iff_false, Qle_bool_iff.
  split; [apply Qnot_le_lt | apply Qlt_not_le].
Qed.

Lemma is_zero_eq s : is_zero s = true <-> s == 0.
Proof. apply Qeq_bool_iff. Qed.

(** A score of exactly 0 is a low score. *)
Lemma is_zero_below s : is_zero s = true -> below s 60 = true.
Proof.
  intros H. apply is_zero_eq in H. apply below_lt. rewrite H. reflexivity.
Qed.

Section OneSample.

Variables (cn : string) (t : Tracker) (a : Z) (s : Q).





End OneSample.










End FocusFacts.

(** ** SessionOrchestrator: transcript reconciliation *)

Module TranscriptFacts.

Import World JsString JsStringFacts App.
Open Scope string_scope.

(** A message that does not complete the turn. *)
Lemma onmessage_piece p s :
  receive_message (Speech.transcript_message p false) s
  = (setInterimTranscript (Speech.currentTurnTranscription (speech s) ++ p)
       (with_speech s
          (Speech.set_turn (speech s)
             (Speech.currentTurnTranscription (speech s) ++ p))), []).
Proof. reflexivity. Qed.

(** A message that completes the turn. *)
Lemma onmessage_last p s :
  let text := Speech.currentTurnTranscription (speech s) ++ p in
  fst (receive_message (Speech.transcript_message p true) s)
  = let s1 := setInterimTranscript text
                (with_speech s (Speech.set_turn (speech s) "")) in
    if truthy (trim text) then handleTranscriptChunk (trim text ++ " ") s1 else s1.
Proof.
  unfold receive_message, Speech.onmessage, Speech.concat_text. simpl.
  destruct (truthy (trim (Speech.currentTurnTranscription (speech s) ++ p)));
    reflexivity.
Qed.

Lemma deliver_cons m ms s : deliver (m :: ms) s = deliver ms (fst (receive_message m s)).
Proof. reflexivity. Qed.

(** The pieces of a turn pile up in the turn text; nothing is committed. *)
Lemma deliver_pieces pieces : forall s,
  let s' := deliver (map (fun p => Speech.transcript_message p false) pieces) s in
  Speech.currentTurnTranscription (speech s')
  = Speech.currentTurnTranscription (speech s) ++ join pieces
  /\ Live.fullTranscript (live s') = Live.fullTranscript (live s)
  /\ (pieces <> [] ->
      Live.interimTranscript (live s')
      = Speech.currentTurnTranscription (speech s) ++ join pieces).
Proof.
  induction pieces as [|p rest IH]; intros s.
  - simpl. rewrite append_empty_r. repeat split. congruence.
  - cbv zeta in *. cbn [map]. rewrite deliver_cons, onmessage_piece. cbn [fst].
    set (text := Speech.currentTurnTranscription (speech s) ++ p).
    set (s1 := setInterimTranscript text _).
    destruct (IH s1) as (C & F & I).
    assert (E : Speech.currentTurnTranscription (speech s1) = text) by reflexivity.
    rewrite E in *. cbn [join fold_right].
    fold (join rest). unfold text in *. rewrite <- append_assoc.
    repeat split; [exact C | rewrite F; reflexivity |].
    intros _. destruct rest as [|q rest']; [|apply I; discriminate].
    simpl. rewrite append_empty_r. reflexivity.
Qed.

Lemma deliver_app a b s : deliver (a ++ b)%list s = deliver b (deliver a s).
Proof. unfold deliver. apply fold_left_app. Qed.

(** C1, as the code has it: the text of every transcription event is
    appended to the text of the turn (an event carries a piece, not the
    whole).  After each event the interim text on display is all pieces
    of the turn end to end; the event that completes the turn commits
    that text once, trimmed and followed by one space (nothing if it is
    blank), and empties the turn.  The pieces "a", " b", " c" commit
    exactly "a b c ". *)
Theorem C1_turn_text_is_appended :
  (forall s pieces last,
      let text :=
        Speech.currentTurnTranscription (speech s) ++ join pieces ++ last in
      let s' := deliver (turn pieces last) s in
      Live.fullTranscript (live s')
      = Live.fullTranscript (live s)
          ++ (if truthy (trim text) then trim text ++ " " else "")
      /\ Live.interimTranscript (live s') = text
      /\ Speech.currentTurnTranscription (speech s') = "")
  /\ (forall s pieces p,
         Live.interimTranscript
           (live (deliver
                    (map (fun x => Speech.transcript_message x false)
                       (pieces ++ [p])%list) s))
         = Speech.currentTurnTranscription (speech s) ++ join (pieces ++ [p])%list)
  /\ Live.fullTranscript (live (deliver (turn ["a"; " b"] " c") Scenario.started))
     = "a b c ".
Proof.
  split; [|split].
  - intros s pieces last. unfold turn. rewrite deliver_app.
    destruct (deliver_pieces pieces s) as (C & F & _).
    set (s1 := deliver _ s) in *.
    rewrite deliver_cons, onmessage_last. cbv zeta.
    rewrite C, append_assoc. change (deliver [] ?x) with x.
    destruct (truthy (trim _)); simpl; rewrite ?F, ?append_empty_r;
      repeat split; reflexivity.
  - intros s pieces p.
    destruct (deliver_pieces (pieces ++ [p]) s) as (_ & _ & I).
    apply I. destruct pieces; discriminate.
  - reflexivity.
Qed.

(** C1 as stated fails: when the events carry the cumulative texts "a",
    "a b", "a b c", the turn commits their concatenation, whether the
    completion comes with an empty piece or with the third event; and a
    completion that carries no transcription commits nothing. *)
Lemma C1_cumulative_events_are_concatenated :
  let cumulative :=
    map (fun x => Speech.transcript_message x false) ["a"; "a b"; "a b c"] in
  let committed events :=
    Live.fullTranscript (live (deliver events Scenario.started)) in
  committed (cumulative ++ [Speech.transcript_message "" true])%list = "aa ba b c "
  /\ committed (cumulative ++ [Speech.transcript_message "" true])%list <> "a b c "
  /\ committed (turn ["a"; "a b"] "a b c") = "aa ba b c "
  /\ committed (cumulative ++ [Speech.bare_turn_complete])%list = "".
Proof. repeat split; try reflexivity. discriminate. Qed.

(** After the mirroring effect the ref holds the five cells. *)
Lemma mirror_ref s : sessionStateRef (mirror s) = live s.
Proof. reflexivity. Qed.

End TranscriptFacts.

(** ** SessionOrchestrator: start and end of a session *)

Module SessionFacts.

Import World JsString JsStringFacts App.
Open Scope string_scope.

(** What the effects of the hook leave alone: everything but the two
    transcripts. *)
Lemma receive_all_frame es : forall s,
  let s' := fst (receive_all es s) in
  appState s' = appState s /\ sessionData s' = sessionData s
  /\ mediaStreamRef s' = mediaStreamRef s
  /\ sessionStateRef s' = sessionStateRef s
  /\ isApiKeySelected s' = isApiKeySelected s
  /\ tracker s' = tracker s /\ library s' = library s
  /\ speech s' = speech s
  /\ Live.focusHistory (live s') = Live.focusHistory (live s)
  /\ Live.lowFocusTimestamps (live s') = Live.lowFocusTimestamps (live s).
Proof.
  induction es as [|e rest IH]; intros s; [simpl; repeat split|].
  cbv zeta in *. cbn [receive_all].
  destruct (receive e s) as [s1 a1] eqn:E1.
  specialize (IH s1). destruct (receive_all rest s1) as [s2 a2]. cbn [fst] in *.
  assert (F : appState s1 = appState s /\ sessionData s1 = sessionData s
              /\ mediaStreamRef s1 = mediaStreamRef s
              /\ sessionStateRef s1 = sessionStateRef s
              /\ isApiKeySelected s1 = isApiKeySelected s
              /\ tracker s1 = tracker s /\ library s1 = library s
              /\ speech s1 = speech s
              /\ Live.focusHistory (live s1) = Live.focusHistory (live s)
              /\ Live.lowFocusTimestamps (live s1) = Live.lowFocusTimestamps (live s)).
  { destruct e; inversion E1; subst; repeat split. }
  destruct IH as (A1 & A2 & A3 & A4 & A5 & A6 & A7 & A8 & A9 & A10).
  destruct F as (B1 & B2 & B3 & B4 & B5 & B6 & B7 & B8 & B9 & B10).
  repeat split; congruence.
Qed.

Lemma stopListening_of_frame c s :
  let s' := fst (stopListening_of c s) in
  appState s' = appState s /\ sessionData s' = sessionData s
  /\ mediaStreamRef s' = mediaStreamRef s
  /\ sessionStateRef s' = sessionStateRef s
  /\ isApiKeySelected s' = isApiKeySelected s
  /\ tracker s' = tracker s /\ library s' = library s
  /\ Live.focusHistory (live s') = Live.focusHistory (live s)
  /\ Live.lowFocusTimestamps (live s') = Live.lowFocusTimestamps (live s).
Proof.
  unfold stopListening_of. destruct c; [|simpl; repeat split].
  cbn [negb]. cbv iota.
  match goal with |- context [Speech.stopListening ?h] =>
    destruct (Speech.stopListening h) as [h' effects] end.
  destruct (receive_all_frame effects (with_speech s h'))
    as (A1 & A2 & A3 & A4 & A5 & A6 & A7 & _ & A9 & A10).
  cbv zeta. repeat split; assumption.
Qed.

Lemma releaseMedia_frame s :
  let s' := fst (releaseMedia s) in
  appState s' = appState s /\ sessionData s' = sessionData s
  /\ sessionStateRef s' = sessionStateRef s
  /\ isApiKeySelected s' = isApiKeySelected s
  /\ tracker s' = tracker s /\ library s' = library s /\ live s' = live s
  /\ mediaStreamRef s' = None.
Proof.
  unfold releaseMedia. destruct (mediaStreamRef s) eqn:E; simpl; repeat split.
  exact E.
Qed.

(** [handleApiError] never touches the session record, the tracker, the
    focus history or the low-focus marks. *)
Lemma handleApiError_frame a c err s :
  let s' := fst (handleApiError a c err s) in
  sessionData s' = sessionData s /\ tracker s' = tracker s
  /\ library s' = library s
  /\ Live.focusHistory (live s') = Live.focusHistory (live s)
  /\ Live.lowFocusTimestamps (live s') = Live.lowFocusTimestamps (live s).
Proof.
  unfold handleApiError. destruct (is_auth_error err); [|simpl; repeat split].
  destruct (is_active a); [|simpl; repeat split].
  pose proof (stopListening_of_frame c (with_isApiKeySelected s (Some false))) as F.
  destruct (stopListening_of c (with_isApiKeySelected s (Some false))) as [s2 a2].
  pose proof (releaseMedia_frame s2) as G.
  destruct (releaseMedia s2) as [s3 a3]. cbn [fst] in *. cbv zeta in *.
  destruct F as (_ & F2 & _ & _ & _ & F6 & F7 & F9 & F10).
  destruct G as (_ & G2 & _ & _ & G5 & G6 & G7 & _).
  simpl in *. rewrite G7. repeat split; congruence.
Qed.

(** A recognised credential error in an active session ends it. *)
Lemma handleApiError_auth c err s :
  is_auth_error err = true ->
  let s' := fst (handleApiError ACTIVE c err s) in
  appState s' = SETUP /\ mediaStreamRef s' = None
  /\ isApiKeySelected s' = Some false.
Proof.
  intros H. unfold handleApiError. rewrite H. cbn [is_active].
  pose proof (stopListening_of_frame c (with_isApiKeySelected s (Some false))) as F.
  destruct (stopListening_of c (with_isApiKeySelected s (Some false))) as [s2 a2].
  pose proof (releaseMedia_frame s2) as G.
  destruct (releaseMedia s2) as [s3 a3]. cbn [fst] in *. cbv zeta in *.
  destruct F as (_ & _ & _ & _ & F5 & _).
  destruct G as (_ & _ & _ & G4 & _ & _ & _ & G8).
  simpl in *. repeat split; congruence.
Qed.

(** What the first step of the pipeline may change: class name and
    subject. *)
Lemma name_and_subject_keeps env sd fsd ft fs resolved :
  name_and_subject env sd fsd ft fs = Ok resolved ->
  Session.fullTranscript resolved = Session.fullTranscript fsd
  /\ Session.notes resolved = Session.notes fsd
  /\ Session.summary resolved = Session.summary fsd.
Proof.
  unfold name_and_subject.
  destruct (is_quick_record sd && _)%bool.
  - destruct (Gemini.generateClassNameFromTranscript env ft) as [g|e]; cbn [bind];
      [|discriminate].
    destruct (subject_missing fs).
    + destruct (Gemini.identifySubject env ft) as [i|e]; cbn [bind];
        [|discriminate].
      intros H. inversion H. repeat split.
    + intros H. inversion H. repeat split.
  - intros H. inversion H. repeat split.
Qed.

(** The pipeline succeeds exactly when its three steps do. *)
Lemma finalize_cases env sd fsd ft fs :
  match finalize env sd fsd ft fs with
  | Ok populated =>
      exists resolved n m,
        name_and_subject env sd fsd ft fs = Ok resolved
        /\ Gemini.structureNotes env ft = Ok n
        /\ Gemini.generateFinalSummary env ft (subject_text resolved) = Ok m
        /\ populated = Session.with_notes_summary resolved n m
  | Throw e =>
      name_and_subject env sd fsd ft fs = Throw e
      \/ (exists resolved,
             name_and_subject env sd fsd ft fs = Ok resolved
             /\ (Gemini.structureNotes env ft = Throw e
                 \/ (exists n, Gemini.structureNotes env ft = Ok n)
                    /\ Gemini.generateFinalSummary env ft (subject_text resolved)
                       = Throw e))
  end.
Proof.
  unfold finalize.
  destruct (name_and_subject env sd fsd ft fs) as [resolved|e] eqn:E1; cbn [bind];
    [|left; reflexivity].
  destruct (Gemini.structureNotes env ft) as [n|e] eqn:E2; cbn [bind];
    [|right; exists resolved; split; [reflexivity|left; reflexivity]].
  destruct (Gemini.generateFinalSummary env ft (subject_text resolved)) as [m|e] eqn:E3;
    cbn [bind].
  - exists resolved, n, m. repeat split. exact E3.
  - right. exists resolved. split; [reflexivity|]. right. split; [|exact E3].
    exists n. reflexivity.
Qed.

(** Where [endSession] leaves the state, by the outcome of the pipeline. *)
Lemma endSession_outcome env now c s :
  let ref := sessionStateRef s in
  match finalize env (sessionData s) (sealed (sessionData s) now ref)
          (finalTranscript_of ref) (Live.subject ref) with
  | Ok populated =>
      appState (fst (endSession env now c s)) = SUMMARY
      /\ sessionData (fst (endSession env now c s)) = populated
  | Throw _ =>
      appState (fst (endSession env now c s)) = SETUP
      /\ sessionData (fst (endSession env now c s)) = sessionData s
  end.
Proof.
  cbv zeta. unfold endSession, stopListening_now.
  pose proof (stopListening_of_frame (Speech.isListening (speech s)) s) as F.
  destruct (stopListening_of (Speech.isListening (speech s)) s) as [s1 a1].
  pose proof (releaseMedia_frame s1) as G.
  destruct (releaseMedia s1) as [s2 a2]. cbn [fst] in *. cbv zeta in *.
  destruct F as (_ & F2 & _). destruct G as (_ & G2 & _).
  destruct (finalize env (sessionData s) _ _ _) as [populated|err].
  - simpl. split; reflexivity.
  - pose proof (handleApiError_frame (appState s) c err (with_appState s2 LOADING)) as H.
    destruct (handleApiError (appState s) c err (with_appState s2 LOADING)) as [s4 a4].
    cbn [fst] in *. cbv zeta in H. destruct H as (H1 & _).
    simpl in *. split; [reflexivity|congruence].
Qed.

Lemma endSession_fullTranscript env now c s :
  appState (fst (endSession env now c s)) = SUMMARY ->
  Session.fullTranscript (sessionData (fst (endSession env now c s)))
  = Some (finalTranscript_of (sessionStateRef s)).
Proof.
  intros H. pose proof (endSession_outcome env now c s) as O. cbv zeta in O.
  pose proof (finalize_cases env (sessionData s)
                (sealed (sessionData s) now (sessionStateRef s))
                (finalTranscript_of (sessionStateRef s))
                (Live.subject (sessionStateRef s))) as C.
  destruct (finalize env (sessionData s) _ _ _) as [populated|err].
  - destruct O as [_ O]. rewrite O.
    destruct C as (resolved & n & m & C1 & _ & _ & ->).
    apply name_and_subject_keeps in C1. destruct C1 as [C1 _].
    simpl. rewrite C1. reflexivity.
  - destruct O as [O _]. congruence.
Qed.

(** C2, as the code has it: the final transcript of [endSession] is the
    trim of committed text, one space, and interim text, both as the last
    render left them in the state ref; the turn buffer of the hook is not
    read.  When that interim text holds something else than white space,
    the final transcript ends with the trimmed interim text; it is the
    trimmed interim text alone when nothing was committed, and when the
    committed text starts with something else than white space it is the
    committed text, one space, and the interim text without its trailing
    white space.  When that interim text is blank, the final transcript is
    the trimmed committed text, whatever the hook holds of a turn in
    flight. *)
Theorem C2_final_transcript_keeps_interim env now c s :
  let full := Live.fullTranscript (sessionStateRef s) in
  let interim := Live.interimTranscript (sessionStateRef s) in
  let final := finalTranscript_of (sessionStateRef s) in
  (appState (fst (endSession env now c s)) = SUMMARY ->
   Session.fullTranscript (sessionData (fst (endSession env now c s))) = Some final)
  /\ (forall hook,
     appState (fst (endSession env now c (with_speech s hook))) = SUMMARY ->
     Session.fullTranscript
       (sessionData (fst (endSession env now c (with_speech s hook))))
     = Some final)
  /\ final = trim (full ++ " " ++ interim)
  /\ (blank interim = false ->
      final = trimStart (full ++ " " ++ leadingWs interim) ++ trim interim
      /\ (full = "" -> final = trim interim)
      /\ (forall ch r, full = String ch r -> is_ws ch = false ->
           final = full ++ " " ++ trimEnd interim))
  /\ (blank interim = true -> final = trim full).
Proof.
  cbv zeta. unfold finalTranscript_of.
  split; [apply endSession_fullTranscript|].
  split; [intros hook; apply (endSession_fullTranscript env now c (with_speech s hook))|].
  split; [reflexivity|]. split.
  - intros H. split; [apply trim_joined; exact H|]. split.
    + intros ->. apply trim_joined_empty. exact H.
    + intros ch r -> Hc. apply trim_joined_solid; assumption.
  - intros H. apply trim_joined_blank. exact H.
Qed.

Lemma C2_final_transcript_keeps_interim_witness :
  blank (Live.interimTranscript (sessionStateRef Scenario.mid_turn)) = false
  /\ finalTranscript_of (sessionStateRef Scenario.mid_turn)
     = "hello " ++ " " ++ trimEnd "wor".
Proof.
  split; [reflexivity|].
  destruct (C2_final_transcript_keeps_interim Scenario.configured 5000 true
              Scenario.mid_turn) as (_ & _ & _ & H & _).
  destruct (H eq_refl) as (_ & _ & K).
  apply (K "h"%char "ello "); reflexivity.
Defined.

(** The interim text that is all white space adds nothing. *)
Lemma final_transcript_blank_interim ref :
  blank (Live.interimTranscript ref) = true ->
  finalTranscript_of ref = trim (Live.fullTranscript ref).
Proof. intros H. apply trim_joined_blank. exact H. Qed.

(** C2 as stated fails, in two ways.  With "hello " committed and "wor"
    on display, the final transcript is "hello  wor", which is not the
    committed text followed by the trimmed interim text.  And when "wor"
    arrived before the timer of the turn "hello" cleared the display, the
    hook holds "wor" as the turn in flight, the display is empty, and the
    final transcript is "hello": the partial turn is lost. *)
Lemma C2_interim_is_spaced_or_lost :
  (Live.fullTranscript (sessionStateRef Scenario.mid_turn) = "hello "
   /\ Live.interimTranscript (sessionStateRef Scenario.mid_turn) = "wor"
   /\ appState (fst (endSession Scenario.configured 5000 true Scenario.mid_turn))
      = SUMMARY
   /\ Session.fullTranscript
        (sessionData (fst (endSession Scenario.configured 5000 true Scenario.mid_turn)))
      = Some "hello  wor"
   /\ "hello  wor" <> "hello " ++ trim "wor")
  /\ (Speech.currentTurnTranscription (speech Scenario.overtaken) = "wor"
      /\ Live.fullTranscript (sessionStateRef Scenario.overtaken) = "hello "
      /\ Live.interimTranscript (sessionStateRef Scenario.overtaken) = ""
      /\ appState (fst (endSession Scenario.configured 5000 true Scenario.overtaken))
         = SUMMARY
      /\ Session.fullTranscript
           (sessionData (fst (endSession Scenario.configured 5000 true Scenario.overtaken)))
         = Some "hello"
      /\ "hello" <> "hello " ++ trim "wor").
Proof. repeat split; try reflexivity; discriminate. Qed.

(** C3, as the code has it: with no credential configured and the hook
    not listening, [startListening] records the configuration error at
    once, before it builds a client, an audio context or a connection,
    and does not start listening.  [startSession] reaches that check only
    after it has asked for camera and microphone: when the devices are
    granted it holds the stream and shows the active screen, with the
    error recorded and no network action made; the error is not one that
    [handleApiError] acts on. *)
Theorem C3_credential_checked_after_devices env now_id now_start cls s stream :
  has_key env = false ->
  Speech.isListening (speech s) = false ->
  mediaDevices env = Ok stream ->
  let configuration_error :=
    Speech.not_started
      "API_KEY environment variable not set. Please select an API key." in
  let listening := Speech.startListening env (speech s) in
  let session := startSession env now_id now_start cls s in
  snd listening = [Speech.world (consoleError "Failed to start listening:")]
  /\ Speech.error (fst listening) = configuration_error
  /\ Speech.isListening (fst listening) = false
  /\ snd session = [getUserMedia; consoleError "Failed to start listening:"]
  /\ existsb is_network (snd session) = false
  /\ existsb acquires_media (snd session) = true
  /\ mediaStreamRef (fst session) = Some stream
  /\ appState (fst session) = ACTIVE
  /\ Speech.error (speech (fst session)) = configuration_error
  /\ Speech.isListening (speech (fst session)) = false
  /\ (forall a c, errorEffect a c (fst session) = (fst session, [])).
Proof.
  intros Hk Hl Hm. cbv zeta.
  unfold startSession, start_with, Speech.startListening, errorEffect.
  rewrite Hm. cbn [speech]. rewrite Hl, Hk. cbn [negb].
  cbn. rewrite Hl. repeat split.
Qed.

Lemma C3_credential_checked_after_devices_witness :
  has_key Scenario.unconfigured = false
  /\ mediaStreamRef
       (fst (startSession Scenario.unconfigured 1000 1000 Scenario.math Scenario.setup))
     = Some 1%Z.
Proof.
  split; [reflexivity|].
  destruct (@C3_credential_checked_after_devices Scenario.unconfigured 1000 1000
              Scenario.math Scenario.setup 1%Z eq_refl eq_refl eq_refl)
    as (_ & _ & _ & _ & _ & _ & H & _).
  exact H.
Defined.

(** When the devices are refused nothing changes, and the credential is
    not looked at. *)
Lemma startSession_refused env now_id now_start cls s e :
  mediaDevices env = Throw e ->
  fst (startSession env now_id now_start cls s) = s.
Proof. intros H. unfold startSession, start_with. rewrite H. reflexivity. Qed.

(** C3 as stated fails: on the setup screen with no credential
    configured, [startSession] asks for camera and microphone and keeps
    the stream it is given. *)
Lemma C3_devices_acquired_without_credential :
  API_KEY Scenario.unconfigured = None
  /\ setup_screen_shown Scenario.setup = true
  /\ existsb acquires_media
       (snd (startSession Scenario.unconfigured 1000 1000 Scenario.math Scenario.setup))
     = true
  /\ mediaStreamRef
       (fst (startSession Scenario.unconfigured 1000 1000 Scenario.math Scenario.setup))
     = Some 1%Z
  /\ appState
       (fst (startSession Scenario.unconfigured 1000 1000 Scenario.math Scenario.setup))
     = ACTIVE.
Proof. repeat split. Qed.

End SessionFacts.

(** ** SessionOrchestrator: finalization and failed samples *)

Module PipelineFacts.

Import World JsString App SessionFacts.
Open Scope string_scope.


(** A frame fails to classify when the model rejects it, and always when
    no credential is configured. *)
Lemma tick_of_fails env at_time reply :
  (forall e, reply = Rejected e -> has_key env = true ->
             Focus.classified (Focus.tick_of env at_time reply) = Throw e)
  /\ (has_key env = false ->
      exists e, Focus.classified (Focus.tick_of env at_time reply) = Throw e).
Proof.
  unfold Focus.tick_of, Gemini.analyzeFocus, Gemini.getAiClient. simpl. split.
  - intros e -> ->. reflexivity.
  - intros ->. simpl. eauto.
Qed.

(** The calls of a sample and the streak it leaves depend on the streak
    it finds, not on what the tracker displays. *)
Lemma analyzeFrame_reads_streak cn t1 t2 k :
  Focus.lowFocusCounter t1 = Focus.lowFocusCounter t2 ->
  Focus.teacherAlertSent t1 = Focus.teacherAlertSent t2 ->
  snd (Focus.analyzeFrame cn t1 k) = snd (Focus.analyzeFrame cn t2 k)
  /\ Focus.lowFocusCounter (fst (Focus.analyzeFrame cn t1 k))
     = Focus.lowFocusCounter (fst (Focus.analyzeFrame cn t2 k))
  /\ Focus.teacherAlertSent (fst (Focus.analyzeFrame cn t1 k))
     = Focus.teacherAlertSent (fst (Focus.analyzeFrame cn t2 k)).
Proof.
  intros Hc Ht. unfold Focus.analyzeFrame.
  destruct (Focus.ready k); cbn [negb]; [|simpl; repeat split; assumption].
  destruct (Focus.context2d k); cbn [negb]; [|simpl; repeat split; assumption].
  destruct (Focus.classified k) as [r|e]; [|simpl; repeat split; assumption].
  rewrite Hc, Ht. destruct (Focus.below (Gemini.score r) 60); simpl; repeat split.
Qed.

(** C7, as the code has it: when the classification of a sample fails,
    the tracker calls the error callback and nothing else; it displays a
    score of 0 and the error, records no sample in the focus history and
    no low-focus mark, and leaves the streak counter and the teacher
    trigger as they were, so that the next sample is judged as if the
    failed one had not been taken.  The session stays active and sampling
    goes on, unless the error is one [handleApiError] takes for a bad
    credential: then the session is stopped and the devices released. *)
Theorem C7_failed_sample_is_reported_not_scored c k s stream err :
  appState s = ACTIVE ->
  mediaStreamRef s = Some stream ->
  Focus.ready k = true ->
  Focus.context2d k = true ->
  Focus.classified k = Throw err ->
  let s' := fst (focusTick c k s) in
  snd (Focus.analyzeFrame (tracker_className s) (tracker s) k) = [Focus.onApiError err]
  /\ Focus.focusScore (tracker s') = 0%Q
  /\ Focus.status (tracker s') = Focus.error
  /\ Focus.lowFocusCounter (tracker s') = Focus.lowFocusCounter (tracker s)
  /\ Focus.teacherAlertSent (tracker s') = Focus.teacherAlertSent (tracker s)
  /\ Live.focusHistory (live s') = Live.focusHistory (live s)
  /\ Live.lowFocusTimestamps (live s') = Live.lowFocusTimestamps (live s)
  /\ (forall cn k2,
        snd (Focus.analyzeFrame cn (tracker s') k2)
        = snd (Focus.analyzeFrame cn (tracker s) k2))
  /\ (is_auth_error err = false ->
      appState s' = ACTIVE /\ mediaStreamRef s' = Some stream
      /\ live s' = live s /\ snd (focusTick c k s) = [])
  /\ (is_auth_error err = true ->
      appState s' = SETUP /\ mediaStreamRef s' = None
      /\ isApiKeySelected s' = Some false).
Proof.
  intros Ha Hm Hr Hx Hk. cbv zeta.
  assert (E : Focus.analyzeFrame (tracker_className s) (tracker s) k
              = ({| Focus.focusScore := 0; Focus.status := Focus.error;
                    Focus.errorMessage := err;
                    Focus.lowFocusCounter := Focus.lowFocusCounter (tracker s);
                    Focus.teacherAlertSent := Focus.teacherAlertSent (tracker s) |},
                 [Focus.onApiError err])).
  { unfold Focus.analyzeFrame. rewrite Hr, Hx, Hk. reflexivity. }
  unfold focusTick. rewrite Ha, Hm, E. cbn [snd tracker_calls tracker_call].
  set (t' := {| Focus.focusScore := 0%Q |}).
  pose proof (handleApiError_frame ACTIVE c err (with_tracker s t')) as F.
  pose proof (@handleApiError_auth c err (with_tracker s t')) as A.
  assert (N : is_auth_error err = false ->
              handleApiError ACTIVE c err (with_tracker s t') = (with_tracker s t', [])).
  { intros H. unfold handleApiError. rewrite H. reflexivity. }
  destruct (handleApiError ACTIVE c err (with_tracker s t')) as [s1 a1].
  cbn [fst snd] in *. cbv zeta in *.
  destruct F as (_ & F2 & _ & F4 & F5). simpl in F2, F4, F5.
  split; [reflexivity|]. rewrite F2.
  split; [reflexivity|]. split; [reflexivity|]. split; [reflexivity|].
  split; [reflexivity|]. split; [exact F4|]. split; [exact F5|].
  split; [intros cn k2; apply analyzeFrame_reads_streak; reflexivity|].
  split.
  - intros H. specialize (N H). inversion N; subst. simpl.
    repeat split; assumption.
  - intros H. apply A. exact H.
Qed.

Lemma C7_failed_sample_is_reported_not_scored_witness :
  appState Scenario.started = ACTIVE
  /\ Focus.lowFocusCounter
       (tracker (fst (focusTick true (Focus.failed 2000 "503 Service Unavailable")
                        Scenario.started)))
     = Focus.lowFocusCounter (tracker Scenario.started).
Proof.
  split; [reflexivity|].
  destruct (@C7_failed_sample_is_reported_not_scored true
              (Focus.failed 2000 "503 Service Unavailable") Scenario.started 1%Z
              "503 Service Unavailable" eq_refl eq_refl eq_refl eq_refl eq_refl)
    as (_ & _ & _ & H & _).
  exact H.
Defined.

(** C7 as stated fails: a failed sample is not processed like a sample of
    score 0.  From the same state the failed sample leaves the counter at
    0, the history and the low-focus marks empty and notifies nobody; the
    sample of score 0 sets the counter to 1, is recorded and marked, and
    notifies the user and the teacher. *)
Lemma C7_failure_is_not_a_zero_sample :
  let failing :=
    focusTick true (Focus.failed 2000 "503 Service Unavailable") Scenario.started in
  let zero := focusTick true (Focus.scored 2000 0) Scenario.started in
  Focus.lowFocusCounter (tracker (fst failing)) = 0%nat
  /\ Focus.lowFocusCounter (tracker (fst zero)) = 1%nat
  /\ Live.focusHistory (live (fst failing)) = []
  /\ Live.focusHistory (live (fst zero))
     = [{| Focus.timestamp := 2000; Focus.score := 0 |}]
  /\ Live.lowFocusTimestamps (live (fst failing)) = []
  /\ Live.lowFocusTimestamps (live (fst zero)) = [2000%Z]
  /\ snd failing = []
  /\ snd zero = [setTimeout 5000; postWebhook "Math"].
Proof. repeat split. Qed.

End PipelineFacts.

(** ** ClassLibrary *)

Module LibraryFacts.

Import JsString Library.
Open Scope string_scope.

Lemma truthy_nonempty s : s <> "" -> truthy s = true.
Proof. destruct s; [congruence|reflexivity]. Qed.

Lemma name_matches_iff target c :
  name_matches target c = true
  <-> toLowerCase (RegisteredClass.name c) = toLowerCase target.
Proof. apply String.eqb_eq. Qed.

(** [find] returns the first class whose name matches, if there is one. *)
Lemma find_match target classes :
  (exists c, In c classes
             /\ toLowerCase (RegisteredClass.name c) = toLowerCase target)
  <-> exists targetClass, find (name_matches target) classes = Some targetClass.
Proof.
  split.
  - intros (c & Hin & Hc).
    destruct (find (name_matches target) classes) as [tc|] eqn:E; [eauto|].
    pose proof (find_none _ _ E c Hin) as N.
    apply name_matches_iff in Hc. congruence.
  - intros (tc & E). apply find_some in E. destruct E as [Hin Hm].
    exists tc. split; [exact Hin|]. apply name_matches_iff. exact Hm.
Qed.

Lemma map_Forall2 (A B : Type) (f : A -> B) l :
  Forall2 (fun a b => b = f a) l (map f l).
Proof. induction l; simpl; constructor; auto. Qed.

(** With distinct ids, the class found is the only class with its id. *)
Lemma same_id_same_class classes c d :
  NoDup (map RegisteredClass.id classes) ->
  In c classes -> In d classes ->
  RegisteredClass.id c = RegisteredClass.id d -> c = d.
Proof.
  induction classes as [|x rest IH]; simpl; [tauto|].
  intros N Hc Hd E. inversion N as [|? ? Hx Hrest]; subst.
  destruct Hc as [->|Hc], Hd as [->|Hd]; auto.
  - exfalso. apply Hx. rewrite E. apply in_map. exact Hd.
  - exfalso. apply Hx. rewrite <- E. apply in_map. exact Hc.
Qed.

(** The class found receives the session. *)
Lemma save_into_found now session target classes targetClass :
  find (name_matches target) classes = Some targetClass ->
  In (add_session session targetClass) (save_into now session target classes).
Proof.
  intros E. unfold save_into. rewrite E.
  apply find_some in E. destruct E as [Hin _].
  apply in_map_iff. exists targetClass. split; [|exact Hin].
  rewrite String.eqb_refl. reflexivity.
Qed.

(** C9, as the code has it: a session whose class name is there and not
    empty is always written.  It is merged, and no class is added,
    exactly when the name of some registered class matches the class name
    of the session without regard to case: then the session goes, under
    the name of the class that receives it, to the end of the first such
    class and of every class that shares its id (with distinct ids: of
    that class alone), and the other classes stay as they are.  Otherwise
    one class of that name, with the session as its only session, is
    added at the end.  A session whose class name is missing or empty is
    refused, whatever the library holds: nothing is merged, added or
    stored; and these are the only sessions that are refused. *)
Theorem C9_save_merges_by_name now session lib :
  (forall target,
     Session.className session = Some target ->
     target <> "" ->
     let classes := registeredClasses lib in
     let classes' := registeredClasses (fst (handleSaveSession now session lib)) in
     snd (handleSaveSession now session lib) = written
     /\ stored (fst (handleSaveSession now session lib)) = Some classes'
     /\ ((exists c, In c classes
                    /\ toLowerCase (RegisteredClass.name c) = toLowerCase target)
         <-> List.length classes' = List.length classes)
     /\ (forall targetClass,
           find (name_matches target) classes = Some targetClass ->
           In targetClass classes
           /\ toLowerCase (RegisteredClass.name targetClass) = toLowerCase target
           /\ Forall2
                (fun c c' =>
                   c' = if String.eqb (RegisteredClass.id c) (RegisteredClass.id targetClass)
                        then add_session session c else c)
                classes classes'
           /\ In (add_session session targetClass) classes'
           /\ (NoDup (map RegisteredClass.id classes) ->
               forall c, In c classes -> c <> targetClass -> In c classes'))
     /\ ((forall c, In c classes ->
                    toLowerCase (RegisteredClass.name c) <> toLowerCase target) ->
         classes'
         = (classes
              ++ [{| RegisteredClass.id := toString now;
                     RegisteredClass.name := target;
                     RegisteredClass.sessions :=
                       [Session.with_className session target] |}])%list))
  /\ (Session.className session = None \/ Session.className session = Some "" ->
      handleSaveSession now session lib
      = (lib, refused "Cannot save session: Class name is missing."))
  /\ (snd (handleSaveSession now session lib) = written
      <-> exists target, Session.className session = Some target /\ target <> "").
Proof.
  split; [|split].
  2: { intros [H|H]; unfold handleSaveSession; rewrite H; reflexivity. }
  2: { unfold handleSaveSession. destruct (Session.className session) as [t|].
       - destruct t as [|ch r]; cbn.
         + split; [discriminate|]. intros (t & E & N). congruence.
         + split; [|reflexivity]. intros _. eexists. split; [reflexivity|discriminate].
       - split; [discriminate|]. intros (t & E & _). discriminate. }
  intros target Hn Ht. cbv zeta. unfold handleSaveSession.
  rewrite Hn, (truthy_nonempty Ht). cbn [negb fst snd registeredClasses stored].
  split; [reflexivity|]. split; [reflexivity|].
  unfold save_into.
  pose proof (find_match target (registeredClasses lib)) as M.
  destruct (find (name_matches target) (registeredClasses lib)) as [tc|] eqn:E.
  - split; [|split].
    + split; [intros _; apply length_map|]. intros _. apply M. eauto.
    + intros targetClass H. inversion H; subst targetClass.
      pose proof E as Efind.
      apply find_some in E. destruct E as [Hin Hm].
      split; [exact Hin|]. split; [apply name_matches_iff; exact Hm|].
      split; [apply map_Forall2|]. split.
      * pose proof (@save_into_found now session target _ tc Efind) as F.
        unfold save_into in F. rewrite Efind in F. exact F.
      * intros N c Hc Hne. apply in_map_iff. exists c. split; [|exact Hc].
        destruct (String.eqb_spec (RegisteredClass.id c) (RegisteredClass.id tc))
          as [Eid|_]; [|reflexivity].
        exfalso. apply Hne. apply (@same_id_same_class _ c tc N Hc Hin Eid).
    + intros None. exfalso. apply find_some in E. destruct E as [Hin Hm].
      apply (None tc Hin). apply name_matches_iff. exact Hm.
  - split; [|split].
    + split.
      * intros H. apply M in H. destruct H as [x H]. discriminate.
      * rewrite length_app. simpl. lia.
    + intros targetClass H. discriminate.
    + intros _. reflexivity.
Qed.

Lemma C9_save_merges_by_name_witness :
  Session.className Scenario.shouted = Some "MATH"
  /\ registeredClasses
       (fst (handleSaveSession 7 Scenario.shouted
               (run [AddClass " Math " 1] no_classes)))
     = [add_session Scenario.shouted Scenario.math].
Proof.
  split; [reflexivity|].
  assert (Ht : "MATH" <> "") by discriminate.
  destruct (C9_save_merges_by_name 7 Scenario.shouted
              (run [AddClass " Math " 1] no_classes)) as (S & _).
  destruct (S "MATH" eq_refl Ht) as (_ & _ & _ & H & _).
  destruct (H Scenario.math eq_refl) as (_ & _ & F & _).
  inversion F as [|? ? ? ? F1 F2]; subst. inversion F2; subst. reflexivity.
Defined.

(** C9 as stated fails for a session whose class name is empty or
    missing: it is neither merged (not even into a class whose name is
    empty too) nor put into a new class; nothing is written. *)
Lemma C9_empty_name_is_not_saved :
  Session.className Scenario.nameless = Some ""
  /\ handleSaveSession 7 Scenario.nameless no_classes
     = (no_classes, refused "Cannot save session: Class name is missing.")
  /\ registeredClasses (fst (handleSaveSession 7 Scenario.nameless no_classes)) = []
  /\ (let unnamed :=
        {| RegisteredClass.id := "3"; RegisteredClass.name := "";
           RegisteredClass.sessions := [] |} in
      let lib :=
        {| registeredClasses := [unnamed]; newClassName := "";
           viewingClassId := None; stored := Some [unnamed] |} in
      name_matches "" unnamed = true
      /\ registeredClasses (fst (handleSaveSession 7 Scenario.nameless lib)) = [unnamed])
  /\ Session.className Session.empty = None
  /\ handleSaveSession 7 Session.empty (run [AddClass "Math" 1] no_classes)
     = (run [AddClass "Math" 1] no_classes,
        refused "Cannot save session: Class name is missing.").
Proof. repeat split. Qed.

(** *** The invariant *)

Lemma names_agree_nil : names_agree [].
Proof. intros c s []. Qed.

Lemma names_agree_app a b :
  names_agree a -> names_agree b -> names_agree (a ++ b)%list.
Proof.
  intros Ha Hb c s Hc. apply in_app_or in Hc. destruct Hc; eauto.
Qed.

Lemma names_agree_filter f classes :
  names_agree classes -> names_agree (filter f classes).
Proof.
  intros H c s Hc. apply filter_In in Hc. destruct Hc as [Hc _]. eauto.
Qed.

Lemma names_agree_add_session session c :
  (forall s, In s (RegisteredClass.sessions c) ->
             Session.className s = Some (RegisteredClass.name c)) ->
  forall s, In s (RegisteredClass.sessions (add_session session c)) ->
            Session.className s = Some (RegisteredClass.name (add_session session c)).
Proof.
  intros H s Hs. simpl in *. apply in_app_or in Hs. destruct Hs as [Hs|[<-|[]]].
  - apply H. exact Hs.
  - reflexivity.
Qed.

Lemma names_agree_save now session target classes :
  names_agree classes -> names_agree (save_into now session target classes).
Proof.
  intros H. unfold save_into.
  destruct (find (name_matches target) classes) as [tc|].
  - intros c' s Hc'. apply in_map_iff in Hc'. destruct Hc' as (c & <- & Hc).
    destruct (String.eqb _ _).
    + apply names_agree_add_session. intros s0. apply H. exact Hc.
    + apply H. exact Hc.
  - apply names_agree_app; [exact H|].
    intros c s [<-|[]] [<-|[]]. reflexivity.
Qed.

Lemma names_agree_apply op lib :
  names_agree (registeredClasses lib) ->
  names_agree (registeredClasses (apply op lib)).
Proof.
  intros H. destruct op as [typed now|id|now session]; simpl.
  - unfold handleAddClass. cbn [newClassName type_name].
    destruct (truthy (trim typed)); cbn [negb fst registeredClasses]; [|exact H].
    apply names_agree_app; [exact H|]. intros c s [<-|[]] [].
  - apply names_agree_filter. exact H.
  - unfold handleSaveSession.
    destruct (Session.className session) as [target|]; [|exact H].
    destruct (truthy target); cbn [negb fst registeredClasses]; [|exact H].
    apply names_agree_save. exact H.
Qed.

Lemma stored_apply op lib :
  stored lib = Some (registeredClasses lib) \/ registeredClasses lib = [] ->
  stored (apply op lib) = Some (registeredClasses (apply op lib))
  \/ registeredClasses (apply op lib) = [].
Proof.
  intros H. destruct op as [typed now|id|now session]; simpl.
  - unfold handleAddClass. cbn [newClassName type_name].
    destruct (truthy (trim typed)); cbn [negb fst registeredClasses stored];
      [left; reflexivity|exact H].
  - left. reflexivity.
  - unfold handleSaveSession.
    destruct (Session.className session) as [target|]; [|exact H].
    destruct (truthy target); cbn [negb fst registeredClasses stored];
      [left; reflexivity|exact H].
Qed.

(** C10: from a library in which every stored session carries the name of
    its class, every sequence of add-class, delete-class and save-session
    operations leads to such a library; and a session saved into a class
    found by a match without regard to case is stored under the name the
    class has, not under the spelling the session came with. *)
Theorem C10_sessions_carry_class_name ops lib :
  names_agree (registeredClasses lib) ->
  names_agree (registeredClasses (run ops lib))
  /\ (forall now session target targetClass,
        Session.className session = Some target ->
        target <> "" ->
        find (name_matches target) (registeredClasses (run ops lib))
        = Some targetClass ->
        In (add_session session targetClass)
          (registeredClasses (fst (handleSaveSession now session (run ops lib))))
        /\ last (RegisteredClass.sessions (add_session session targetClass))
             session
           = Session.with_className session (RegisteredClass.name targetClass)).
Proof.
  intros H. split.
  - revert lib H. induction ops as [|op rest IH]; intros lib H; [exact H|].
    simpl. apply IH. apply names_agree_apply. exact H.
  - intros now session target targetClass Hn Ht Hf.
    split; [|simpl; apply last_last].
    unfold handleSaveSession. rewrite Hn, (truthy_nonempty Ht).
    cbn [negb fst registeredClasses].
    apply save_into_found. exact Hf.
Qed.

Lemma C10_sessions_carry_class_name_witness :
  let ops :=
    [AddClass " Math " 1; SaveSession 7 Scenario.shouted; DeleteClass "9";
     SaveSession 8 (Session.with_className Scenario.shouted "Physics")] in
  names_agree (registeredClasses no_classes)
  /\ names_agree (registeredClasses (run ops no_classes)).
Proof.
  split; [exact names_agree_nil|].
  destruct (@C10_sessions_carry_class_name
              [AddClass " Math " 1; SaveSession 7 Scenario.shouted; DeleteClass "9";
               SaveSession 8 (Session.with_className Scenario.shouted "Physics")]
              no_classes names_agree_nil) as [H _].
  exact H.
Defined.

End LibraryFacts.

(** ** AudioFrameEncoder: the payload *)

Module EncoderFacts.

Import Audio AudioFacts.

Lemma code_range c : (0 <= code c < 256)%Z.
Proof. unfold code. pose proof (nat_ascii_bounded c). lia. Qed.

Lemma char_of_code_code c : char_of_code (code c) = c.
Proof. unfold char_of_code, code. rewrite Nat2Z.id. apply ascii_nat_embedding. Qed.

Lemma code_char_of_code n : (0 <= n < 256)%Z -> code (char_of_code n) = n.
Proof.
  intros H. unfold char_of_code, code. rewrite nat_ascii_embedding by lia. lia.
Qed.

(** The digits of the alphabet are told apart, and none is the padding. *)
Lemma base64_digit_value n :
  (0 <= n < 64)%Z ->
  base64_value (base64_digit n) = Some n /\ is_pad (base64_digit n) = false.
Proof.
  intros H. assert (E : n = Z.of_nat (Z.to_nat n)) by lia.
  assert (B : (Z.to_nat n < 64)%nat) by lia.
  rewrite E. generalize dependent (Z.to_nat n). clear. intros k _ B.
  do 64 (destruct k as [|k]; [split; reflexivity|]). lia.
Qed.

Lemma bytes_of_binary_of_bytes bytes :
  Forall (fun b => (0 <= b < 256)%Z) bytes ->
  bytes_of_binary (binary_of_bytes bytes) = bytes.
Proof.
  induction 1 as [|b rest Hb _ IH]; simpl; [reflexivity|].
  rewrite IH. f_equal. apply code_char_of_code. exact Hb.
Qed.

Lemma binary_of_bytes_length bytes :
  String.length (binary_of_bytes bytes) = List.length bytes.
Proof. induction bytes; simpl; congruence. Qed.

(** Induction on strings three code units at a time. *)
Lemma string_ind3 (P : string -> Prop) :
  P EmptyString ->
  (forall a, P (String a EmptyString)) ->
  (forall a b, P (String a (String b EmptyString))) ->
  (forall a b c rest, P rest -> P (String a (String b (String c rest)))) ->
  forall s, P s.
Proof.
  intros H0 H1 H2 H3.
  assert (A : forall s, P s /\ (forall a, P (String a s))
                        /\ (forall a b, P (String a (String b s)))).
  { induction s as [|c rest (I0 & I1 & I2)].
    - repeat split; auto.
    - split; [apply I1|]. split; [intros a; apply I2|].
      intros a b. apply H3. exact I0. }
  intros s. apply A.
Qed.

Lemma btoa_length s :
  String.length (btoa s) = (4 * ((String.length s + 2) / 3))%nat.
Proof.
  induction s as [| a | a b | a b c rest IH] using string_ind3;
    try reflexivity.
  cbn [btoa String.length]. rewrite IH.
  replace (S (S (S (String.length rest))) + 2)%nat
    with (String.length rest + 2 + 1 * 3)%nat by lia.
  rewrite Nat.div_add by lia. lia.
Qed.

Lemma atob_btoa s : atob (btoa s) = Some s.
Proof.
  induction s as [| a | a b | a b c rest IH] using string_ind3.
  - reflexivity.
  - pose proof (code_range a) as Ha.
    cbn [btoa atob].
    destruct (@base64_digit_value (code a / 4)) as [E1 _];
      [Z.div_mod_to_equations; lia|].
    destruct (@base64_digit_value (code a mod 4 * 16)) as [E2 _];
      [Z.div_mod_to_equations; lia|].
    rewrite E1, E2. cbn [is_pad Ascii.eqb Bool.eqb andb].
    replace (code a / 4 * 4 + code a mod 4 * 16 / 16)%Z with (code a)
      by (Z.div_mod_to_equations; lia).
    rewrite char_of_code_code. reflexivity.
  - pose proof (code_range a) as Ha. pose proof (code_range b) as Hb.
    cbn [btoa atob].
    destruct (@base64_digit_value (code a / 4)) as [E1 _];
      [Z.div_mod_to_equations; lia|].
    destruct (@base64_digit_value (code a mod 4 * 16 + code b / 16)) as [E2 _];
      [Z.div_mod_to_equations; lia|].
    destruct (@base64_digit_value (code b mod 16 * 4)) as [E3 P3];
      [Z.div_mod_to_equations; lia|].
    rewrite E1, E2, E3, P3. cbn [is_pad Ascii.eqb Bool.eqb andb].
    replace (code a / 4 * 4 + (code a mod 4 * 16 + code b / 16) / 16)%Z
      with (code a) by (Z.div_mod_to_equations; lia).
    replace ((code a mod 4 * 16 + code b / 16) mod 16 * 16 + code b mod 16 * 4 / 4)%Z
      with (code b) by (Z.div_mod_to_equations; lia).
    rewrite !char_of_code_code. reflexivity.
  - pose proof (code_range a) as Ha. pose proof (code_range b) as Hb.
    pose proof (code_range c) as Hc.
    cbn [btoa atob].
    destruct (@base64_digit_value (code a / 4)) as [E1 _];
      [Z.div_mod_to_equations; lia|].
    destruct (@base64_digit_value (code a mod 4 * 16 + code b / 16)) as [E2 _];
      [Z.div_mod_to_equations; lia|].
    destruct (@base64_digit_value (code b mod 16 * 4 + code c / 64)) as [E3 P3];
      [Z.div_mod_to_equations; lia|].
    destruct (@base64_digit_value (code c mod 64)) as [E4 P4];
      [Z.div_mod_to_equations; lia|].
    rewrite E1, E2, E3, E4, P3, P4, IH. cbn [andb].
    replace (code a / 4 * 4 + (code a mod 4 * 16 + code b / 16) / 16)%Z
      with (code a) by (Z.div_mod_to_equations; lia).
    replace ((code a mod 4 * 16 + code b / 16) mod 16 * 16
             + (code b mod 16 * 4 + code c / 64) / 4)%Z
      with (code b) by (Z.div_mod_to_equations; lia).
    replace ((code b mod 16 * 4 + code c / 64) mod 4 * 64 + code c mod 64)%Z
      with (code c) by (Z.div_mod_to_equations; lia).
    rewrite !char_of_code_code. reflexivity.
Qed.

Open Scope Q_scope.

(** X1: the payload of a [Blob] made from N samples is 4 * ceil(2N / 3)
    base64 characters long. *)
Theorem X1_payload_length (samples : list sample) :
  String.length (data (createBlob samples))
  = (4 * ((2 * List.length samples + 2) / 3))%nat.
Proof.
  unfold createBlob, encode. cbn [data].
  rewrite btoa_length, binary_of_bytes_length, pcm_bytes_length. reflexivity.
Qed.

(** X2: the payload of a [Blob] reads back, through base64 decoding, as
    exactly the PCM bytes of the samples, whatever the samples are; so two
    blocks with the same payload have the same PCM bytes. *)
Theorem X2_payload_round_trip :
  (forall samples, payload_bytes (createBlob samples) = Some (pcm_bytes samples))
  /\ (forall a b, data (createBlob a) = data (createBlob b) ->
                  pcm_bytes a = pcm_bytes b).
Proof.
  assert (R : forall samples,
             payload_bytes (createBlob samples) = Some (pcm_bytes samples)).
  { intros samples. unfold payload_bytes, createBlob, encode. cbn [data].
    rewrite atob_btoa. cbn [option_map].
    rewrite bytes_of_binary_of_bytes by apply pcm_bytes_range. reflexivity. }
  split; [exact R|].
  intros a b H. pose proof (R a) as Ha. pose proof (R b) as Hb.
  unfold payload_bytes in *. rewrite H in Ha. congruence.
Qed.

(** X3: whatever the sample, also outside [-1, 1], the stored value is an
    int16, and it differs from the truncated product by a multiple of
    65536. *)
Theorem X3_stored_value_is_int16 (x : sample) :
  (-32768 <= int16_of_sample x <= 32767)%Z
  /\ ((int16_of_sample x - truncate (x * 32768)) mod 65536 = 0)%Z.
Proof.
  unfold int16_of_sample, ToInt16. cbv zeta.
  generalize (truncate (x * 32768)). intros t.
  destruct (Z.leb_spec 32768 (t mod 65536)); split;
    Z.div_mod_to_equations; lia.
Qed.

Lemma truncate_bounds_pos x lo hi :
  (0 <= lo)%Z -> inject_Z lo <= x -> x < inject_Z (hi + 1) ->
  (lo <= truncate x <= hi)%Z.
Proof.
  destruct x as [p q]. unfold Qle, Qlt, truncate. simpl.
  intros Hlo H1 H2.
  assert (Hp : (0 <= p)%Z) by nia.
  pose proof (Z.quot_rem' p (Z.pos q)) as E.
  pose proof (Z.rem_bound_pos p (Z.pos q) Hp ltac:(lia)) as B.
  nia.
Qed.

(** X4: a sample of [1, 2) overflows: it is stored as its truncated
    product minus 65536, a negative value. *)
Theorem X4_positive_overflow_wraps (x : sample) :
  1 <= x -> x < 2 ->
  int16_of_sample x = (truncate (x * 32768) - 65536)%Z
  /\ (int16_of_sample x < 0)%Z.
Proof.
  intros H1 H2.
  assert (B : (32768 <= truncate (x * 32768) <= 65535)%Z).
  { apply truncate_bounds_pos; [lia| |].
    - change (inject_Z 32768) with (1 * 32768). apply Qmult_le_compat_r; [exact H1|].
      discriminate.
    - change (inject_Z (65535 + 1)) with (2 * 32768).
      apply Qmult_lt_compat_r; [reflexivity|exact H2]. }
  unfold int16_of_sample, ToInt16. cbv zeta.
  destruct (Z.leb_spec 32768 (truncate (x * 32768) mod 65536));
    split; Z.div_mod_to_equations; lia.
Qed.

Lemma X4_positive_overflow_wraps_witness :
  1 <= 3 # 2 /\ int16_of_sample (3 # 2) = (-16384)%Z.
Proof.
  assert (H1 : 1 <= 3 # 2) by (unfold Qle; simpl; lia).
  assert (H2 : 3 # 2 < 2) by (unfold Qlt; simpl; lia).
  split; [exact H1|].
  destruct (@X4_positive_overflow_wraps (3 # 2) H1 H2) as [E _]. exact E.
Defined.

Lemma truncate_mono x y : x <= y -> (truncate x <= truncate y)%Z.
Proof.
  destruct x as [p q], y as [p' q']. unfold Qle, truncate. simpl. intros H.
  rewrite <- (Z.quot_mul_cancel_r p (Z.pos q) (Z.pos q')) by lia.
  rewrite <- (Z.quot_mul_cancel_r p' (Z.pos q') (Z.pos q)) by lia.
  rewrite (Z.mul_comm (Z.pos q') (Z.pos q)).
  apply Z.quot_le_mono; lia.
Qed.

(** X5: on [-1, 1) the quantizer keeps the order of the samples, and it
    keeps their sign: a sample that is not negative is stored as a value
    that is not negative, a sample that is not positive as one that is not
    positive. *)
Theorem X5_quantizer_keeps_order (x y : sample) :
  in_range x -> in_range y -> x <= y ->
  (int16_of_sample x <= int16_of_sample y)%Z
  /\ (0 <= x -> (0 <= int16_of_sample x)%Z)
  /\ (x <= 0 -> (int16_of_sample x <= 0)%Z).
Proof.
  intros [Hx1 Hx2] [Hy1 Hy2] H.
  destruct (int16_of_sample_in_range Hx1 Hx2) as [Ex _].
  destruct (int16_of_sample_in_range Hy1 Hy2) as [Ey _].
  rewrite Ex, Ey.
  assert (M : forall a b, a <= b -> (truncate (a * 32768) <= truncate (b * 32768))%Z).
  { intros a b Hab. apply truncate_mono. apply Qmult_le_compat_r; [exact Hab|].
    discriminate. }
  split; [apply M; exact H|]. split; intros H0.
  - apply (M 0 x H0).
  - apply (M x 0 H0).
Qed.

Lemma X5_quantizer_keeps_order_witness :
  in_range (- (1 # 2)) /\ in_range (1 # 3)
  /\ (int16_of_sample (- (1 # 2))%Q <= int16_of_sample (1 # 3)%Q)%Z.
Proof.
  assert (Hx : in_range (- (1 # 2))) by (split; unfold Qle, Qlt; simpl; lia).
  assert (Hy : in_range (1 # 3)) by (split; unfold Qle, Qlt; simpl; lia).
  assert (H : - (1 # 2) <= 1 # 3) by (unfold Qle; simpl; lia).
  split; [exact Hx|]. split; [exact Hy|].
  destruct (@X5_quantizer_keeps_order _ _ Hx Hy H) as [E _]. exact E.
Defined.

End EncoderFacts.

(** ** TranscriptionChannel: the life of the hook *)

Module HookFacts.

Import World Speech.
Open Scope string_scope.

(** X6: [stopListening] tears everything down once.  After it the hook is
    not listening; if it was listening it now holds no session, audio
    context or audio node, and it closed the session exactly when it held
    one.  A second call changes nothing and does nothing. *)
Theorem X6_stopListening_is_idempotent (h : Hook) :
  isListening (fst (stopListening h)) = false
  /\ (isListening h = true -> holds_nothing (fst (stopListening h)) = true)
  /\ List.length (filter is_close (snd (stopListening h)))
     = (if isListening h && sessionRef h then 1 else 0)%nat
  /\ stopListening (fst (stopListening h)) = (fst (stopListening h), []).
Proof.
  unfold stopListening, holds_nothing.
  destruct h as [l e s a p m t]. cbn [isListening sessionRef audioContextRef
    scriptProcessorRef mediaStreamSourceRef].
  destruct l; cbn [negb fst snd isListening]; [|repeat split; congruence].
  repeat split; destruct p, m, a, s; reflexivity.
Qed.

(** X7: [stopListening] releases what the hook holds when it is called,
    and nothing that arrives afterwards.  When it is called while the
    connection is still being made, it finds no session to close; the
    connection then opens and resolves all the same, and stores its audio
    nodes and its session in a hook that is not listening.  From there
    [stopListening] returns at once, so it does not close that session,
    and [startListening], which never closes one, makes a second
    connection while the first is still held. *)
Theorem X7_stop_while_connecting_keeps_the_session (h : Hook) :
  isListening h = false ->
  sessionRef h = false ->
  let stopped := fst (stopListening (connecting h)) in
  let late := connected (onopen stopped) in
  (forall env,
     has_key env = true -> audioContext env = Ok tt -> connect env = Ok tt ->
     fst (startListening env h) = connected (connecting h))
  /\ holds_nothing stopped = true
  /\ existsb is_close (snd (stopListening (connecting h))) = false
  /\ late = onopen (connected stopped)
  /\ isListening late = false
  /\ sessionRef late = true
  /\ scriptProcessorRef late = true
  /\ mediaStreamSourceRef late = true
  /\ stopListening late = (late, [])
  /\ (forall env, existsb is_close (snd (startListening env late)) = false)
  /\ (forall env,
        has_key env = true -> audioContext env = Ok tt -> connect env = Ok tt ->
        existsb is_connect (snd (startListening env late)) = true
        /\ isListening (fst (startListening env late)) = true).
Proof.
  intros L S. cbv zeta.
  split.
  { intros env K A C. unfold startListening, connecting, connected.
    rewrite L, K, A, C. reflexivity. }
  unfold stopListening at 1 2 3 4 5 6 7 8. cbn [connecting isListening negb fst snd
    sessionRef audioContextRef scriptProcessorRef mediaStreamSourceRef].
  rewrite S.
  split; [reflexivity|].
  split; [destruct (scriptProcessorRef h), (mediaStreamSourceRef h); reflexivity|].
  do 6 (split; [reflexivity|]).
  split.
  - intros env. unfold startListening. cbn.
    destruct (negb (has_key env)); [reflexivity|].
    destruct (audioContext env); [destruct (connect env)|]; reflexivity.
  - intros env K A C. unfold startListening. cbn. rewrite K, A, C. split; reflexivity.
Qed.

Lemma X7_stop_while_connecting_keeps_the_session_witness :
  isListening fresh = false
  /\ sessionRef (connected (onopen (fst (stopListening (connecting fresh))))) = true
  /\ stopListening (connected (onopen (fst (stopListening (connecting fresh)))))
     = (connected (onopen (fst (stopListening (connecting fresh)))), []).
Proof.
  split; [reflexivity|].
  destruct (@X7_stop_while_connecting_keeps_the_session fresh eq_refl eq_refl)
    as (_ & _ & _ & _ & _ & H1 & _ & _ & H2 & _).
  split; [exact H1|exact H2].
Defined.

(** X8: when the connection cannot be opened, [startListening] records
    the error but leaves the hook marked as listening, with its audio
    context open; every further [startListening] is then refused without
    any action, until [stopListening] has released the context. *)
Theorem X8_failed_connection_leaves_hook_listening env h e :
  has_key env = true ->
  isListening h = false ->
  audioContext env = Ok tt ->
  connect env = Throw e ->
  isListening (fst (startListening env h)) = true
  /\ error (fst (startListening env h)) = not_started e
  /\ audioContextRef (fst (startListening env h)) = true
  /\ sessionRef (fst (startListening env h)) = sessionRef h
  /\ (forall env', startListening env' (fst (startListening env h))
                   = (fst (startListening env h), []))
  /\ isListening (fst (stopListening (fst (startListening env h)))) = false
  /\ audioContextRef (fst (stopListening (fst (startListening env h)))) = false.
Proof.
  intros Hk Hl Ha Hc.
  assert (E : startListening env h
              = (set_error
                   {| isListening := true; error := None; sessionRef := sessionRef h;
                      audioContextRef := true;
                      scriptProcessorRef := scriptProcessorRef h;
                      mediaStreamSourceRef := mediaStreamSourceRef h;
                      currentTurnTranscription := "" |} (not_started e),
                 [world newGoogleGenAI; world newAudioContext; world liveConnect;
                  world (consoleError "Failed to start listening:")])).
  { unfold startListening. rewrite Hl, Hk, Ha, Hc. reflexivity. }
  rewrite E. cbn [fst].
  do 4 (split; [reflexivity|]). split; [|split; reflexivity].
  intros env'. reflexivity.
Qed.

Lemma X8_failed_connection_leaves_hook_listening_witness :
  let env :=
    {| API_KEY := Some "key"; mediaDevices := Ok 1%Z; audioContext := Ok tt;
       connect := Throw "network down";
       notes_reply := fun _ => Ok (Some ""); summary_reply := fun _ _ => Ok (Some "");
       subject_reply := fun _ => EmptyText;
       className_reply := fun _ => EmptyText |} in
  has_key env = true
  /\ isListening (fst (startListening env fresh)) = true.
Proof.
  split; [reflexivity|].
  match goal with |- isListening (fst (startListening ?env _)) = _ =>
    destruct (@X8_failed_connection_leaves_hook_listening env fresh "network down"
                eq_refl eq_refl eq_refl eq_refl) as [H _]
  end.
  exact H.
Defined.

End HookFacts.

(** ** JavaScript strings: more on trimming *)

Module TrimFacts.

Import JsString JsStringFacts.
Open Scope string_scope.

Lemma trimEnd_idem s : trimEnd (trimEnd s) = trimEnd s.
Proof.
  induction s as [|c r IH]; simpl; auto.
  destruct (trimEnd r) as [|d t] eqn:E.
  - destruct (is_ws c) eqn:W; simpl; rewrite ?W; reflexivity.
  - simpl in *. rewrite IH. reflexivity.
Qed.

(** A string that starts with something else than white space keeps its
    first code unit under [trimEnd]. *)
Lemma trimEnd_head c r :
  is_ws c = false -> exists t, trimEnd (String c r) = String c t.
Proof.
  intros W. simpl. destruct (trimEnd r); rewrite ?W; eauto.
Qed.

(** What is left of a trim starts with something else than white space. *)
Lemma trim_head s :
  trim s = "" \/ exists c t, trim s = String c t /\ is_ws c = false.
Proof.
  unfold trim. induction s as [|c r IH]; simpl; auto.
  destruct (is_ws c) eqn:W; [exact IH|].
  right. destruct (@trimEnd_head c r W) as [t E]. exists c, t. split; assumption.
Qed.

Lemma trim_idem s : trim (trim s) = trim s.
Proof.
  destruct (trim_head s) as [E|(c & t & E & W)].
  - rewrite E. reflexivity.
  - unfold trim at 1. rewrite E, (@trimStart_fixed c t W), <- E.
    unfold trim. apply trimEnd_idem.
Qed.

Lemma truthy_blank s : truthy (trim s) = negb (blank s).
Proof.
  destruct (blank s) eqn:B.
  - rewrite (@trim_blank s B). reflexivity.
  - destruct (trim s) eqn:E; [|reflexivity].
    unfold trim in E. apply trimEnd_empty_blank in E.
    rewrite blank_trimStart in E. congruence.
Qed.

Lemma solid_trim s : App.solid (trim s) = true.
Proof.
  destruct (trim_head s) as [E|(c & t & E & W)]; rewrite E; simpl;
    [reflexivity|]. rewrite W. reflexivity.
Qed.

Lemma solid_app a b :
  App.solid a = true -> (a = "" -> App.solid b = true) -> App.solid (a ++ b) = true.
Proof. destruct a; simpl; auto. Qed.

(** A committed chunk keeps the committed text as the turns build it. *)
Lemma solid_app_chunk a x :
  App.solid a = true -> truthy (trim x) = true ->
  App.solid (a ++ trim x ++ " ") = true.
Proof.
  intros H T. apply solid_app; [exact H|]. intros _.
  apply solid_app; [apply solid_trim|].
  intros E. rewrite E in T. discriminate.
Qed.

(** The trim of committed text, a space and interim text, for a committed
    text as the turns build it. *)
Lemma trim_joined_committed full interim :
  App.solid full = true -> blank interim = false ->
  trim (full ++ " " ++ interim)
  = if truthy full then full ++ " " ++ trimEnd interim else trim interim.
Proof.
  intros S B. destruct full as [|c r]; cbn [truthy].
  - apply trim_joined_empty. exact B.
  - simpl in S. apply negb_true_iff in S. apply trim_joined_solid; assumption.
Qed.

End TrimFacts.

(** ** GenerativeTextClient *)

Module GeminiFacts.

Import World JsString JsStringFacts TrimFacts Gemini.
Open Scope string_scope.

Lemma getAiClient_without_key env :
  has_key env = false -> getAiClient env = Throw no_key_error.
Proof. intros H. unfold getAiClient. rewrite H. reflexivity. Qed.

Lemma or_else_nonempty a b : b <> "" -> or_else a b <> "".
Proof. unfold or_else. destruct a; simpl; [auto|discriminate]. Qed.

Lemma field_or_nonempty fallback reply r :
  fallback <> "" -> field_or fallback reply = Ok r -> r <> "".
Proof.
  intros F. destruct reply as [e| |v]; simpl; intros H; inversion H; subst;
    [exact F|apply or_else_nonempty; exact F].
Qed.

Lemma identifySubject_nonempty env text r :
  identifySubject env text = Ok r -> r <> "".
Proof.
  unfold identifySubject. destruct (negb (truthy (trim text))).
  - intros H. inversion H. discriminate.
  - destruct (getAiClient env); simpl; [|discriminate].
    apply field_or_nonempty. discriminate.
Qed.

Lemma generateClassName_nonempty env text r :
  generateClassNameFromTranscript env text = Ok r -> r <> "".
Proof.
  unfold generateClassNameFromTranscript. destruct (negb (truthy (trim text))).
  - intros H. inversion H. discriminate.
  - destruct (getAiClient env); simpl; [|discriminate].
    apply field_or_nonempty. discriminate.
Qed.

(** X14: every text call of the service answers a blank input with its
    fixed default, without looking at the credential and without a
    request; with an input that is not blank and no credential, every one
    fails with the error of [getAiClient]; and neither [identifySubject]
    nor [generateClassNameFromTranscript] ever returns an empty string. *)
Theorem X14_text_calls_guard_their_input env text subject reply :
  (blank text = true ->
   structureNotes env text = Ok (Some "")
   /\ generateFinalSummary env text subject = Ok (Some "No content to summarize.")
   /\ identifySubject env text = Ok "Unknown"
   /\ generateClassNameFromTranscript env text = Ok "Untitled Recording"
   /\ generateQuiz env reply text = Ok [])
  /\ (blank text = false -> has_key env = false ->
      structureNotes env text = Throw no_key_error
      /\ generateFinalSummary env text subject = Throw no_key_error
      /\ identifySubject env text = Throw no_key_error
      /\ generateClassNameFromTranscript env text = Throw no_key_error
      /\ generateQuiz env reply text = Throw no_key_error)
  /\ (forall r, identifySubject env text = Ok r -> r <> "")
  /\ (forall r, generateClassNameFromTranscript env text = Ok r -> r <> "").
Proof.
  split; [|split; [|split]].
  - intros B. unfold structureNotes, generateFinalSummary, identifySubject,
      generateClassNameFromTranscript, generateQuiz.
    rewrite truthy_blank, B. repeat split.
  - intros B K. unfold structureNotes, generateFinalSummary, identifySubject,
      generateClassNameFromTranscript, generateQuiz.
    rewrite truthy_blank, B, (getAiClient_without_key _ K). repeat split.
  - apply identifySubject_nonempty.
  - apply generateClassName_nonempty.
Qed.

End GeminiFacts.

(** ** SessionOrchestrator: the events of a session *)

Module LiveFacts.

Import World JsString JsStringFacts TrimFacts App SessionFacts.
Open Scope string_scope.

Lemma receive_change e s :
  committed_chunk e -> change (live s) (live (fst (receive e s))).
Proof.
  destruct e as [chunk|x| |a]; cbn.
  - intros (x & -> & T). apply (change_commit (live s) x T).
  - intros _. apply change_interim.
  - intros _. apply change_none.
  - intros _. apply change_none.
Qed.

Lemma receive_all_change es : forall s,
  Forall committed_chunk es -> change (live s) (live (fst (receive_all es s))).
Proof.
  induction es as [|e rest IH]; intros s H; [apply change_none|].
  inversion H as [|? ? He Hrest]; subst. cbn [receive_all].
  pose proof (@receive_change e s He) as C1.
  destruct (receive e s) as [s1 a1]. cbn [fst] in C1.
  specialize (IH s1 Hrest). destruct (receive_all rest s1) as [s2 a2].
  eapply change_then; eassumption.
Qed.

Lemma onmessage_chunks h m : Forall committed_chunk (snd (Speech.onmessage h m)).
Proof.
  unfold Speech.onmessage.
  destruct (Speech.serverContent m) as [content|]; [|constructor].
  destruct (Speech.inputTranscription content) as [tr|]; [|constructor].
  destruct (Speech.turnComplete content); cbn [snd].
  - constructor; [exact I|].
    destruct (truthy (trim _)) eqn:T; cbn; repeat constructor.
    eexists. split; [reflexivity|exact T].
  - repeat constructor.
Qed.

Lemma stopListening_chunks h : Forall committed_chunk (snd (Speech.stopListening h)).
Proof.
  unfold Speech.stopListening. destruct (negb (Speech.isListening h)); cbn [snd];
    [constructor|].
  destruct (Speech.scriptProcessorRef h), (Speech.mediaStreamSourceRef h),
    (Speech.audioContextRef h), (Speech.sessionRef h); repeat constructor.
Qed.

Lemma stopListening_of_change c s :
  change (live s) (live (fst (stopListening_of c s))).
Proof.
  unfold stopListening_of. destruct c; cbn [negb]; [|apply change_none].
  match goal with |- context [Speech.stopListening ?h] =>
    pose proof (stopListening_chunks h) as F;
    destruct (Speech.stopListening h) as [h' effects] end.
  cbn [snd] in F. apply (receive_all_change (with_speech s h') F).
Qed.

Lemma handleApiError_change a c err s :
  change (live s) (live (fst (handleApiError a c err s))).
Proof.
  unfold handleApiError. destruct (is_auth_error err); [|apply change_none].
  destruct (is_active a); [|apply change_none].
  pose proof (stopListening_of_change c (with_isApiKeySelected s (Some false))) as C.
  destruct (stopListening_of c (with_isApiKeySelected s (Some false))) as [s2 a2].
  pose proof (releaseMedia_frame s2) as G.
  destruct (releaseMedia s2) as [s3 a3]. cbn [fst] in *. cbv zeta in G.
  destruct G as (_ & _ & _ & _ & _ & _ & G7 & _).
  simpl in *. rewrite G7. exact C.
Qed.

Lemma receive_message_change m s :
  change (live s) (live (fst (receive_message m s))).
Proof.
  unfold receive_message.
  pose proof (onmessage_chunks (speech s) m) as F.
  destruct (Speech.onmessage (speech s) m) as [h effects]. cbn [snd] in F.
  apply (receive_all_change (with_speech s h) F).
Qed.

Lemma focusTick_change c k s :
  change (live s) (live (fst (focusTick c k s))).
Proof.
  unfold focusTick.
  destruct (appState s); try apply change_none.
  destruct (mediaStreamRef s); [|apply change_none].
  unfold Focus.analyzeFrame.
  destruct (Focus.ready k); cbn [negb]; [|apply change_none].
  destruct (Focus.context2d k); cbn [negb]; [|apply change_none].
  destruct (Focus.classified k) as [r|e].
  - set (p := {| Focus.timestamp := Focus.now k; Focus.score := Gemini.score r |}).
    destruct (Focus.below (Gemini.score r) 60) eqn:B.
    + destruct (Nat.eqb (S (Focus.lowFocusCounter (tracker s))) 1);
        destruct (Focus.is_zero (Gemini.score r) && negb (Focus.teacherAlertSent (tracker s)));
        cbn; try apply (change_sample (live s) p);
        (eapply change_then; [apply (change_sample (live s) p)|]);
        match goal with |- change ?l _ =>
          apply (@change_mark l p); [cbn; apply in_or_app; right; left; reflexivity
                                    |exact B] end.
    + cbn. apply (change_sample (live s) p).
  - cbn [tracker_calls tracker_call].
    match goal with |- context [handleApiError ?a ?b ?e ?x] =>
      pose proof (handleApiError_change a b e x) as C;
      destruct (handleApiError a b e x) as [s1 a1] end.
    cbn in *. exact C.
Qed.

Lemma processTranscriptPeriodically_change env c s :
  change (live s) (live (fst (processTranscriptPeriodically env c s))).
Proof.
  unfold processTranscriptPeriodically, detection_begin.
  destruct (detection_due s); [|apply change_none].
  unfold detection_end.
  destruct (Gemini.identifySubject env _) as [x|err].
  - cbn. apply change_subject.
  - match goal with |- context [handleApiError ?a ?b ?e ?x] =>
      pose proof (handleApiError_change a b e x) as C;
      destruct (handleApiError a b e x) as [s1 a1] end.
    cbn in *. exact C.
Qed.

Lemma channelError_change c s :
  change (live s) (live (fst (channelError c s))).
Proof.
  unfold channelError, Speech.onerror, errorEffect. cbn.
  apply change_none.
Qed.

Lemma step_change env e s : change (live s) (live (fst (step env e s))).
Proof.
  destruct e as [m| |c k|c|c|]; cbn [step].
  - apply receive_message_change.
  - apply change_interim.
  - apply focusTick_change.
  - destruct (Speech.isListening (speech s)); [|apply change_none].
    apply processTranscriptPeriodically_change.
  - apply channelError_change.
  - apply change_none.
Qed.

Lemma run_change env es : forall s, change (live s) (live (fst (run env es s))).
Proof.
  induction es as [|e rest IH]; intros s; [apply change_none|].
  cbn [run]. pose proof (step_change env e s) as C1.
  destruct (step env e s) as [s1 a1]. cbn [fst] in C1.
  specialize (IH s1). destruct (run env rest s1) as [s2 a2].
  eapply change_then; eassumption.
Qed.

Lemma change_grows l l' : change l l' -> grows l l'.
Proof.
  induction 1 as [l|l x|l x T|l p|l p Hp B|l x|l1 l2 l3 _ (t1 & h1 & m1 & A1 & B1 & C1)
                                                     _ (t2 & h2 & m2 & A2 & B2 & C2)].
  - exists "", [], []. cbn. rewrite append_empty_r, !app_nil_r. auto.
  - exists "", [], []. cbn. rewrite append_empty_r, !app_nil_r. auto.
  - exists (trim x ++ " "), [], []. cbn. rewrite !app_nil_r. auto.
  - exists "", [p], []. cbn. rewrite append_empty_r, !app_nil_r. auto.
  - exists "", [], [Focus.timestamp p]. cbn. rewrite append_empty_r, !app_nil_r. auto.
  - exists "", [], []. cbn. rewrite append_empty_r, !app_nil_r. auto.
  - exists (t1 ++ t2), (h1 ++ h2)%list, (m1 ++ m2)%list.
    rewrite A2, A1, B2, B1, C2, C1, append_assoc, <- !app_assoc. auto.
Qed.

Lemma change_solid l l' :
  change l l' ->
  solid (Live.fullTranscript l) = true -> solid (Live.fullTranscript l') = true.
Proof.
  induction 1; cbn; auto. intros S. apply solid_app_chunk; assumption.
Qed.

Lemma change_marks l l' : change l l' -> marks_recorded l -> marks_recorded l'.
Proof.
  induction 1 as [l|l x|l x T|l p|l p Hp B|l x|l1 l2 l3 _ I1 _ I2]; auto;
    intros M t Ht; cbn in *.
  - destruct (M t Ht) as (q & Hq & E). exists q. split; [|exact E].
    apply in_or_app. left. exact Hq.
  - apply in_app_or in Ht. destruct Ht as [Ht|[<-|[]]]; [apply M; exact Ht|].
    exists p. auto.
Qed.

(** What no event of a session touches: the session record and the class
    library. *)
Lemma tracker_calls_frame c cs : forall s,
  sessionData (fst (tracker_calls c cs s)) = sessionData s
  /\ library (fst (tracker_calls c cs s)) = library s.
Proof.
  induction cs as [|x rest IH]; intros s; [split; reflexivity|].
  cbn [tracker_calls].
  assert (F : sessionData (fst (tracker_call c x s)) = sessionData s
              /\ library (fst (tracker_call c x s)) = library s).
  { destruct x; cbn; try (split; reflexivity).
    pose proof (handleApiError_frame ACTIVE c err s) as H. cbv zeta in H.
    destruct H as (H1 & _ & H3 & _). split; assumption. }
  destruct (tracker_call c x s) as [s1 a1]. cbn [fst] in F.
  specialize (IH s1). destruct (tracker_calls c rest s1) as [s2 a2].
  cbn [fst] in *. destruct IH, F. split; congruence.
Qed.

Lemma step_frame env e s :
  sessionData (fst (step env e s)) = sessionData s
  /\ library (fst (step env e s)) = library s.
Proof.
  destruct e as [m| |c k|c|c|]; cbn [step]; try (split; reflexivity).
  - unfold receive_message.
    destruct (Speech.onmessage (speech s) m) as [h effects].
    destruct (receive_all_frame effects (with_speech s h))
      as (_ & A2 & _ & _ & _ & _ & A7 & _).
    split; assumption.
  - unfold focusTick. destruct (appState s); try (split; reflexivity).
    destruct (mediaStreamRef s); [|split; reflexivity].
    destruct (Focus.analyzeFrame (tracker_className s) (tracker s) k) as [t calls].
    apply (tracker_calls_frame c calls (with_tracker s t)).
  - destruct (Speech.isListening (speech s)); [|split; reflexivity].
    unfold processTranscriptPeriodically, detection_begin.
    destruct (detection_due s); [|split; reflexivity].
    unfold detection_end. destruct (Gemini.identifySubject env _) as [x|err];
      [split; reflexivity|].
    match goal with |- context [handleApiError ?a ?b ?e ?x] =>
      pose proof (handleApiError_frame a b e x) as H;
      destruct (handleApiError a b e x) as [s1 a1] end.
    cbv zeta in H. cbn in *. destruct H as (H1 & _ & H3 & _). split; assumption.
Qed.

Lemma run_frame env es : forall s,
  sessionData (fst (run env es s)) = sessionData s
  /\ library (fst (run env es s)) = library s.
Proof.
  induction es as [|e rest IH]; intros s; [split; reflexivity|].
  cbn [run]. pose proof (step_frame env e s) as F.
  destruct (step env e s) as [s1 a1]. cbn [fst] in F.
  specialize (IH s1). destruct (run env rest s1) as [s2 a2].
  cbn [fst] in *. destruct IH, F. split; congruence.
Qed.

(** X9: during a session, whatever messages, timers, samples, errors and
    renders come and in whatever order, the committed transcript, the
    focus history and the low-focus marks are only added to at their end,
    and neither the session record nor the class library is touched. *)
Theorem X9_session_accumulators_only_grow env es s :
  grows (live s) (live (fst (run env es s)))
  /\ sessionData (fst (run env es s)) = sessionData s
  /\ library (fst (run env es s)) = library s.
Proof.
  split; [apply change_grows, run_change | apply run_frame].
Qed.

(** X10: the committed transcript of a session is empty or starts with
    something else than white space, at every moment of the session; so
    when the session ends with interim text that is not blank, the final
    transcript is the committed text, one space and the interim text
    without its trailing white space, or the trimmed interim text alone
    when nothing was committed. *)
Theorem X10_final_transcript_of_a_session env es s :
  solid (Live.fullTranscript (live s)) = true ->
  solid (Live.fullTranscript (live (fst (run env es s)))) = true
  /\ (blank (Live.interimTranscript (live (fst (run env es s)))) = false ->
      finalTranscript_of (sessionStateRef (mirror (fst (run env es s))))
      = if truthy (Live.fullTranscript (live (fst (run env es s))))
        then Live.fullTranscript (live (fst (run env es s))) ++ " "
             ++ trimEnd (Live.interimTranscript (live (fst (run env es s))))
        else trim (Live.interimTranscript (live (fst (run env es s))))).
Proof.
  intros S. pose proof (change_solid (run_change env es s) S) as S'.
  split; [exact S'|]. intros B. unfold finalTranscript_of. cbn [mirror sessionStateRef].
  apply trim_joined_committed; assumption.
Qed.

Lemma X10_final_transcript_of_a_session_witness :
  let es := [Message (Speech.transcript_message "hello" true); InterimTimer;
             Message (Speech.transcript_message "wor " false)] in
  solid (Live.fullTranscript (live Scenario.started)) = true
  /\ finalTranscript_of
       (sessionStateRef (mirror (fst (run Scenario.configured es Scenario.started))))
     = "hello  wor".
Proof.
  split; [reflexivity|].
  match goal with |- finalTranscript_of (sessionStateRef (mirror (fst (run ?env ?es ?s)))) = _ =>
    destruct (@X10_final_transcript_of_a_session env es s eq_refl) as [_ H] end.
  apply (H eq_refl).
Defined.

(** X11: every low-focus mark of a session is the time of a sample that
    is recorded in the focus history with a score below 60; this holds
    from the start of the session through all its events. *)
Theorem X11_low_focus_marks_are_recorded_samples env es s :
  marks_recorded (live s) ->
  marks_recorded (live (fst (run env es s))).
Proof. apply change_marks, run_change. Qed.

Lemma marks_recorded_cleared : marks_recorded Live.cleared.
Proof. intros t []. Qed.

Lemma X11_low_focus_marks_are_recorded_samples_witness :
  let es := [FocusTick true (Focus.scored 2000 40); Render;
             FocusTick true (Focus.scored 4000 0);
             FocusTick true (Focus.scored 6000 90);
             FocusTick true (Focus.scored 8000 10)] in
  marks_recorded (live Scenario.started)
  /\ marks_recorded (live (fst (run Scenario.configured es Scenario.started)))
  /\ Live.lowFocusTimestamps (live (fst (run Scenario.configured es Scenario.started)))
     = [2000; 8000]%Z.
Proof.
  split; [exact marks_recorded_cleared|]. split; [|reflexivity].
  exact (@X11_low_focus_marks_are_recorded_samples Scenario.configured
           [FocusTick true (Focus.scored 2000 40); Render;
            FocusTick true (Focus.scored 4000 0);
            FocusTick true (Focus.scored 6000 90);
            FocusTick true (Focus.scored 8000 10)]
           Scenario.started marks_recorded_cleared).
Defined.

(** *** The subject *)

Lemma receive_all_subject es : forall s,
  Live.subject (live (fst (receive_all es s))) = Live.subject (live s).
Proof.
  induction es as [|e rest IH]; intros s; [reflexivity|].
  cbn [receive_all].
  assert (F : Live.subject (live (fst (receive e s))) = Live.subject (live s))
    by (destruct e; reflexivity).
  destruct (receive e s) as [s1 a1]. cbn [fst] in F.
  specialize (IH s1). destruct (receive_all rest s1) as [s2 a2].
  cbn [fst] in *. congruence.
Qed.

Lemma handleApiError_subject a c err s :
  Live.subject (live (fst (handleApiError a c err s))) = Live.subject (live s)
  /\ sessionStateRef (fst (handleApiError a c err s)) = sessionStateRef s.
Proof.
  unfold handleApiError. destruct (is_auth_error err); [|split; reflexivity].
  destruct (is_active a); [|split; reflexivity].
  assert (S : Live.subject (live (fst (stopListening_of c (with_isApiKeySelected s (Some false)))))
              = Live.subject (live s)).
  { unfold stopListening_of. destruct c; cbn [negb]; [|reflexivity].
    destruct (Speech.stopListening _) as [h' effects].
    rewrite receive_all_subject. reflexivity. }
  pose proof (stopListening_of_frame c (with_isApiKeySelected s (Some false))) as F.
  destruct (stopListening_of c (with_isApiKeySelected s (Some false))) as [s2 a2].
  pose proof (releaseMedia_frame s2) as G.
  destruct (releaseMedia s2) as [s3 a3]. cbn [fst] in *. cbv zeta in F, G.
  destruct F as (_ & _ & _ & F4 & _). destruct G as (_ & _ & G3 & _ & _ & _ & G7 & _).
  cbn in *. rewrite G7. split; congruence.
Qed.

Lemma tracker_calls_subject c cs : forall s,
  Live.subject (live (fst (tracker_calls c cs s))) = Live.subject (live s)
  /\ sessionStateRef (fst (tracker_calls c cs s)) = sessionStateRef s.
Proof.
  induction cs as [|x rest IH]; intros s; [split; reflexivity|].
  cbn [tracker_calls].
  assert (F : Live.subject (live (fst (tracker_call c x s))) = Live.subject (live s)
              /\ sessionStateRef (fst (tracker_call c x s)) = sessionStateRef s).
  { destruct x; cbn; try (split; reflexivity). apply handleApiError_subject. }
  destruct (tracker_call c x s) as [s1 a1]. cbn [fst] in F.
  specialize (IH s1). destruct (tracker_calls c rest s1) as [s2 a2].
  cbn [fst] in *. destruct IH, F. split; congruence.
Qed.

(** Once the ref holds a subject, and the same as the cell, no event
    changes either. *)
Lemma subject_settled_step env e s :
  truthy (Live.subject (sessionStateRef s)) = true ->
  Live.subject (live s) = Live.subject (sessionStateRef s) ->
  Live.subject (live (fst (step env e s))) = Live.subject (live s)
  /\ Live.subject (sessionStateRef (fst (step env e s))) = Live.subject (live s).
Proof.
  intros T E. destruct e as [m| |c k|c|c|]; cbn [step].
  - unfold receive_message. destruct (Speech.onmessage (speech s) m) as [h effects].
    rewrite receive_all_subject.
    destruct (receive_all_frame effects (with_speech s h)) as (_ & _ & _ & A4 & _).
    rewrite A4. cbn. split; congruence.
  - cbn. split; congruence.
  - unfold focusTick. destruct (appState s); try (cbn; split; congruence).
    destruct (mediaStreamRef s); [|cbn; split; congruence].
    destruct (Focus.analyzeFrame (tracker_className s) (tracker s) k) as [t calls].
    destruct (tracker_calls_subject c calls (with_tracker s t)) as [A B].
    rewrite A, B. cbn. split; congruence.
  - assert (D : detection_due s = false).
    { unfold detection_due. rewrite T. reflexivity. }
    unfold processTranscriptPeriodically, detection_begin. rewrite D.
    destruct (Speech.isListening (speech s)); cbn; split; congruence.
  - cbn. split; congruence.
  - cbn. split; reflexivity.
Qed.

Lemma subject_settled env es : forall s,
  truthy (Live.subject (sessionStateRef s)) = true ->
  Live.subject (live s) = Live.subject (sessionStateRef s) ->
  Live.subject (live (fst (run env es s))) = Live.subject (live s).
Proof.
  induction es as [|e rest IH]; intros s T E; [reflexivity|].
  cbn [run]. pose proof (@subject_settled_step env e s T E) as [A B].
  destruct (step env e s) as [s1 a1]. cbn [fst] in *.
  assert (T1 : truthy (Live.subject (sessionStateRef s1)) = true) by congruence.
  assert (E1 : Live.subject (live s1) = Live.subject (sessionStateRef s1)) by congruence.
  specialize (IH s1 T1 E1). destruct (run env rest s1) as [s2 a2].
  cbn [fst] in *. congruence.
Qed.

(** X21: the subject is detected once.  When a detection is due and the
    service answers, the subject is set to the answer, which is never
    empty, and no detection is in flight any more; while one is in flight
    no second one starts; and from the next render on, no event of the
    session changes the subject again. *)
Theorem X21_subject_is_detected_once env c s x :
  detection_due s = true ->
  Gemini.identifySubject env (Live.fullTranscript (sessionStateRef s)) = Ok x ->
  let s1 := fst (processTranscriptPeriodically env c s) in
  Live.subject (live s1) = x
  /\ x <> ""
  /\ isSubjectLoading s1 = false
  /\ fst (detection_begin (snd (detection_begin s))) = None
  /\ (forall es, Live.subject (live (fst (run env es (mirror s1)))) = x).
Proof.
  intros D I. cbv zeta.
  assert (E : processTranscriptPeriodically env c s
              = (with_isSubjectLoading (setSubject x (with_isSubjectLoading s true)) false,
                 [])).
  { unfold processTranscriptPeriodically, detection_begin. rewrite D.
    unfold detection_end. rewrite I. reflexivity. }
  rewrite E. cbn [fst].
  pose proof (GeminiFacts.identifySubject_nonempty _ _ I) as N.
  split; [reflexivity|]. split; [exact N|]. split; [reflexivity|]. split.
  - unfold detection_begin. rewrite D. cbn [snd]. unfold detection_due.
    cbn. rewrite andb_false_r. reflexivity.
  - intros es. rewrite subject_settled; [reflexivity| |reflexivity].
    cbn. destruct x; [congruence|reflexivity].
Qed.

Lemma X21_subject_is_detected_once_witness :
  detection_due Scenario.lecture = true
  /\ Live.subject
       (live (fst (processTranscriptPeriodically Scenario.configured true
                     Scenario.lecture)))
     = "Mathematics".
Proof.
  split; [reflexivity|].
  destruct (@X21_subject_is_detected_once Scenario.configured true Scenario.lecture
              "Mathematics" eq_refl eq_refl) as [H _].
  exact H.
Defined.

End LiveFacts.

(** ** SessionOrchestrator: the end of a session *)

Module LifecycleFacts.

Import World JsString JsStringFacts TrimFacts GeminiFacts App SessionFacts TranscriptFacts.
Open Scope string_scope.

Lemma solid_trimStart a : solid a = true -> trimStart a = a.
Proof.
  destruct a as [|c r]; [reflexivity|]. simpl. intros H.
  apply negb_true_iff in H. rewrite H. reflexivity.
Qed.

Lemma trimEnd_chunk a x :
  truthy (trim x) = true -> trimEnd (a ++ trim x ++ " ") = a ++ trim x.
Proof.
  intros T.
  rewrite trimEnd_app.
  - rewrite trimEnd_app_blank by reflexivity. unfold trim. rewrite trimEnd_idem.
    reflexivity.
  - rewrite blank_app. destruct (blank (trim x)) eqn:B; [|reflexivity].
    apply trim_blank in B. rewrite trim_idem in B. rewrite B in T. discriminate.
Qed.

(** The state right after the messages of one turn. *)
Lemma deliver_turn s pieces last :
  let text := Speech.currentTurnTranscription (speech s) ++ join pieces ++ last in
  truthy (trim text) = true ->
  Live.fullTranscript (live (deliver (turn pieces last) s))
  = Live.fullTranscript (live s) ++ trim text ++ " "
  /\ Live.interimTranscript (live (deliver (turn pieces last) s)) = text.
Proof.
  cbv zeta. intros T. unfold turn. rewrite deliver_app.
  destruct (deliver_pieces pieces s) as (C & F & _).
  set (s1 := deliver _ s) in *.
  rewrite deliver_cons, onmessage_last. cbv zeta.
  rewrite C, append_assoc, T. change (deliver [] ?x) with x.
  simpl. rewrite F. split; reflexivity.
Qed.

(** X12: the interim text of a finished turn stays on display for 100 ms.
    When the session ends within that time, the final transcript holds the
    turn twice: once as committed, once as interim text; when it ends after
    the display was cleared, the final transcript is the committed text
    without its last space. *)
Theorem X12_end_within_the_display_delay_repeats_the_turn s pieces last :
  solid (Live.fullTranscript (live s)) = true ->
  blank (Speech.currentTurnTranscription (speech s) ++ join pieces ++ last) = false ->
  let text := Speech.currentTurnTranscription (speech s) ++ join pieces ++ last in
  let ended := deliver (turn pieces last) s in
  finalTranscript_of (sessionStateRef (mirror ended))
  = Live.fullTranscript (live s) ++ trim text ++ " " ++ " " ++ trimEnd text
  /\ finalTranscript_of (sessionStateRef (mirror (interimClearTimer ended)))
     = Live.fullTranscript (live s) ++ trim text.
Proof.
  intros S B. cbv zeta.
  assert (T : truthy (trim (Speech.currentTurnTranscription (speech s)
                            ++ join pieces ++ last)) = true).
  { rewrite truthy_blank, B. reflexivity. }
  destruct (@deliver_turn s pieces last T) as [F I].
  unfold finalTranscript_of. cbn [mirror sessionStateRef interimClearTimer
    setInterimTranscript with_live live Live.with_interimTranscript
    Live.fullTranscript Live.interimTranscript].
  rewrite F, I.
  assert (S' : solid (Live.fullTranscript (live s) ++ trim
                 (Speech.currentTurnTranscription (speech s) ++ join pieces ++ last)
                 ++ " ") = true) by (apply solid_app_chunk; assumption).
  split.
  - assert (N : truthy (Live.fullTranscript (live s) ++ trim
                   (Speech.currentTurnTranscription (speech s) ++ join pieces ++ last)
                   ++ " ") = true).
    { destruct (Live.fullTranscript (live s)); [|reflexivity].
      simpl. destruct (trim _); reflexivity. }
    rewrite (trim_joined_committed _ _ S' B), N, !append_assoc. reflexivity.
  - rewrite trim_joined_blank by reflexivity. unfold trim at 1.
    rewrite (solid_trimStart _ S'). apply trimEnd_chunk. exact T.
Qed.

Lemma X12_end_within_the_display_delay_repeats_the_turn_witness :
  solid (Live.fullTranscript (live Scenario.started)) = true
  /\ finalTranscript_of
       (sessionStateRef (mirror (deliver (turn ["hel"] "lo") Scenario.started)))
     = "hello  hello".
Proof.
  split; [reflexivity|].
  destruct (@X12_end_within_the_display_delay_repeats_the_turn
              Scenario.started ["hel"] "lo" eq_refl eq_refl) as [H _].
  exact H.
Defined.

(** *** Release of the devices *)

Lemma stopListening_of_speech c s :
  speech (fst (stopListening_of c s))
  = if c then
      {| Speech.isListening := false; Speech.error := Speech.error (speech s);
         Speech.sessionRef := false; Speech.audioContextRef := false;
         Speech.scriptProcessorRef := false; Speech.mediaStreamSourceRef := false;
         Speech.currentTurnTranscription :=
           Speech.currentTurnTranscription (speech s) |}
    else speech s.
Proof.
  unfold stopListening_of. destruct c; cbn [negb]; [|reflexivity].
  unfold Speech.stopListening. cbn [Speech.isListening negb].
  match goal with |- speech (fst (receive_all ?es ?x)) = _ =>
    destruct (receive_all_frame es x) as (_ & _ & _ & _ & _ & _ & _ & A & _) end.
  rewrite A. reflexivity.
Qed.

Lemma stopListening_of_keeps_tracks c s :
  filter is_stopTracks (snd (stopListening_of c s)) = [].
Proof.
  unfold stopListening_of. destruct c; cbn [negb]; [|reflexivity].
  unfold Speech.stopListening. cbn [Speech.isListening negb
    Speech.scriptProcessorRef Speech.mediaStreamSourceRef Speech.audioContextRef
    Speech.sessionRef].
  destruct (Speech.scriptProcessorRef (speech s)),
    (Speech.mediaStreamSourceRef (speech s)),
    (Speech.audioContextRef (speech s)), (Speech.sessionRef (speech s));
    reflexivity.
Qed.

Lemma releaseMedia_speech s : speech (fst (releaseMedia s)) = speech s.
Proof. unfold releaseMedia. destruct (mediaStreamRef s); reflexivity. Qed.

Lemma releaseMedia_tracks s :
  List.length (filter is_stopTracks (snd (releaseMedia s)))
  = match mediaStreamRef s with Some _ => 1%nat | None => 0%nat end.
Proof. unfold releaseMedia. destruct (mediaStreamRef s); reflexivity. Qed.

(** Once the devices are released and the hook has stopped,
    [handleApiError] releases and stops nothing more. *)
Lemma handleApiError_released a c err s :
  mediaStreamRef s = None ->
  Speech.isListening (speech s) = false ->
  mediaStreamRef (fst (handleApiError a c err s)) = None
  /\ Speech.isListening (speech (fst (handleApiError a c err s))) = false
  /\ filter is_stopTracks (snd (handleApiError a c err s)) = [].
Proof.
  intros Hm Hl. unfold handleApiError.
  destruct (is_auth_error err); [|repeat split; assumption].
  destruct (is_active a); [|repeat split; assumption].
  pose proof (stopListening_of_speech c (with_isApiKeySelected s (Some false))) as Sp.
  pose proof (stopListening_of_keeps_tracks c (with_isApiKeySelected s (Some false))) as Tr.
  pose proof (stopListening_of_frame c (with_isApiKeySelected s (Some false))) as F.
  destruct (stopListening_of c (with_isApiKeySelected s (Some false))) as [s2 a2].
  cbn [fst snd] in *. cbv zeta in F. destruct F as (_ & _ & F3 & _).
  cbn [mediaStreamRef with_isApiKeySelected] in F3. rewrite Hm in F3.
  unfold releaseMedia. rewrite F3. cbn.
  rewrite filter_app, Tr. cbn. repeat split; [exact F3|].
  rewrite Sp. destruct c; [reflexivity|exact Hl].
Qed.

Lemma endSession_release env now c s :
  mediaStreamRef (fst (endSession env now c s)) = None
  /\ Speech.isListening (speech (fst (endSession env now c s))) = false
  /\ List.length (filter is_stopTracks (snd (endSession env now c s)))
     = match mediaStreamRef s with Some _ => 1%nat | None => 0%nat end
  /\ (Speech.isListening (speech s) = true ->
      Speech.holds_nothing (speech (fst (endSession env now c s))) = true).
Proof.
  unfold endSession, stopListening_now.
  pose proof (stopListening_of_speech (Speech.isListening (speech s)) s) as Sp.
  pose proof (stopListening_of_keeps_tracks (Speech.isListening (speech s)) s) as Tr.
  pose proof (stopListening_of_frame (Speech.isListening (speech s)) s) as F.
  destruct (stopListening_of (Speech.isListening (speech s)) s) as [s1 a1].
  pose proof (releaseMedia_frame s1) as G.
  pose proof (releaseMedia_speech s1) as Gs.
  pose proof (releaseMedia_tracks s1) as Gt.
  destruct (releaseMedia s1) as [s2 a2]. cbn [fst snd] in *. cbv zeta in F, G.
  destruct F as (_ & _ & F3 & _). destruct G as (_ & _ & _ & _ & _ & _ & _ & G8).
  rewrite F3 in Gt.
  assert (L : Speech.isListening (speech s2) = false).
  { rewrite Gs, Sp. destruct (Speech.isListening (speech s)) eqn:E; [reflexivity|exact E]. }
  assert (N : Speech.isListening (speech s) = true ->
              Speech.holds_nothing (speech s2) = true).
  { intros E. rewrite Gs, Sp, E. reflexivity. }
  destruct (finalize env (sessionData s) _ _ _) as [populated|err].
  - cbn. rewrite filter_app, Tr. cbn. repeat split; assumption.
  - pose proof (@handleApiError_released (appState s) c err (with_appState s2 LOADING)
                  G8 L) as (H1 & H2 & H3).
    pose proof (stopListening_of_speech c (with_isApiKeySelected (with_appState s2 LOADING) (Some false))) as Sp2.
    assert (K : Speech.isListening (speech s) = true ->
                Speech.holds_nothing
                  (speech (fst (handleApiError (appState s) c err (with_appState s2 LOADING))))
                = true).
    { intros E. specialize (N E). unfold handleApiError.
      destruct (is_auth_error err); [|exact N].
      destruct (is_active (appState s)); [|exact N].
      destruct (stopListening_of c (with_isApiKeySelected (with_appState s2 LOADING) (Some false)))
        as [s5 a5]. cbn [fst] in Sp2.
      pose proof (releaseMedia_speech s5) as R5.
      destruct (releaseMedia s5) as [s6 a6]. cbn [fst] in *. cbn.
      rewrite R5, Sp2. destruct c; [reflexivity|exact N]. }
    destruct (handleApiError (appState s) c err (with_appState s2 LOADING)) as [s4 a4].
    cbn [fst snd] in *. cbn.
    rewrite !filter_app, Tr, H3, app_nil_r. cbn. repeat split; assumption.
Qed.

(** X13: however the finalization goes, [endSession] leaves no device
    behind: afterwards no stream is held and the hook is not listening
    (and, if it was listening, holds no session, context or node), the
    screen is the summary or the setup screen, and the tracks of the
    stream that was held have been stopped exactly once. *)
Theorem X13_endSession_releases_the_devices_once env now c s :
  mediaStreamRef (fst (endSession env now c s)) = None
  /\ Speech.isListening (speech (fst (endSession env now c s))) = false
  /\ (Speech.isListening (speech s) = true ->
      Speech.holds_nothing (speech (fst (endSession env now c s))) = true)
  /\ List.length (filter is_stopTracks (snd (endSession env now c s)))
     = match mediaStreamRef s with Some _ => 1%nat | None => 0%nat end
  /\ (appState (fst (endSession env now c s)) = SUMMARY
      \/ appState (fst (endSession env now c s)) = SETUP).
Proof.
  destruct (endSession_release env now c s) as (A & B & C & D).
  repeat split; try assumption.
  pose proof (endSession_outcome env now c s) as O. cbv zeta in O.
  destruct (finalize env (sessionData s) _ _ _); [left|right]; apply O.
Qed.

(** *** The pipeline *)


(** X15: a session that ends with nothing said always reaches the summary
    screen, with empty notes and the fixed summary, under its own class
    name: no request is made, so neither a missing credential nor a
    failing service can prevent it. *)
Theorem X15_silent_session_always_finalizes env now c s :
  finalTranscript_of (sessionStateRef s) = "" ->
  appState (fst (endSession env now c s)) = SUMMARY
  /\ Session.notes (sessionData (fst (endSession env now c s))) = Some ""
  /\ Session.summary (sessionData (fst (endSession env now c s)))
     = Some "No content to summarize."
  /\ Session.className (sessionData (fst (endSession env now c s)))
     = Session.className (sessionData s)
  /\ Session.fullTranscript (sessionData (fst (endSession env now c s))) = Some "".
Proof.
  intros E. pose proof (endSession_outcome env now c s) as O. cbv zeta in O.
  assert (F : finalize env (sessionData s)
                (sealed (sessionData s) now (sessionStateRef s))
                (finalTranscript_of (sessionStateRef s))
                (Live.subject (sessionStateRef s))
              = Ok (Session.with_notes_summary
                      (sealed (sessionData s) now (sessionStateRef s))
                      (Some "") (Some "No content to summarize."))).
  { rewrite E. unfold finalize, name_and_subject. cbn.
    rewrite andb_false_r. reflexivity. }
  rewrite F in O. destruct O as [O1 O2]. rewrite O1, O2. cbn.
  rewrite E. repeat split.
Qed.

Lemma X15_silent_session_always_finalizes_witness :
  finalTranscript_of (sessionStateRef Scenario.started) = ""
  /\ appState (fst (endSession Scenario.unconfigured 5000 true Scenario.started))
     = SUMMARY.
Proof.
  split; [reflexivity|].
  destruct (@X15_silent_session_always_finalizes Scenario.unconfigured 5000 true
              Scenario.started eq_refl) as [H _].
  exact H.
Defined.





(** What the first step of the pipeline does to the sealed record. *)
Lemma name_and_subject_cases env sd fsd ft fs resolved :
  name_and_subject env sd fsd ft fs = Ok resolved ->
  Session.id resolved = Session.id fsd
  /\ Session.startTime resolved = Session.startTime fsd
  /\ Session.endTime resolved = Session.endTime fsd
  /\ Session.focusHistory resolved = Session.focusHistory fsd
  /\ Session.lowFocusTimestamps resolved = Session.lowFocusTimestamps fsd
  /\ (Session.subject resolved = Session.subject fsd
      \/ exists i, Gemini.identifySubject env ft = Ok i
                   /\ Session.subject resolved = Some i)
  /\ if is_quick_record sd && (50 <? String.length (trim ft))%nat
     then exists g, Gemini.generateClassNameFromTranscript env ft = Ok g
                    /\ Session.className resolved = Some g
     else Session.className resolved = Session.className fsd.
Proof.
  unfold name_and_subject.
  destruct (is_quick_record sd && _)%bool.
  - destruct (Gemini.generateClassNameFromTranscript env ft) as [g|e] eqn:G;
      cbn [bind]; [|discriminate].
    destruct (subject_missing fs).
    + destruct (Gemini.identifySubject env ft) as [i|e] eqn:I; cbn [bind];
        [|discriminate].
      intros H. inversion H. cbn. repeat split; eauto.
    + intros H. inversion H. cbn. repeat split; eauto.
  - intros H. inversion H. subst. repeat split. left. reflexivity.
Qed.

(** X17: what a session on the summary screen carries: a subject that is
    not empty, its end time, the final transcript, the focus history and
    the low-focus marks of the ref, the id and start time it was started
    with, and as its notes and its summary exactly what [structureNotes]
    and [generateFinalSummary] returned for the final transcript and that
    subject.  That is the text of the reply: it is undefined when the
    reply carries none. *)
Theorem X17_finalized_session_fields env now c s :
  appState (fst (endSession env now c s)) = SUMMARY ->
  let d := sessionData (fst (endSession env now c s)) in
  let final := finalTranscript_of (sessionStateRef s) in
  (exists subject,
      Session.subject d = Some subject /\ subject <> ""
      /\ Gemini.structureNotes env final = Ok (Session.notes d)
      /\ Gemini.generateFinalSummary env final subject = Ok (Session.summary d))
  /\ Session.endTime d = Some now
  /\ Session.fullTranscript d = Some final
  /\ Session.focusHistory d = Some (Live.focusHistory (sessionStateRef s))
  /\ Session.lowFocusTimestamps d = Some (Live.lowFocusTimestamps (sessionStateRef s))
  /\ Session.id d = Session.id (sessionData s)
  /\ Session.startTime d = Session.startTime (sessionData s).
Proof.
  intros H. cbv zeta.
  pose proof (endSession_outcome env now c s) as O. cbv zeta in O.
  pose proof (finalize_cases env (sessionData s)
                (sealed (sessionData s) now (sessionStateRef s))
                (finalTranscript_of (sessionStateRef s))
                (Live.subject (sessionStateRef s))) as C.
  destruct (finalize env (sessionData s) _ _ _) as [populated|err];
    [|destruct O as [O _]; congruence].
  destruct O as [_ O]. rewrite O.
  destruct C as (resolved & n & m & C1 & C2 & C3 & ->).
  pose proof (name_and_subject_keeps _ _ _ _ _ C1) as (K1 & _).
  apply name_and_subject_cases in C1.
  destruct C1 as (A1 & A2 & A3 & A4 & A5 & A6 & _).
  unfold subject_text in C3. cbn.
  rewrite A1, A2, A3, A4, A5, K1. cbn. split; [|repeat split].
  destruct A6 as [A6|(i & I & A6)]; rewrite A6 in *; cbn in *.
  - eexists. split; [reflexivity|]. split; [|split; assumption].
    apply or_else_nonempty. discriminate.
  - exists i. split; [reflexivity|]. split; [|split; assumption].
    apply (identifySubject_nonempty _ _ I).
Qed.

Lemma X17_finalized_session_fields_witness :
  appState (fst (endSession Scenario.textless 5000 true Scenario.mid_turn)) = SUMMARY
  /\ Session.notes
       (sessionData (fst (endSession Scenario.textless 5000 true Scenario.mid_turn)))
     = None
  /\ Session.endTime
       (sessionData (fst (endSession Scenario.textless 5000 true Scenario.mid_turn)))
     = Some 5000%Z.
Proof.
  split; [reflexivity|]. split; [reflexivity|].
  destruct (@X17_finalized_session_fields Scenario.textless 5000 true
              Scenario.mid_turn eq_refl) as (_ & H & _).
  exact H.
Defined.



(** *** Errors during a session *)

Lemma stopListening_of_live c s :
  live (fst (stopListening_of c s))
  = if c then Live.with_interimTranscript (live s) "" else live s.
Proof.
  unfold stopListening_of. destruct c; cbn [negb]; [|reflexivity].
  unfold Speech.stopListening. cbn [Speech.isListening negb
    Speech.scriptProcessorRef Speech.mediaStreamSourceRef Speech.audioContextRef
    Speech.sessionRef].
  destruct (Speech.scriptProcessorRef (speech s)),
    (Speech.mediaStreamSourceRef (speech s)),
    (Speech.audioContextRef (speech s)), (Speech.sessionRef (speech s));
    reflexivity.
Qed.

Lemma handleApiError_nothing_to_release a c err x :
  mediaStreamRef x = None ->
  filter is_stopTracks (snd (handleApiError a c err x)) = []
  /\ mediaStreamRef (fst (handleApiError a c err x)) = None.
Proof.
  intros Mx. unfold handleApiError.
  destruct (is_auth_error err); [|split; [reflexivity|exact Mx]].
  destruct (is_active a); [|split; [reflexivity|exact Mx]].
  pose proof (stopListening_of_frame c (with_isApiKeySelected x (Some false))) as F.
  pose proof (stopListening_of_keeps_tracks c (with_isApiKeySelected x (Some false))) as T.
  destruct (stopListening_of c (with_isApiKeySelected x (Some false))) as [s5 a5].
  cbn [fst snd] in *. cbv zeta in F. destruct F as (_ & _ & F3 & _).
  cbn in F3. rewrite Mx in F3. unfold releaseMedia. rewrite F3. cbn.
  rewrite filter_app, T. split; [reflexivity|exact F3].
Qed.

(** X19: an error that [handleApiError] takes for an invalid credential,
    raised while a session is active, stops the session on the spot: the
    key is marked as not selected, the tracks of the stream are stopped
    exactly once, the stream is dropped and the setup screen is shown; the
    session record, the class library and the committed transcript stay as
    they were, and nothing is finalized.  A second such error finds
    nothing left to release. *)
Theorem X19_invalid_credential_stops_the_session c err s stream :
  is_auth_error err = true ->
  mediaStreamRef s = Some stream ->
  let s' := fst (handleApiError ACTIVE c err s) in
  appState s' = SETUP
  /\ mediaStreamRef s' = None
  /\ isApiKeySelected s' = Some false
  /\ filter is_stopTracks (snd (handleApiError ACTIVE c err s)) = [stopTracks stream]
  /\ sessionData s' = sessionData s
  /\ library s' = library s
  /\ Live.fullTranscript (live s') = Live.fullTranscript (live s)
  /\ (c = true -> Speech.isListening (speech s') = false
                  /\ Speech.holds_nothing (speech s') = true)
  /\ (forall c2 err2,
        filter is_stopTracks (snd (handleApiError ACTIVE c2 err2 s')) = []
        /\ mediaStreamRef (fst (handleApiError ACTIVE c2 err2 s')) = None).
Proof.
  intros A M. cbv zeta.
  assert (E : handleApiError ACTIVE c err s
              = (with_appState
                   (with_mediaStreamRef
                      (fst (stopListening_of c (with_isApiKeySelected s (Some false))))
                      None) SETUP,
                 (alert "The selected API key appears to be invalid. Please select another key to continue."
                  :: snd (stopListening_of c (with_isApiKeySelected s (Some false)))
                  ++ [stopTracks stream])%list)).
  { unfold handleApiError. rewrite A. cbn [is_active].
    pose proof (stopListening_of_frame c (with_isApiKeySelected s (Some false))) as F.
    destruct (stopListening_of c (with_isApiKeySelected s (Some false))) as [s2 a2].
    cbn [fst snd] in *. cbv zeta in F. destruct F as (_ & _ & F3 & _).
    cbn in F3. unfold releaseMedia. rewrite F3, M. reflexivity. }
  rewrite E. cbn [fst snd].
  pose proof (stopListening_of_frame c (with_isApiKeySelected s (Some false))) as F.
  pose proof (stopListening_of_speech c (with_isApiKeySelected s (Some false))) as Sp.
  pose proof (stopListening_of_live c (with_isApiKeySelected s (Some false))) as Lv.
  pose proof (stopListening_of_keeps_tracks c (with_isApiKeySelected s (Some false))) as Tr.
  destruct (stopListening_of c (with_isApiKeySelected s (Some false))) as [s2 a2].
  cbn [fst snd] in *. cbv zeta in F.
  destruct F as (_ & F2 & _ & _ & F5 & _ & F7 & _).
  cbn in F2, F5, F7, Sp, Lv |- *.
  rewrite filter_app, Tr. cbn.
  do 3 (split; [auto|]). split; [reflexivity|].
  do 2 (split; [auto|]). split; [rewrite Lv; destruct c; reflexivity|].
  split.
  - intros ->. rewrite Sp. split; reflexivity.
  - intros c2 err2. apply handleApiError_nothing_to_release. reflexivity.
Qed.

Lemma X19_invalid_credential_stops_the_session_witness :
  is_auth_error "API key not valid. Please pass a valid API key." = true
  /\ appState
       (fst (handleApiError ACTIVE true
               "API key not valid. Please pass a valid API key." Scenario.mid_turn))
     = SETUP.
Proof.
  split; [reflexivity|].
  destruct (@X19_invalid_credential_stops_the_session true
              "API key not valid. Please pass a valid API key." Scenario.mid_turn 1%Z
              eq_refl eq_refl) as [H _].
  exact H.
Defined.

End LifecycleFacts.

(** ** ClassLibrary: more on the collection *)

Module CollectionFacts.

Import JsString JsStringFacts TrimFacts Library LibraryFacts.
Open Scope string_scope.

(** *** What is stored *)

Lemma stored_step op lib :
  (stored lib = Some (registeredClasses lib)
   \/ (stored lib = None /\ registeredClasses lib = [])) ->
  stored (apply op lib) = Some (registeredClasses (apply op lib))
  \/ (stored (apply op lib) = None /\ registeredClasses (apply op lib) = []).
Proof.
  intros H. destruct op as [typed now|id|now session]; simpl.
  - unfold handleAddClass. cbn [newClassName type_name].
    destruct (truthy (trim typed)); cbn [negb fst registeredClasses stored];
      [left; reflexivity|exact H].
  - left. reflexivity.
  - unfold handleSaveSession.
    destruct (Session.className session) as [target|]; [|exact H].
    destruct (truthy target); cbn [negb fst registeredClasses stored];
      [left; reflexivity|exact H].
Qed.

(** X22: what local storage holds is what the collection in memory holds:
    after any sequence of add-class, delete-class and save-session
    operations on a fresh library, the stored item is the registered
    collection, or nothing was ever written and the collection is empty. *)
Theorem X22_storage_mirrors_the_collection (ops : list Op) :
  stored (run ops no_classes) = Some (registeredClasses (run ops no_classes))
  \/ (stored (run ops no_classes) = None
      /\ registeredClasses (run ops no_classes) = []).
Proof.
  assert (G : forall lib,
             stored lib = Some (registeredClasses lib)
             \/ (stored lib = None /\ registeredClasses lib = []) ->
             stored (run ops lib) = Some (registeredClasses (run ops lib))
             \/ (stored (run ops lib) = None /\ registeredClasses (run ops lib) = [])).
  { induction ops as [|op rest IH]; intros lib H; [exact H|].
    simpl. apply IH. apply stored_step. exact H. }
  apply G. right. split; reflexivity.
Qed.

(** *** Names *)

Lemma named_step op lib :
  Forall named (registeredClasses lib) ->
  Forall named (registeredClasses (apply op lib)).
Proof.
  intros H. destruct op as [typed now|id|now session]; simpl.
  - unfold handleAddClass. cbn [newClassName type_name].
    destruct (truthy (trim typed)) eqn:T; cbn [negb fst registeredClasses];
      [|exact H].
    apply Forall_app. split; [exact H|]. constructor; [|constructor].
    unfold named. cbn. intros E. rewrite E in T. discriminate.
  - apply Forall_forall. intros c Hc. apply filter_In in Hc.
    destruct Hc as [Hc _]. rewrite Forall_forall in H. apply H. exact Hc.
  - unfold handleSaveSession.
    destruct (Session.className session) as [target|]; [|exact H].
    destruct (truthy target) eqn:T; cbn [negb fst registeredClasses]; [|exact H].
    unfold save_into. destruct (find (name_matches target) (registeredClasses lib)).
    + apply Forall_forall. intros c' Hc'. apply in_map_iff in Hc'.
      destruct Hc' as (c & <- & Hc). rewrite Forall_forall in H.
      specialize (H c Hc). destruct (String.eqb _ _); exact H.
    + apply Forall_app. split; [exact H|]. constructor; [|constructor].
      unfold named. cbn. intros E. rewrite E in T. discriminate.
Qed.

Lemma named_run ops : forall lib,
  Forall named (registeredClasses lib) ->
  Forall named (registeredClasses (run ops lib)).
Proof.
  induction ops as [|op rest IH]; intros lib H; [exact H|].
  simpl. apply IH. apply named_step. exact H.
Qed.

Lemma names_agree_run ops : forall lib,
  names_agree (registeredClasses lib) ->
  names_agree (registeredClasses (run ops lib)).
Proof.
  induction ops as [|op rest IH]; intros lib H; [exact H|].
  simpl. apply IH. apply names_agree_apply. exact H.
Qed.

(** X23: no class without a name gets into the collection.  After any
    sequence of operations on a fresh library every registered class has a
    name that is not empty, a class added through the name field has that
    field's text without the white space around it, and every stored
    session carries a class name that is not empty. *)
Theorem X23_every_class_has_a_name (ops : list Op) :
  (forall c, In c (registeredClasses (run ops no_classes)) ->
             RegisteredClass.name c <> ""
             /\ forall s, In s (RegisteredClass.sessions c) ->
                          exists n, Session.className s = Some n /\ n <> "")
  /\ (forall typed now,
        truthy (trim typed) = true ->
        exists c,
          registeredClasses (apply (AddClass typed now) (run ops no_classes))
          = (registeredClasses (run ops no_classes) ++ [c])%list
          /\ RegisteredClass.name c = trim typed
          /\ trim (RegisteredClass.name c) = RegisteredClass.name c
          /\ RegisteredClass.sessions c = [])
  /\ (forall typed now,
        truthy (trim typed) = false ->
        apply (AddClass typed now) (run ops no_classes)
        = type_name typed (run ops no_classes)).
Proof.
  split; [|split].
  - intros c Hc.
    pose proof (@named_run ops no_classes (Forall_nil _)) as N.
    rewrite Forall_forall in N. specialize (N c Hc). split; [exact N|].
    intros s Hs. exists (RegisteredClass.name c). split; [|exact N].
    apply (@names_agree_run ops no_classes names_agree_nil c s Hc Hs).
  - intros typed now T. cbn [apply]. unfold handleAddClass.
    cbn [newClassName type_name]. rewrite T. cbn [negb fst registeredClasses].
    eexists. split; [reflexivity|]. cbn. repeat split. apply trim_idem.
  - intros typed now T. cbn [apply]. unfold handleAddClass.
    cbn [newClassName type_name]. rewrite T. reflexivity.
Qed.

(** *** Saving and finding *)

Lemma find_map_same_names target g classes :
  (forall c, RegisteredClass.name (g c) = RegisteredClass.name c) ->
  find (name_matches target) (map g classes)
  = option_map g (find (name_matches target) classes).
Proof.
  intros H. induction classes as [|c rest IH]; [reflexivity|].
  cbn [map find]. unfold name_matches at 1 3. rewrite H.
  destruct (String.eqb _ _); [reflexivity|exact IH].
Qed.

Lemma find_snoc_none (f : RegisteredClass.registered -> bool) classes c :
  find f classes = None -> f c = true -> find f (classes ++ [c]) = Some c.
Proof.
  induction classes as [|x rest IH]; cbn; intros H Hc.
  - rewrite Hc. reflexivity.
  - destruct (f x); [discriminate|]. apply IH; assumption.
Qed.

(** X24: a session that was saved can be found again: after a save under
    a class name that is not empty, looking the name up in the collection,
    without regard to case, gives a class whose last session is the saved
    one, carrying that class's name. *)
Theorem X24_saved_session_is_found now session target lib :
  Session.className session = Some target ->
  target <> "" ->
  exists c,
    find (name_matches target)
      (registeredClasses (fst (handleSaveSession now session lib))) = Some c
    /\ toLowerCase (RegisteredClass.name c) = toLowerCase target
    /\ last (RegisteredClass.sessions c) session
       = Session.with_className session (RegisteredClass.name c).
Proof.
  intros Hn Ht. unfold handleSaveSession.
  rewrite Hn, (truthy_nonempty Ht). cbn [negb fst registeredClasses].
  unfold save_into.
  destruct (find (name_matches target) (registeredClasses lib)) as [tc|] eqn:E.
  - rewrite find_map_same_names, E.
    + cbn [option_map]. rewrite String.eqb_refl. eexists. split; [reflexivity|].
      apply find_some in E. destruct E as [_ E]. apply name_matches_iff in E.
      split; [exact E|]. cbn. apply last_last.
    + intros c. destruct (String.eqb _ _); reflexivity.
  - eexists. split.
    + apply find_snoc_none; [exact E|]. unfold name_matches. cbn.
      apply String.eqb_refl.
    + split; reflexivity.
Qed.

Lemma X24_saved_session_is_found_witness :
  Session.className Scenario.shouted = Some "MATH"
  /\ exists c,
      find (name_matches "MATH")
        (registeredClasses
           (fst (handleSaveSession 7 Scenario.shouted
                   (run [AddClass " Math " 1] no_classes)))) = Some c
      /\ RegisteredClass.name c = "Math".
Proof.
  split; [reflexivity|].
  assert (Ht : "MATH" <> "") by discriminate.
  destruct (@X24_saved_session_is_found 7 Scenario.shouted "MATH"
              (run [AddClass " Math " 1] no_classes) eq_refl Ht) as (c & F & _).
  exists c. split; [exact F|].
  cbv in F. inversion F. reflexivity.
Defined.

(** X25: no operation loses a session, except the deletion of its class:
    a class that an operation does not delete is still in the collection
    afterwards, with its id and its name, and its sessions are still
    there, in order, at the front of the sessions it has then. *)
Theorem X25_sessions_survive op lib c :
  In c (registeredClasses lib) ->
  spares op (RegisteredClass.id c) ->
  exists c' added,
    In c' (registeredClasses (apply op lib))
    /\ RegisteredClass.id c' = RegisteredClass.id c
    /\ RegisteredClass.name c' = RegisteredClass.name c
    /\ RegisteredClass.sessions c' = (RegisteredClass.sessions c ++ added)%list.
Proof.
  intros Hc Hs.
  assert (Same : forall classes, In c classes ->
           exists c' added, In c' classes
             /\ RegisteredClass.id c' = RegisteredClass.id c
             /\ RegisteredClass.name c' = RegisteredClass.name c
             /\ RegisteredClass.sessions c'
                = (RegisteredClass.sessions c ++ added)%list).
  { intros classes H. exists c, []. rewrite app_nil_r. auto. }
  destruct op as [typed now|id|now session]; cbn [apply spares] in *.
  - unfold handleAddClass. cbn [newClassName type_name].
    destruct (truthy (trim typed)); cbn [negb fst registeredClasses];
      [|apply Same; exact Hc].
    apply Same. apply in_or_app. left. exact Hc.
  - cbn. apply Same. apply filter_In. split; [exact Hc|].
    apply negb_true_iff. apply String.eqb_neq. congruence.
  - unfold handleSaveSession.
    destruct (Session.className session) as [target|]; [|apply Same; exact Hc].
    destruct (truthy target); cbn [negb fst registeredClasses];
      [|apply Same; exact Hc].
    unfold save_into.
    destruct (find (name_matches target) (registeredClasses lib)) as [tc|].
    + destruct (String.eqb (RegisteredClass.id c) (RegisteredClass.id tc)) eqn:E.
      * exists (add_session session c), [Session.with_className session (RegisteredClass.name c)].
        split; [|repeat split].
        apply in_map_iff. exists c. rewrite E. auto.
      * exists c, []. rewrite app_nil_r. split; [|auto].
        apply in_map_iff. exists c. rewrite E. auto.
    + apply Same. apply in_or_app. left. exact Hc.
Qed.

Lemma X25_sessions_survive_witness :
  let lib := run [AddClass "Math" 1; SaveSession 7 Scenario.shouted] no_classes in
  In (add_session Scenario.shouted Scenario.math) (registeredClasses lib)
  /\ exists c' added,
      In c' (registeredClasses (apply (SaveSession 9 Scenario.shouted) lib))
      /\ RegisteredClass.sessions c'
         = ([Session.with_className Scenario.shouted "Math"] ++ added)%list.
Proof.
  assert (H : In (add_session Scenario.shouted Scenario.math)
                (registeredClasses
                   (run [AddClass "Math" 1; SaveSession 7 Scenario.shouted] no_classes)))
    by (left; reflexivity).
  split; [exact H|].
  destruct (@X25_sessions_survive (SaveSession 9 Scenario.shouted) _ _ H I)
    as (c' & added & A & _ & _ & B).
  exists c', added. split; [exact A|exact B].
Defined.

(** *** Deleting *)

Lemma filter_filter_same (A : Type) (f : A -> bool) l :
  filter f (filter f l) = filter f l.
Proof.
  induction l as [|x rest IH]; [reflexivity|]. cbn.
  destruct (f x) eqn:E; cbn; rewrite ?E, IH; reflexivity.
Qed.

Lemma filter_all (A : Type) (f : A -> bool) l :
  (forall x, In x l -> f x = true) -> filter f l = l.
Proof.
  induction l as [|x rest IH]; [reflexivity|]. intros H. cbn.
  rewrite (H x (or_introl eq_refl)), IH; [reflexivity|].
  intros y Hy. apply H. right. exact Hy.
Qed.

(** X26: deleting a class by id removes every class of that id and no
    other: the classes of other ids stay, in their order and with their
    sessions; deleting an id that no class has changes nothing in the
    collection; and deleting the same id again changes nothing at all. *)
Theorem X26_delete_removes_that_id_only id lib :
  (forall c, In c (registeredClasses (fst (handleDeleteClass id lib)))
             <-> In c (registeredClasses lib) /\ RegisteredClass.id c <> id)
  /\ ((forall c, In c (registeredClasses lib) -> RegisteredClass.id c <> id) ->
      registeredClasses (fst (handleDeleteClass id lib)) = registeredClasses lib)
  /\ handleDeleteClass id (fst (handleDeleteClass id lib))
     = handleDeleteClass id lib
  /\ (viewingClassId (fst (handleDeleteClass id lib)) = Some id -> False).
Proof.
  split; [|split; [|split]].
  - intros c. cbn. rewrite filter_In, negb_true_iff, String.eqb_neq. reflexivity.
  - intros H. cbn. apply filter_all. intros c Hc.
    apply negb_true_iff, String.eqb_neq, H, Hc.
  - unfold handleDeleteClass. cbn. rewrite filter_filter_same. f_equal. f_equal.
    destruct (viewingClassId lib) as [v|]; cbn; [|reflexivity].
    destruct (String.eqb v id) eqn:E; cbn; rewrite ?E; reflexivity.
  - cbn. destruct (viewingClassId lib) as [v|]; cbn; [|discriminate].
    destruct (String.eqb_spec v id); [discriminate|congruence].
Qed.

(** *** Ids *)

Lemma to_int_proper z : Z.to_int z <> Decimal.Pos Decimal.Nil
                        /\ Z.to_int z <> Decimal.Neg Decimal.Nil.
Proof.
  destruct z as [|p|p]; cbn; split; try discriminate; intros H; inversion H as [E];
    apply (DecimalPos.Unsigned.to_uint_nonnil p E).
Qed.

(** Two times print alike only when they are the same. *)
Lemma toString_inj a b : toString a = toString b -> a = b.
Proof.
  unfold toString. intros H.
  destruct (to_int_proper a) as [A1 A2]. destruct (to_int_proper b) as [B1 B2].
  pose proof (NilZero.isi _ A1 A2) as Ia. pose proof (NilZero.isi _ B1 B2) as Ib.
  rewrite H in Ia. rewrite Ia in Ib. inversion Ib as [E].
  apply DecimalZ.to_int_inj. exact E.
Qed.

Lemma NoDup_snoc (A : Type) (l : list A) x :
  NoDup l -> ~ In x l -> NoDup (l ++ [x]).
Proof.
  intros N H. apply (NoDup_Add (a := x) (l := l)).
  - rewrite <- (app_nil_r l) at 1. apply Add_app.
  - split; assumption.
Qed.

Lemma NoDup_ids_filter f classes :
  NoDup (ids classes) -> NoDup (ids (filter f classes)).
Proof.
  unfold ids. induction classes as [|c rest IH]; cbn; [auto|].
  intros N. inversion N as [|? ? Hc Hrest]; subst.
  destruct (f c); cbn; [|apply IH; exact Hrest].
  constructor; [|apply IH; exact Hrest].
  intros H. apply Hc. apply in_map_iff in H. destruct H as (d & E & Hd).
  apply filter_In in Hd. apply in_map_iff. exists d. split; [exact E|apply Hd].
Qed.

Lemma ids_from_weaken seen seen' classes :
  ids_from seen classes -> incl seen seen' -> ids_from seen' classes.
Proof.
  intros [N H] I. split; [exact N|]. intros c Hc.
  destruct (H c Hc) as (t & Ht & E). exists t. split; [apply I; exact Ht|exact E].
Qed.

Lemma ids_from_snoc seen classes c now :
  ids_from seen classes -> ~ In now seen ->
  RegisteredClass.id c = toString now ->
  ids_from (seen ++ [now]) (classes ++ [c]).
Proof.
  intros [N H] Hn E. split.
  - unfold ids in *. rewrite map_app. cbn. apply NoDup_snoc; [exact N|].
    intros Hin. apply in_map_iff in Hin. destruct Hin as (d & Ed & Hd).
    destruct (H d Hd) as (t & Ht & Et). apply Hn.
    assert (t = now) by (apply toString_inj; congruence). subst. exact Ht.
  - intros d Hd. apply in_app_or in Hd. destruct Hd as [Hd|[<-|[]]].
    + destruct (H d Hd) as (t & Ht & Et). exists t. split; [|exact Et].
      apply in_or_app. left. exact Ht.
    + exists now. split; [|exact E]. apply in_or_app. right. left. reflexivity.
Qed.

Lemma ids_step op lib seen :
  ids_from seen (registeredClasses lib) ->
  (forall t, In t (creation_time op) -> ~ In t seen) ->
  ids_from (seen ++ creation_time op) (registeredClasses (apply op lib)).
Proof.
  intros H Fresh.
  assert (W : ids_from (seen ++ creation_time op) (registeredClasses lib)).
  { apply (ids_from_weaken H). apply incl_appl, incl_refl. }
  destruct op as [typed now|id|now session]; cbn [apply creation_time] in *.
  - unfold handleAddClass. cbn [newClassName type_name].
    destruct (truthy (trim typed)); cbn [negb fst registeredClasses]; [|exact W].
    apply ids_from_snoc; [exact H| |reflexivity]. apply Fresh. left. reflexivity.
  - cbn. rewrite app_nil_r. destruct H as [N H]. split.
    + apply NoDup_ids_filter. exact N.
    + intros c Hc. apply filter_In in Hc. apply H, Hc.
  - unfold handleSaveSession.
    destruct (Session.className session) as [target|]; [|exact W].
    destruct (truthy target); cbn [negb fst registeredClasses]; [|exact W].
    unfold save_into.
    destruct (find (name_matches target) (registeredClasses lib)) as [tc|].
    + destruct W as [N W]. split.
      * unfold ids in *. rewrite map_map.
        erewrite map_ext; [exact N|]. intros c. cbn.
        destruct (String.eqb _ _); reflexivity.
      * intros c' Hc'. apply in_map_iff in Hc'. destruct Hc' as (c & <- & Hc).
        destruct (W c Hc) as (t & Ht & E). exists t. split; [exact Ht|].
        destruct (String.eqb _ _); exact E.
    + apply ids_from_snoc; [exact H| |reflexivity]. apply Fresh. left. reflexivity.
Qed.

Lemma ids_run ops : forall lib seen,
  ids_from seen (registeredClasses lib) ->
  NoDup (creation_times ops) ->
  (forall t, In t (creation_times ops) -> ~ In t seen) ->
  ids_from (seen ++ creation_times ops) (registeredClasses (run ops lib)).
Proof.
  induction ops as [|op rest IH]; intros lib seen H N Fresh.
  - cbn. rewrite app_nil_r. exact H.
  - cbn [run fold_left creation_times flat_map] in *.
    fold (creation_times rest) in *. fold (run rest (apply op lib)).
    rewrite app_assoc. apply IH.
    + apply ids_step; [exact H|]. intros t Ht. apply Fresh.
      apply in_or_app. left. exact Ht.
    + apply NoDup_app_remove_l in N. exact N.
    + intros t Ht Hin. apply in_app_or in Hin. destruct Hin as [Hin|Hin].
      * apply (Fresh t); [apply in_or_app; right; exact Ht|exact Hin].
      * clear - N Ht Hin. induction (creation_time op) as [|x l IHl];
          [destruct Hin|].
        cbn in N. inversion N as [|? ? Hx Hl]; subst. destruct Hin as [->|Hin].
        -- apply Hx. apply in_or_app. right. exact Ht.
        -- apply IHl; assumption.
Qed.

(** X27: ids are the times of creation in print, and the print tells
    times apart: when the operations that may create a class happen at
    pairwise different times, the classes of the collection have pairwise
    different ids, each the print of one of those times. *)
Theorem X27_distinct_times_give_distinct_ids (ops : list Op) :
  NoDup (creation_times ops) ->
  NoDup (ids (registeredClasses (run ops no_classes)))
  /\ (forall c, In c (registeredClasses (run ops no_classes)) ->
                exists t, In t (creation_times ops)
                          /\ RegisteredClass.id c = toString t)
  /\ (forall a b, toString a = toString b -> a = b).
Proof.
  intros N.
  assert (H0 : ids_from [] (registeredClasses no_classes)).
  { split; [constructor|]. intros c []. }
  destruct (@ids_run ops no_classes [] H0 N (fun t _ H => H)) as [A B].
  split; [exact A|]. split; [exact B|]. apply toString_inj.
Qed.

Lemma X27_distinct_times_give_distinct_ids_witness :
  let ops := [AddClass "Math" 1; AddClass "Math" 2; SaveSession 7 Scenario.shouted;
              DeleteClass "2";
              SaveSession 8 (Session.with_className Scenario.shouted "Physics")] in
  NoDup (creation_times ops)
  /\ NoDup (ids (registeredClasses (run ops no_classes))).
Proof.
  assert (N : NoDup (creation_times
                       [AddClass "Math" 1; AddClass "Math" 2;
                        SaveSession 7 Scenario.shouted; DeleteClass "2";
                        SaveSession 8 (Session.with_className Scenario.shouted "Physics")])).
  { cbn. repeat constructor; cbn; intuition discriminate. }
  split; [exact N|].
  destruct (@X27_distinct_times_give_distinct_ids _ N) as [H _]. exact H.
Defined.

End CollectionFacts.

(* ===================================================================== *)
(** ** The sampler across skipped and failed ticks *)
(* ===================================================================== *)

Module SamplerFacts.

Import World Focus PipelineFacts.
Open Scope string_scope.

Lemma run_ticks_cons cn t k rest :
  run_ticks cn t (k :: rest)
  = (fst (run_ticks cn (fst (analyzeFrame cn t k)) rest),
     snd (analyzeFrame cn t k)
       :: snd (run_ticks cn (fst (analyzeFrame cn t k)) rest)).
Proof.
  cbn [run_ticks]. destruct (analyzeFrame cn t k) as [t1 calls].
  cbn [fst snd]. destruct (run_ticks cn t1 rest). reflexivity.
Qed.

Lemma incomplete_tick cn t k :
  completes k = false ->
  lowFocusCounter (fst (analyzeFrame cn t k)) = lowFocusCounter t
  /\ teacherAlertSent (fst (analyzeFrame cn t k)) = teacherAlertSent t
  /\ filter (fun c => negb (is_apiError c)) (snd (analyzeFrame cn t k)) = [].
Proof.
  unfold completes, analyzeFrame. intros C.
  destruct (ready k); cbn [negb andb] in *; [|repeat split].
  destruct (context2d k); cbn [negb andb] in *; [|repeat split].
  destruct (classified k); [discriminate C|repeat split].
Qed.

Lemma complete_tick cn t k :
  completes k = true ->
  filter (fun c => negb (is_apiError c)) (snd (analyzeFrame cn t k))
  = snd (analyzeFrame cn t k).
Proof.
  unfold completes, analyzeFrame. intros C.
  destruct (ready k); cbn [negb andb] in *; [|discriminate C].
  destruct (context2d k); cbn [negb andb] in *; [|discriminate C].
  destruct (classified k) as [r|e]; [|discriminate C].
  cbv zeta. destruct (below (Gemini.score r) 60); [|reflexivity].
  cbn [snd]. destruct (Nat.eqb _ 1), (is_zero _ && negb _)%bool; reflexivity.
Qed.

Lemma run_skips cn ticks : forall t1 t2,
  lowFocusCounter t1 = lowFocusCounter t2 ->
  teacherAlertSent t1 = teacherAlertSent t2 ->
  notifications (snd (run_ticks cn t1 ticks))
  = List.concat (snd (run_ticks cn t2 (filter completes ticks)))
  /\ lowFocusCounter (fst (run_ticks cn t1 ticks))
     = lowFocusCounter (fst (run_ticks cn t2 (filter completes ticks)))
  /\ teacherAlertSent (fst (run_ticks cn t1 ticks))
     = teacherAlertSent (fst (run_ticks cn t2 (filter completes ticks))).
Proof.
  induction ticks as [|k rest IH]; intros t1 t2 Hc Ht.
  - cbn. auto.
  - rewrite run_ticks_cons. cbn [filter fst snd].
    unfold notifications in *. cbn [List.concat]. rewrite filter_app.
    destruct (completes k) eqn:C.
    + rewrite run_ticks_cons. cbn [fst snd List.concat].
      destruct (analyzeFrame_reads_streak cn t1 t2 k Hc Ht) as (E & Ec & Et).
      destruct (IH _ _ Ec Et) as (I1 & I2 & I3).
      rewrite (@complete_tick cn t1 k C), E, I1. auto.
    + destruct (@incomplete_tick cn t1 k C) as (Ec & Et & ->).
      cbn [app]. apply IH; congruence.
Qed.

(** X20: ticks that return early or whose classification fails are
    invisible to the notifications.  A run of the sampler makes the same
    focus updates, low-focus signals and teacher alerts, in the same
    order, as the run over its completed ticks alone, and ends with the
    same streak counter and alert flag: a failed frame inside a streak of
    low scores neither ends the streak nor signals it again. *)
Theorem X20_failed_ticks_do_not_break_a_streak
    (cn : string) (t : Tracker) (ticks : list Tick) :
  notifications (snd (run_ticks cn t ticks))
  = List.concat (snd (run_ticks cn t (filter completes ticks)))
  /\ lowFocusCounter (fst (run_ticks cn t ticks))
     = lowFocusCounter (fst (run_ticks cn t (filter completes ticks)))
  /\ teacherAlertSent (fst (run_ticks cn t ticks))
     = teacherAlertSent (fst (run_ticks cn t (filter completes ticks))).
Proof. apply run_skips; reflexivity. Qed.

End SamplerFacts.

(* ===================================================================== *)
(** ** The quiz *)
(* ===================================================================== *)

Module QuizFacts.

Import World JsString Gemini Quiz.
Open Scope string_scope.
Open Scope nat_scope.

Lemma mount_in_bounds questions : questions <> [] -> in_bounds questions mount.
Proof.
  intros H. destruct questions as [|q qs]; [congruence|].
  split; cbn; lia.
Qed.

Lemma click_in_bounds questions c s :
  in_bounds questions s ->
  exists s', click questions c s = Some s' /\ in_bounds questions s'.
Proof.
  intros [B S]. destruct c as [picked| |]; cbn [click].
  - unfold handleAnswerSelect. destruct (isAnswered s) eqn:A.
    + exists s. split; [reflexivity|]. split; [exact B|]. rewrite A. exact S.
    + unfold currentQuestion.
      destruct (nth_error questions (currentQuestionIndex s)) as [q|] eqn:N.
      * eexists. split; [reflexivity|]. split; cbn; [exact B|].
        destruct (String.eqb picked (correctAnswer q)); lia.
      * apply nth_error_None in N. lia.
  - eexists. split; [reflexivity|]. unfold handleNextQuestion.
    destruct (Z.ltb_spec (Z.of_nat (currentQuestionIndex s))
                         (Z.of_nat (List.length questions) - 1)) as [L|L].
    + split; cbn; [lia|]. destruct (isAnswered s); lia.
    + split; cbn; [exact B|]. unfold isAnswered in *. cbn. exact S.
  - eexists. split; [reflexivity|]. split; cbn; lia.
Qed.

Lemma clicks_in_bounds questions cs : forall s,
  in_bounds questions s ->
  exists s', clicks questions cs s = Some s' /\ in_bounds questions s'.
Proof.
  induction cs as [|c cs IH]; intros s H; cbn [clicks].
  - exists s. split; [reflexivity|exact H].
  - destruct (click_in_bounds c H) as (s1 & -> & H1). apply IH, H1.
Qed.

Lemma in_bounds_renders questions s :
  in_bounds questions s -> renders questions s = true.
Proof.
  intros [B _]. unfold renders, currentQuestion.
  destruct (nth_error questions (currentQuestionIndex s)) eqn:N; [reflexivity|].
  apply nth_error_None in N. lia.
Qed.

Lemma in_bounds_score questions s :
  in_bounds questions s -> score s <= List.length questions.
Proof. intros [B S]. destruct (isAnswered s); lia. Qed.

Lemma clicks_app questions cs1 : forall cs2 s,
  clicks questions (cs1 ++ cs2) s
  = match clicks questions cs1 s with
    | Some s' => clicks questions cs2 s'
    | None => None
    end.
Proof.
  induction cs1 as [|c cs1 IH]; intros cs2 s; cbn [clicks app];
    [reflexivity|].
  destruct (click questions c s); [apply IH|reflexivity].
Qed.

Lemma later_answers_ignored questions l : forall s,
  isAnswered s = true -> clicks questions (map Answer l) s = Some s.
Proof.
  induction l as [|a l IH]; intros s A; cbn [map clicks click];
    [reflexivity|].
  unfold handleAnswerSelect. rewrite A. apply IH, A.
Qed.

Lemma play_from rest : forall pre turns s questions,
  questions = (pre ++ rest)%list ->
  rest <> [] ->
  List.length turns = List.length rest ->
  currentQuestionIndex s = List.length pre ->
  selectedAnswer s = None ->
  exists s', clicks questions (play turns) s = Some s'
             /\ score s' = score s + marks rest turns
             /\ showResults s' = true
             /\ currentQuestionIndex s' = List.length questions - 1
             /\ isAnswered s' = true.
Proof.
  induction rest as [|q rest IH]; intros pre turns s questions Q R L I A;
    [congruence|].
  destruct turns as [|[a extra] turns]; [discriminate L|].
  cbn [play flat_map]. fold (play turns). unfold sitting.
  cbn [fst snd app clicks click].
  assert (N : currentQuestion questions s = Some q).
  { unfold currentQuestion. rewrite I, Q.
    rewrite nth_error_app2 by lia. rewrite Nat.sub_diag. reflexivity. }
  unfold handleAnswerSelect at 1. unfold isAnswered at 1. rewrite A, N.
  rewrite <- app_assoc, clicks_app.
  rewrite later_answers_ignored by reflexivity.
  cbn [app clicks click]. unfold handleNextQuestion.
  cbn [currentQuestionIndex selectedAnswer score showResults].
  assert (Len : List.length questions = List.length pre + S (List.length rest)).
  { rewrite Q, length_app. reflexivity. }
  destruct (Z.ltb_spec (Z.of_nat (currentQuestionIndex s))
                       (Z.of_nat (List.length questions) - 1)) as [Lt|Ge].
  - destruct rest as [|q' rest']; [cbn in Len; lia|].
    destruct (IH (pre ++ [q])%list turns
                 {| currentQuestionIndex := currentQuestionIndex s + 1;
                    selectedAnswer := None;
                    score := if String.eqb a (correctAnswer q)
                             then score s + 1 else score s;
                    showResults := showResults s |} questions)
      as (s' & E & Sc & Sh & Ix & An).
    + rewrite Q, <- app_assoc. reflexivity.
    + discriminate.
    + cbn in L. cbn. lia.
    + cbn. rewrite length_app. cbn. lia.
    + reflexivity.
    + exists s'. split; [exact E|]. split; [|auto].
      rewrite Sc. cbn [score marks fst].
      destruct (String.eqb a (correctAnswer q)); lia.
  - destruct rest as [|q' rest']; [|cbn in Len; lia].
    destruct turns as [|t turns]; [|discriminate L].
    cbn [play flat_map clicks]. eexists. split; [reflexivity|].
    cbn [score showResults currentQuestionIndex marks fst]. split.
    + destruct (String.eqb a (correctAnswer q)); lia.
    + split; [reflexivity|]. split; [cbn in Len; lia|reflexivity].
Qed.

Lemma generateQuiz_ok env reply summary questions :
  generateQuiz env reply summary = Ok questions ->
  questions <> [] ->
  truthy (trim summary) = true /\ has_key env = true
  /\ reply = Parsed questions.
Proof.
  unfold generateQuiz, getAiClient. intros E N.
  destruct (truthy (trim summary)); cbn [negb] in E;
    [|injection E as <-; congruence].
  destruct (has_key env); cbn [negb] in E; [|discriminate E].
  cbn in E. destruct reply as [e| |result]; try discriminate E.
  - injection E as <-. congruence.
  - injection E as <-. auto.
Qed.

(** X28: a quiz over at least one question never leaves its questions.
    Whatever buttons are pressed, in any order, no handler reads an
    undefined question, the component renders, the index stays inside the
    array and the score never exceeds the number of questions. *)
Theorem X28_quiz_stays_within_its_questions
    (questions : list QuizQuestion) (cs : list Click) :
  questions <> [] ->
  exists s,
    clicks questions cs mount = Some s
    /\ renders questions s = true
    /\ currentQuestionIndex s < List.length questions
    /\ score s <= List.length questions.
Proof.
  intros H.
  destruct (clicks_in_bounds cs (mount_in_bounds H)) as (s & E & B).
  exists s. split; [exact E|]. split; [apply in_bounds_renders, B|].
  split; [apply B|apply (in_bounds_score B)].
Qed.

Lemma X28_quiz_stays_within_its_questions_witness :
  let q := {| question := "2 + 2"; options := ["3"; "4"];
              correctAnswer := "4"; explanation := "" |} in
  [q] <> []
  /\ exists s,
       clicks [q] [Next; Answer "4"; Next; Next; Answer "4"; TryAgain; Answer "4"] mount
       = Some s
       /\ score s <= 1.
Proof.
  assert (H : [{| question := "2 + 2"; options := ["3"; "4"];
                  correctAnswer := "4"; explanation := "" |}] <> [])
    by discriminate.
  split; [exact H|].
  destruct (@X28_quiz_stays_within_its_questions _
              [Next; Answer "4"; Next; Next; Answer "4"; TryAgain; Answer "4"] H)
    as (s & E & _ & _ & S).
  exists s. split; [exact E|exact S].
Defined.

(** X29: a sitting of the quiz counts first answers.  When each question
    is answered, other options are clicked after it and the button under
    the explanation is pressed, the results are shown after the last
    question and the score is the number of questions whose first click
    was the correct answer. *)
Theorem X29_score_counts_first_answers
    (questions : list QuizQuestion) (turns : list (string * list string)) :
  questions <> [] ->
  List.length turns = List.length questions ->
  exists s,
    clicks questions (play turns) mount = Some s
    /\ score s = marks questions turns
    /\ showResults s = true
    /\ click questions TryAgain s = Some mount.
Proof.
  intros H L.
  destruct (@play_from questions [] turns mount questions
              eq_refl H L eq_refl eq_refl) as (s & E & Sc & Sh & _).
  exists s. split; [exact E|]. split; [exact Sc|]. split; [exact Sh|].
  reflexivity.
Qed.

Lemma X29_score_counts_first_answers_witness :
  let q1 := {| question := "2 + 2"; options := ["3"; "4"];
               correctAnswer := "4"; explanation := "" |} in
  let q2 := {| question := "3 + 3"; options := ["6"; "7"];
               correctAnswer := "6"; explanation := "" |} in
  exists s,
    clicks [q1; q2] (play [("3", ["4"]); ("6", [])]) mount = Some s
    /\ score s = 1.
Proof.
  destruct (@X29_score_counts_first_answers
              [{| question := "2 + 2"; options := ["3"; "4"];
                  correctAnswer := "4"; explanation := "" |};
               {| question := "3 + 3"; options := ["6"; "7"];
                  correctAnswer := "6"; explanation := "" |}]
              [("3", ["4"]); ("6", [])])
    as (s & E & Sc & _).
  - discriminate.
  - reflexivity.
  - exists s. split; [exact E|exact Sc].
Defined.

(** X30: the quiz is mounted only over questions.  After
    handleGenerateQuiz, from any state of the summary, either the quiz is
    mounted, and then the summary was not blank, the key was set, the reply
    parsed to at least one question, no alert was raised and every sequence
    of button presses of the quiz runs without reading an undefined
    question; or no quiz is mounted and exactly one alert was raised. *)
Theorem X30_quiz_is_mounted_over_questions
    (env : Env) (reply : Reply (list QuizQuestion)) (summary : string)
    (s : Summary.State) :
  let r := Summary.handleGenerateQuiz env reply summary s in
  Summary.isGeneratingQuiz (fst r) = false
  /\ match Summary.quiz_mounted (fst r) with
     | Some questions =>
         questions <> []
         /\ truthy (trim summary) = true /\ has_key env = true
         /\ reply = Parsed questions
         /\ snd r = []
         /\ forall cs, exists q,
              clicks questions cs mount = Some q
              /\ renders questions q = true
     | None => exists message, snd r = [message]
     end.
Proof.
  cbn zeta. unfold Summary.handleGenerateQuiz, Summary.quiz_mounted.
  destruct (generateQuiz env reply summary) as [questions|e] eqn:G.
  - destruct (Nat.ltb_spec 0 (List.length questions)) as [P|P];
      cbn [fst snd Summary.showQuiz Summary.quizQuestions
           Summary.isGeneratingQuiz].
    + assert (N : questions <> []) by (intros ->; cbn in P; lia).
      destruct (generateQuiz_ok _ _ _ G N) as (T & K & R).
      split; [reflexivity|]. repeat (split; [assumption|]).
      split; [reflexivity|]. intros cs.
      destruct (clicks_in_bounds cs (mount_in_bounds N)) as (q & E & B).
      exists q. split; [exact E|apply in_bounds_renders, B].
    + split; [reflexivity|].
      destruct (Summary.showQuiz s); eexists; reflexivity.
  - cbn [fst snd Summary.showQuiz Summary.quizQuestions
         Summary.isGeneratingQuiz].
    split; [reflexivity|].
    destruct (Summary.showQuiz s); eexists; reflexivity.
Qed.

End QuizFacts.
